(** * gestao_obra: the expense tracker of [app.py], embedded in Rocq

    The program keeps two CSV files, [categories.csv] and [expenses.csv],
    and serves a handful of Flask routes over them.  This development
    embeds the storage layer and the request handlers of [app.py] and
    verifies the properties its specification states about them.

    Modelling conventions.
    - A Python [str] is a [string]; the characters are the ASCII ones, so
      [str.strip], [str.lower] and the ordering of strings are the ASCII
      restrictions of the Python functions.
    - A CSV file is the list of rows that [csv.reader] yields for it, and
      [csv.writer] writes such a list back unchanged: the quoting layer of
      the [csv] module is not modelled, nor the reader's limit on the
      length of a field, so that [csv.Error] is outside the model.
    - The file system is the pair of the two files (absent or present)
      together with the chronological log of the writes performed.
    - A function that touches the file system or may raise runs in the
      monad [M]: it maps a world to an outcome (a value or a raised
      exception) and the world it leaves behind. *)

From Stdlib Require Import Ascii DecimalString DecimalPos.
From stdpp Require Import gmap strings list fin_maps sorting.
From Stdlib Require Import ZArith Lia.

Local Open Scope Z_scope.
Local Open Scope stdpp_scope.
Local Open Scope string_scope.
Local Open Scope list_scope.

(** ** Python strings *)

Module PyStr.

(** [str.isspace] on an ASCII character: TAB, LF, VT, FF, CR, the four
    separators FS, GS, RS, US and the space. *)
Definition isspace (c : ascii) : bool :=
  let n := N_of_ascii c in
  ((9 <=? n) && (n <=? 13) || (28 <=? n) && (n <=? 32))%N.

Definition isdigit (c : ascii) : bool :=
  let n := N_of_ascii c in
  ((48 <=? n) && (n <=? 57))%N.

Definition lower_char (c : ascii) : ascii :=
  let n := N_of_ascii c in
  if ((65 <=? n) && (n <=? 90))%N then ascii_of_N (n + 32) else c.

(** [s.lower()] *)
Fixpoint lower (s : string) : string :=
  match s with
  | EmptyString => EmptyString
  | String c s' => String (lower_char c) (lower s')
  end.

(** [s.lstrip()] *)
Fixpoint lstrip (s : string) : string :=
  match s with
  | EmptyString => EmptyString
  | String c s' => if isspace c then lstrip s' else s
  end.

(** [s.rstrip()] *)
Fixpoint rstrip (s : string) : string :=
  match s with
  | EmptyString => EmptyString
  | String c s' =>
      match rstrip s' with
      | EmptyString => if isspace c then EmptyString else String c EmptyString
      | r => String c r
      end
  end.

(** [s.strip()] *)
Definition strip (s : string) : string := rstrip (lstrip s).

(** [s.replace(old, new)] for one-character [old] and [new]. *)
Fixpoint replace (old new : ascii) (s : string) : string :=
  match s with
  | EmptyString => EmptyString
  | String c s' =>
      String (if Ascii.eqb c old then new else c) (replace old new s')
  end.

(** Truth value of a string: [bool(s)]. *)
Definition truthy (s : string) : bool :=
  match s with EmptyString => false | _ => true end.

(** [a or b] on strings. *)
Definition or_else (a b : string) : string := if truthy a then a else b.

Fixpoint all_chars (p : ascii -> bool) (s : string) : bool :=
  match s with
  | EmptyString => true
  | String c s' => p c && all_chars p s'
  end.

End PyStr.

(** ** Python numbers read from and written to strings *)

Module PyNum.
Import PyStr.

(** The digits of a [digitpart ::= digit (["_"] digit)*], without the
    underscores; [None] when the string is not a [digitpart].
    [digits_after] reads what follows a digit. *)
Fixpoint digits_after (s : string) : option string :=
  match s with
  | EmptyString => Some EmptyString
  | String c s' =>
      if Ascii.eqb c "_" then
        match s' with
        | String d s'' =>
            if isdigit d then String d <$> digits_after s'' else None
        | EmptyString => None
        end
      else if isdigit c then String c <$> digits_after s'
      else None
  end.

Definition digitpart (s : string) : option string :=
  match s with
  | String c s' => if isdigit c then String c <$> digits_after s' else None
  | EmptyString => None
  end.

(** The number a non-empty string of decimal digits denotes. *)
Definition nat_of_digits (ds : string) : option N :=
  N.of_uint <$> NilZero.uint_of_string ds.

(** The white space [int] and [float] skip at both ends of an ASCII
    string: TAB, LF, VT, FF, CR and the space.  The separators FS, GS, RS
    and US, which [str.strip] removes, are not skipped: [int("\x1c7")]
    raises [ValueError]. *)
Definition isspace_c (c : ascii) : bool :=
  let n := N_of_ascii c in
  ((9 <=? n) && (n <=? 13) || (n =? 32))%N.

Fixpoint skip_left (s : string) : string :=
  match s with
  | EmptyString => EmptyString
  | String c s' => if isspace_c c then skip_left s' else s
  end.

Fixpoint skip_right (s : string) : string :=
  match s with
  | EmptyString => EmptyString
  | String c s' =>
      match skip_right s' with
      | EmptyString => if isspace_c c then EmptyString else String c EmptyString
      | r => String c r
      end
  end.

Definition skip_spaces (s : string) : string := skip_right (skip_left s).

(** An optional sign in front of [s]: the sign read and the rest. *)
Definition split_sign (s : string) : bool * string :=
  match s with
  | String c r =>
      if Ascii.eqb c "-" then (true, r)
      else if Ascii.eqb c "+" then (false, r)
      else (false, s)
  | EmptyString => (false, s)
  end.

(** [int(s)] for a string argument; [None] stands for [ValueError]. *)
Definition int (s : string) : option Z :=
  let '(neg, body) := split_sign (skip_spaces s) in
  ds ← digitpart body;
  n ← nat_of_digits ds;
  Some (if neg then - Z.of_N n else Z.of_N n).

(** [str(n)] for an integer. *)
Definition str (n : Z) : string := NilZero.string_of_int (Z.to_int n).

(** The value of a float literal before it is rounded to a double: a
    signed decimal [mant * 10 ^ exp10], an infinity or a NaN.  CPython
    rounds this value to the nearest double; two equal values of this
    type denote the same double. *)
Inductive pyfloat : Type :=
| FNan
| FInf (neg : bool)
| FDec (neg : bool) (mant : N) (exp10 : Z).

(** The part of [s] before the first character satisfying [p], and the
    part after it when there is one. *)
Fixpoint split_at (p : ascii -> bool) (s : string) : string * option string :=
  match s with
  | EmptyString => (EmptyString, None)
  | String c s' =>
      if p c then (EmptyString, Some s')
      else let '(a, b) := split_at p s' in (String c a, b)
  end.

Definition is_e (c : ascii) : bool := Ascii.eqb c "e" || Ascii.eqb c "E".
Definition is_dot (c : ascii) : bool := Ascii.eqb c ".".

(** [number ::= [digitpart] "." digitpart | digitpart ["."]]: the digits
    of the integer part followed by those of the fraction, and the number
    of fraction digits. *)
Definition number (s : string) : option (string * nat) :=
  match split_at is_dot s with
  | (ip, None) => ds ← digitpart ip; Some (ds, 0%nat)
  | (EmptyString, Some fp) => fs ← digitpart fp; Some (fs, String.length fs)
  | (ip, Some EmptyString) => ds ← digitpart ip; Some (ds, 0%nat)
  | (ip, Some fp) =>
      ds ← digitpart ip; fs ← digitpart fp;
      Some (ds +:+ fs, String.length fs)
  end.

(** [exponent ::= ("e" | "E") [sign] digitpart], after the letter. *)
Definition exponent (s : string) : option Z :=
  let '(neg, body) := split_sign s in
  ds ← digitpart body;
  n ← nat_of_digits ds;
  Some (if neg then - Z.of_N n else Z.of_N n).

Definition floatnumber (s : string) : option (N * Z) :=
  let '(m, e) := split_at is_e s in
  '(ds, nfrac) ← number m;
  mant ← nat_of_digits ds;
  ex ← match e with None => Some 0 | Some es => exponent es end;
  Some (mant, ex - Z.of_nat nfrac).

(** [float(s)] for a string argument; [None] stands for [ValueError]. *)
Definition float (s : string) : option pyfloat :=
  let '(neg, body) := split_sign (skip_spaces s) in
  let l := lower body in
  if String.eqb l "inf" || String.eqb l "infinity" then Some (FInf neg)
  else if String.eqb l "nan" then Some FNan
  else '(mant, ex) ← floatnumber body; Some (FDec neg mant ex).

End PyNum.

(** ** Dates: [datetime.strptime(s, "%Y-%m-%d")] and [strftime] *)

Module PyDate.
Import PyStr PyNum.

Record date : Type := mkDate { year : N; month : N; day : N }.

Definition digit_value (c : ascii) : N := (N_of_ascii c - 48)%N.

Definition in_range (lo hi : ascii) (c : ascii) : bool :=
  ((N_of_ascii lo <=? N_of_ascii c) && (N_of_ascii c <=? N_of_ascii hi))%N.

(** One alternative of a directive's regular expression: the value read
    and the rest of the input, when the alternative matches. *)
Definition alternative : Type := string -> option (N * string).

Definition two_chars (p1 p2 : ascii -> bool) : alternative := fun s =>
  match s with
  | String a (String b r) =>
      if p1 a && p2 b then Some (10 * digit_value a + digit_value b, r)%N
      else None
  | _ => None
  end.

Definition one_char (p : ascii -> bool) : alternative := fun s =>
  match s with
  | String a r => if p a then Some (digit_value a, r) else None
  | _ => None
  end.

Definition space_then (p : ascii -> bool) : alternative := fun s =>
  match s with
  | String a (String b r) =>
      if Ascii.eqb a " " && p b then Some (digit_value b, r) else None
  | _ => None
  end.

(** [%Y] is [\d\d\d\d]. *)
Definition regex_Y : alternative := fun s =>
  match s with
  | String a (String b (String c (String d r))) =>
      if isdigit a && isdigit b && isdigit c && isdigit d
      then Some (1000 * digit_value a + 100 * digit_value b
                 + 10 * digit_value c + digit_value d, r)%N
      else None
  | _ => None
  end.

(** [%m] is [1[0-2]|0[1-9]|[1-9]]. *)
Definition regex_m : list alternative :=
  [ two_chars (in_range "1" "1") (in_range "0" "2");
    two_chars (in_range "0" "0") (in_range "1" "9");
    one_char (in_range "1" "9") ].

(** [%d] is [3[0-1]|[1-2]\d|0[1-9]|[1-9]| [1-9]]. *)
Definition regex_d : list alternative :=
  [ two_chars (in_range "3" "3") (in_range "0" "1");
    two_chars (in_range "1" "2") isdigit;
    two_chars (in_range "0" "0") (in_range "1" "9");
    one_char (in_range "1" "9");
    space_then (in_range "1" "9") ].

(** Backtracking over the alternatives, in their order: the first one
    that matches and after which the rest of the pattern [k] matches. *)
Fixpoint first_match {A} (alts : list alternative) (s : string)
    (k : N -> string -> option A) : option A :=
  match alts with
  | [] => None
  | alt :: alts' =>
      match alt s with
      | Some (v, r) =>
          match k v r with
          | Some x => Some x
          | None => first_match alts' s k
          end
      | None => first_match alts' s k
      end
  end.

Definition dash (s : string) : option string :=
  match s with
  | String c r => if Ascii.eqb c "-" then Some r else None
  | EmptyString => None
  end.

(** The match of the compiled format against the start of [s]: the three
    fields and what is left of [s] after the match. *)
Definition format_regex_match (s : string) : option (date * string) :=
  '(y, r1) ← regex_Y s;
  r2 ← dash r1;
  first_match regex_m r2 (fun m r3 =>
    r4 ← dash r3;
    first_match regex_d r4 (fun d r5 => Some (mkDate y m d, r5))).

Definition is_leap (y : N) : bool :=
  ((y mod 4 =? 0) && (negb (y mod 100 =? 0) || (y mod 400 =? 0)))%N.

Definition days_in_month (y m : N) : N :=
  match m with
  | 2 => if is_leap y then 29 else 28
  | 4 | 6 | 9 | 11 => 30
  | _ => 31
  end%N.

(** The checks of the [date] constructor. *)
Definition valid_date (d : date) : bool :=
  ((1 <=? year d) && (year d <=? 9999) && (1 <=? month d) && (month d <=? 12)
   && (1 <=? day d) && (day d <=? days_in_month (year d) (month d)))%N.

(** [datetime.strptime(s, "%Y-%m-%d")]; [None] stands for [ValueError]
    (no match, unconverted data, or a date that does not exist). *)
Definition strptime (s : string) : option date :=
  '(d, rest) ← format_regex_match s;
  if truthy rest then None
  else if valid_date d then Some d else None.

Definition pad (width : nat) (n : N) : string :=
  let s := str (Z.of_N n) in
  String.string_of_list_ascii (replicate (width - String.length s) "0"%char) +:+ s.

(** [d.strftime("%Y-%m-%d")], the year padded to four digits. *)
Definition strftime (d : date) : string :=
  pad 4 (year d) +:+ "-" +:+ pad 2 (month d) +:+ "-" +:+ pad 2 (day d).

End PyDate.

Import PyStr PyNum PyDate.

(** ** The file system and the monad of the storage functions *)

Abbreviation row := (list string).
Abbreviation csv := (list (list string)).

Inductive path : Type := CATEGORIES_FILE | EXPENSES_FILE.

(** A write to a file (mode ["w"] or ["a"]) and the content it leaves. *)
Inductive event : Type := Wrote (p : path) (content : csv).

Record world : Type := mkWorld {
  categories_csv : option csv;
  expenses_csv : option csv;
  io_log : list event
}.

Inductive exn : Type := ValueError | AttributeError | FileNotFoundError.

Inductive outcome (A : Type) : Type :=
| Ret (a : A)
| Raise (e : exn).
Arguments Ret {A} a.
Arguments Raise {A} e.

Definition M (A : Type) : Type := world -> outcome A * world.

Definition ret {A} (a : A) : M A := fun w => (Ret a, w).
Definition raise {A} (e : exn) : M A := fun w => (Raise e, w).
Definition bind {A B} (m : M A) (k : A -> M B) : M B := fun w =>
  match m w with
  | (Ret a, w') => k a w'
  | (Raise e, w') => (Raise e, w')
  end.

(** A computation that may raise but does not touch the files. *)
Definition obind {A B} (m : outcome A) (k : A -> outcome B) : outcome B :=
  match m with
  | Ret a => k a
  | Raise e => Raise e
  end.
Definition lift {A} (m : outcome A) : M A := fun w => (m, w).

Declare Scope py_scope.
Delimit Scope py_scope with py.
Notation "x <- m ;; k" := (bind m (fun x => k))
  (at level 100, m at next level, right associativity) : py_scope.
Notation "m ;; k" := (bind m (fun _ => k))
  (at level 100, right associativity) : py_scope.
Notation "x <~ m ;; k" := (obind m (fun x => k))
  (at level 100, m at next level, right associativity) : py_scope.
Local Open Scope py_scope.

Definition content (p : path) (w : world) : option csv :=
  match p with
  | CATEGORIES_FILE => categories_csv w
  | EXPENSES_FILE => expenses_csv w
  end.

Definition store (p : path) (c : csv) (w : world) : world :=
  match p with
  | CATEGORIES_FILE => mkWorld (Some c) (expenses_csv w) (io_log w ++ [Wrote p c])
  | EXPENSES_FILE => mkWorld (categories_csv w) (Some c) (io_log w ++ [Wrote p c])
  end.

(** [p.exists()] *)
Definition exists_ (p : path) : M bool := fun w =>
  (Ret (bool_decide (is_Some (content p w))), w).

(** [list(csv.reader(p.open("r")))].  A file is the list of the rows
    the reader yields.  The reader's limit on the length of a field
    ([csv.field_size_limit()], 131072 characters) is not modelled:
    [csv.Error] is outside the model, and what is proved of a read holds
    for files whose fields are within the limit. *)
Definition read_rows (p : path) : M csv := fun w =>
  match content p w with
  | Some c => (Ret c, w)
  | None => (Raise FileNotFoundError, w)
  end.

(** [csv.writer(p.open("w")).writerows(rows)] *)
Definition write_rows (p : path) (rows : csv) : M unit := fun w =>
  (Ret tt, store p rows w).

(** [csv.writer(p.open("a")).writerows(rows)] *)
Definition append_rows (p : path) (rows : csv) : M unit := fun w =>
  (Ret tt, store p (default [] (content p w) ++ rows) w).

(** *** [csv.DictReader] *)

(** A row as [DictReader] yields it: a [dict] from the field names to the
    cells, [None] for the fields the row is too short for ([restval]). *)
Abbreviation pydict := (gmap string (option string)).

Definition zip_row (fieldnames cells : row) : pydict :=
  foldl (fun d kv => <[kv.1 := Some kv.2]> d) ∅ (zip fieldnames cells).

Definition dict_row (fieldnames cells : row) : pydict :=
  foldl (fun d k => <[k := None]> d) (zip_row fieldnames cells)
        (drop (length cells) fieldnames).

(** The first row gives the field names; empty rows are skipped. *)
Definition DictReader (rows : csv) : list pydict :=
  match rows with
  | [] => []
  | fieldnames :: rest =>
      dict_row fieldnames <$> filter (fun r => r ≠ []) rest
  end.

(** [d.get(k, default)]: a string, or [None] (the stored [restval], or the
    default when it is [None]). *)
Definition get (d : pydict) (k : string) (dflt : option string) : option string :=
  match d !! k with
  | Some v => v
  | None => dflt
  end.

(** [v.strip()] on the result of [get]: [None] has no [strip]. *)
Definition strip_of (v : option string) : outcome string :=
  match v with
  | Some s => Ret (strip s)
  | None => Raise AttributeError
  end.

(** Truth value of the result of [get]. *)
Definition truthy_of (v : option string) : bool :=
  match v with
  | Some s => truthy s
  | None => false
  end.

(** *** Sorting, as [sorted] does it: stable *)

Fixpoint insert_by {A K} (le : K -> K -> bool) (key : A -> K) (x : A)
    (l : list A) : list A :=
  match l with
  | [] => [x]
  | y :: l' => if le (key x) (key y) then x :: l else y :: insert_by le key x l'
  end.

(** [sorted(l, key=key)] for keys ordered by [le]; equal keys keep the
    order they have in [l]. *)
Definition sorted {A K} (le : K -> K -> bool) (key : A -> K) (l : list A) : list A :=
  foldr (insert_by le key) [] l.

(** ** The records of [app.py] *)

Record category : Type := mkCategory { c_id : string; c_nome : string }.

Record expense : Type := mkExpense {
  e_id : string;
  e_data : string;
  e_descricao : string;
  e_valor : string;
  e_categoria_id : string;
  e_anotacao : string
}.

(** An expense as [read_expenses] returns it. *)
Record processed : Type := mkProcessed {
  p_id : string;
  p_data : string;
  p_descricao : string;
  p_valor : string;
  p_valor_float : pyfloat;
  p_categoria_id : string;
  p_categoria_nome : string;
  p_categoria : string;
  p_anotacao : string
}.

#[global] Instance category_eq_dec : EqDecision category.
Proof. solve_decision. Defined.
#[global] Instance expense_eq_dec : EqDecision expense.
Proof. solve_decision. Defined.

Definition categories_header : row := ["id"; "nome"].
Definition expenses_header : row :=
  ["id"; "data"; "descricao"; "valor"; "categoria_id"; "anotacao"].

Definition category_row (c : category) : row := [c_id c; c_nome c].
Definition expense_row (e : expense) : row :=
  [e_id e; e_data e; e_descricao e; e_valor e; e_categoria_id e; e_anotacao e].

(** ** Storage: creation and migration of the two files *)

(** [any(cell.strip() for cell in row)] *)
Definition nonblank (r : row) : bool :=
  existsb (fun cell => truthy (strip cell)) r.

(** [header and header[0] == "id"] *)
Definition header_is_current (header : row) : bool :=
  match header with
  | h :: _ => String.eqb h "id"
  | [] => false
  end.

(** The first loop of [upgrade_categories_file]: the stripped, non-empty
    first cells of the rows after the header. *)
Definition legacy_names (rows : csv) : list string :=
  foldl (fun names r =>
           match r with
           | [] => names
           | cell :: _ =>
               let name := strip cell in
               if truthy name then names ++ [name] else names
           end) [] rows.

(** The body of the second loop: a name not seen yet is recorded. *)
Definition normalize_step (st : gset string * list string) (name : string)
    : gset string * list string :=
  let '(seen, normalized_names) := st in
  if decide (name ∈ seen) then (seen, normalized_names)
  else ({[name]} ∪ seen, normalized_names ++ [name]).

(** The second loop: the names in order of first occurrence, with the set
    of the names seen. *)
Definition normalize_names (names : list string) : gset string * list string :=
  foldl normalize_step (∅, []) names.

(** [[str(idx), name] for idx, name in enumerate(names, start)] *)
Fixpoint enumerate_rows (start : Z) (names : list string) : csv :=
  match names with
  | [] => []
  | name :: names' => [str start; name] :: enumerate_rows (start + 1) names'
  end.

Definition upgrade_categories_file : M unit :=
  rows_all <- read_rows CATEGORIES_FILE;;
  let rows := filter (fun r => nonblank r = true) rows_all in
  match rows with
  | [] => write_rows CATEGORIES_FILE [categories_header; ["1"; "Outros"]]
  | first :: rest =>
      let header := strip <$> first in
      if header_is_current header then ret tt
      else
        let names := legacy_names rest in
        let '(seen, normalized_names) := normalize_names names in
        let normalized_names :=
          if decide ("Outros" ∈ seen) then normalized_names
          else "Outros" :: normalized_names in
        write_rows CATEGORIES_FILE
          (categories_header :: enumerate_rows 1 normalized_names)
  end.

Definition load_categories_for_upgrade : M (list category) :=
  b <- exists_ CATEGORIES_FILE;;
  if negb b then ret []
  else
    rows <- read_rows CATEGORIES_FILE;;
    ret (omap (fun d =>
                 match get d "id" None, get d "nome" None with
                 | Some i, Some n =>
                     if truthy i && truthy n
                     then Some (mkCategory (strip i) (strip n)) else None
                 | _, _ => None
                 end) (DictReader rows)).

Definition append_categories (entries : list (string * string)) : M unit :=
  append_rows CATEGORIES_FILE ((fun e => [e.1; e.2]) <$> entries).

(** A row of the legacy expenses file, as [upgrade_expenses_file] keeps it. *)
Record old_row : Type := mkOldRow {
  o_data : string;
  o_descricao : string;
  o_valor : string;
  o_categoria : string;
  o_anotacao : string
}.

Definition old_rows_of (rows : csv) : list old_row :=
  omap (fun r =>
          match r with
          | c0 :: c1 :: c2 :: c3 :: c4 :: _ =>
              Some (mkOldRow (strip c0) (strip c1) (strip c2)
                             (or_else (strip c3) "Outros") (strip c4))
          | _ => None
          end) rows.

(** [max((int(cat["id"]) for cat in categories), default=0)]; [int] may
    raise [ValueError]. *)
Fixpoint max_id_of (ids : list string) : outcome (option Z) :=
  match ids with
  | [] => Ret None
  | i :: ids' =>
      match int i with
      | None => Raise ValueError
      | Some n =>
          m <~ max_id_of ids';;
          Ret (Some (match m with Some k => Z.max n k | None => n end))
      end
  end.

Definition max_default0 (ids : list string) : outcome Z :=
  m <~ max_id_of ids;; Ret (default 0 m).

(** The state of the main loop of [upgrade_expenses_file]. *)
Record upgrade_state : Type := mkUpgrade {
  u_name_to_id : gmap string string;
  u_next_category_id : Z;
  u_new_categories : list (string * string);
  u_new_rows : csv
}.

Definition upgrade_step (st : upgrade_state) (ir : Z * old_row) : upgrade_state :=
  let '(idx, r) := ir in
  let categoria_nome := or_else (o_categoria r) "Outros" in
  let found := u_name_to_id st !! categoria_nome in
  let is_new := negb (truthy_of found) in
  let categoria_id :=
    if is_new then str (u_next_category_id st) else default "" found in
  mkUpgrade
    (if is_new then <[categoria_nome := categoria_id]> (u_name_to_id st)
     else u_name_to_id st)
    (if is_new then u_next_category_id st + 1 else u_next_category_id st)
    (if is_new then u_new_categories st ++ [(categoria_id, categoria_nome)]
     else u_new_categories st)
    (u_new_rows st ++
       [[str idx; o_data r; o_descricao r; o_valor r; categoria_id; o_anotacao r]]).

(** [enumerate(l, start)] *)
Fixpoint enumerate {A} (start : Z) (l : list A) : list (Z * A) :=
  match l with
  | [] => []
  | x :: l' => (start, x) :: enumerate (start + 1) l'
  end.

Definition upgrade_expenses_file : M unit :=
  rows_all <- read_rows EXPENSES_FILE;;
  let rows := filter (fun r => nonblank r = true) rows_all in
  match rows with
  | [] => write_rows EXPENSES_FILE [expenses_header]
  | first :: rest =>
      let header := strip <$> first in
      if header_is_current header then ret tt
      else
        let old_rows := old_rows_of rest in
        categories <- load_categories_for_upgrade;;
        let name_to_id : gmap string string :=
          foldl (fun d c => <[c_nome c := c_id c]> d) ∅ categories in
        m <- lift (max_default0 (c_id <$> categories));;
        let st := foldl upgrade_step (mkUpgrade name_to_id (m + 1) [] [])
                        (enumerate 1 old_rows) in
        write_rows EXPENSES_FILE (expenses_header :: u_new_rows st);;
        match u_new_categories st with
        | [] => ret tt
        | new_categories => append_categories new_categories
        end
  end.

Definition ensure_storage : M unit :=
  has_categories <- exists_ CATEGORIES_FILE;;
  (if negb has_categories
   then write_rows CATEGORIES_FILE [categories_header; ["1"; "Outros"]]
   else upgrade_categories_file);;
  has_expenses <- exists_ EXPENSES_FILE;;
  if negb has_expenses
  then write_rows EXPENSES_FILE [expenses_header]
  else upgrade_expenses_file.

(** ** Categories *)

Fixpoint categories_of (rows : list pydict) : outcome (list category) :=
  match rows with
  | [] => Ret []
  | d :: rows' =>
      cat_id <~ strip_of (get d "id" (Some ""));;
      nome <~ strip_of (get d "nome" (Some ""));;
      rest <~ categories_of rows';;
      Ret (if truthy cat_id && truthy nome
           then mkCategory cat_id nome :: rest else rest)
  end.

Definition load_categories_raw : M (list category) :=
  ensure_storage;;
  rows <- read_rows CATEGORIES_FILE;;
  lift (categories_of (DictReader rows)).

Definition save_categories (categories : list category) : M unit :=
  ensure_storage;;
  write_rows CATEGORIES_FILE (categories_header :: (category_row <$> categories)).

Definition read_categories : M (list category) :=
  categories <- load_categories_raw;;
  ret (sorted String.leb (fun c => lower (c_nome c)) categories).

Definition add_category (nome : string) : M unit :=
  let nome := strip nome in
  if negb (truthy nome) then ret tt
  else
    categories <- read_categories;;
    let existing : gset string :=
      list_to_set ((fun c => lower (c_nome c)) <$> categories) in
    if bool_decide (lower nome ∈ existing) then ret tt
    else
      m <- lift (max_default0 (c_id <$> categories));;
      let next_id := str (m + 1) in
      append_rows CATEGORIES_FILE [[next_id; nome]].

(** ** Expenses *)

Fixpoint expenses_of (rows : list pydict) : outcome (list expense) :=
  match rows with
  | [] => Ret []
  | d :: rows' =>
      exp_id <~ strip_of (get d "id" (Some ""));;
      if negb (truthy exp_id) then expenses_of rows'
      else
        data <~ strip_of (get d "data" (Some ""));;
        descricao <~ strip_of (get d "descricao" (Some ""));;
        let valor := strip (default "" (get d "valor" None)) in
        categoria_id <~ strip_of (get d "categoria_id" (Some ""));;
        anotacao <~ strip_of (get d "anotacao" (Some ""));;
        rest <~ expenses_of rows';;
        Ret (mkExpense exp_id data descricao valor categoria_id anotacao :: rest)
  end.

Definition load_expenses_raw : M (list expense) :=
  ensure_storage;;
  rows <- read_rows EXPENSES_FILE;;
  lift (expenses_of (DictReader rows)).

Definition save_expenses (expenses : list expense) : M unit :=
  ensure_storage;;
  write_rows EXPENSES_FILE (expenses_header :: (expense_row <$> expenses)).

(** The body of the loop of [get_next_id]: a row whose field is missing
    ([TypeError]) or is not an integer ([ValueError]) is passed over. *)
Definition next_id_step (field : string) (max_id : Z) (d : pydict) : Z :=
  match get d field (Some "0") with
  | None => max_id
  | Some v =>
      match int v with
      | None => max_id
      | Some current => if current >? max_id then current else max_id
      end
  end.

Definition next_id_loop (field : string) (rows : list pydict) : Z :=
  foldl (next_id_step field) 0 rows.

Definition get_next_id (file_path : path) (field : string) : M string :=
  b <- exists_ file_path;;
  if negb b then ret "1"
  else
    rows <- read_rows file_path;;
    ret (str (next_id_loop field (DictReader rows) + 1)).

Definition resolve_category_id (identifier : string) : M (option string) :=
  let identifier := strip identifier in
  if negb (truthy identifier) then ret None
  else
    categories <- read_categories;;
    let lowered := lower identifier in
    ret (c_id <$>
           List.find (fun c => String.eqb identifier (c_id c)
                               || String.eqb lowered (lower (c_nome c)))
                     categories).

Fixpoint rename_first (category_id novo_nome : string) (l : list category)
    : list category :=
  match l with
  | [] => []
  | c :: l' =>
      if String.eqb (c_id c) category_id
      then mkCategory (c_id c) novo_nome :: l'
      else c :: rename_first category_id novo_nome l'
  end.

Definition update_category (category_id novo_nome : string) : M bool :=
  let novo_nome := strip novo_nome in
  if negb (truthy novo_nome) then ret false
  else
    categories <- load_categories_raw;;
    let target := List.find (fun c => String.eqb (c_id c) category_id) categories in
    match target with
    | None => ret false
    | Some _ =>
        if existsb (fun c => String.eqb (lower novo_nome) (lower (c_nome c))
                             && negb (String.eqb (c_id c) category_id))
                   categories
        then ret false
        else
          (* target["nome"] = novo_nome: the first category with this id,
             which [categories] shares, is renamed in place *)
          save_categories (rename_first category_id novo_nome categories);;
          ret true
    end.

Definition set_categoria_id (new_id : string) (e : expense) : expense :=
  mkExpense (e_id e) (e_data e) (e_descricao e) (e_valor e) new_id (e_anotacao e).

(** The body of the loop of [reassign_expenses_category]. *)
Definition reassigned (old_id new_id : string) (e : expense) : expense :=
  if String.eqb (e_categoria_id e) old_id then set_categoria_id new_id e else e.

Definition reassign_expenses_category (old_id new_id : string) : M unit :=
  expenses <- load_expenses_raw;;
  let changed := existsb (fun e => String.eqb (e_categoria_id e) old_id) expenses in
  let expenses := reassigned old_id new_id <$> expenses in
  if changed then save_expenses expenses else ret tt.

Definition delete_category (category_id : string) : M bool :=
  if String.eqb category_id "1" then ret false
  else
    categories <- load_categories_raw;;
    let filtered :=
      filter (fun c => c_id c ≠ category_id) categories in
    if (length filtered =? length categories)%nat then ret false
    else
      save_categories filtered;;
      reassign_expenses_category category_id "1";;
      ret true.

Definition delete_expense (expense_id : string) : M bool :=
  expenses <- load_expenses_raw;;
  let filtered := filter (fun e => e_id e ≠ expense_id) expenses in
  if (length filtered =? length expenses)%nat then ret false
  else
    save_expenses filtered;;
    ret true.

(** ** Requests and responses *)

(** [request.form]: the fields in the order they were sent. *)
Abbreviation form := (list (string * string)).

(** [request.form.get(k)]: the first value sent for [k]. *)
Definition form_get (f : form) (k : string) : option string :=
  snd <$> List.find (fun kv => String.eqb kv.1 k) f.

Inductive endpoint : Type := ep_index | ep_categorias.

Inductive response : Type :=
| Redirect (message flash_category : string) (target : endpoint)
| RenderIndex (expenses : list processed) (category_records : list category)
| RenderCategorias (category_records : list category)
| RenderAdmin (expenses : list processed).

(** The four stripped inputs of the expense forms and [anotacao]. *)
Definition categoria_input (f : form) : string :=
  strip (or_else (default "" (form_get f "categoria_id"))
                 (or_else (default "" (form_get f "categoria")) "")).

Section Amounts.

(** The rendering [f"{v:.2f}"] of a double rounds in binary floating
    point; it is taken as given. *)
Context (format_2f : pyfloat -> string).

Definition rewrite_first (expense_id data descricao : string) (valor : pyfloat)
    (categoria_id anotacao : string) : list expense -> list expense :=
  fix go (l : list expense) : list expense :=
    match l with
    | [] => []
    | e :: l' =>
        if String.eqb (e_id e) expense_id
        then mkExpense (e_id e) data descricao (format_2f valor)
                       categoria_id anotacao :: l'
        else e :: go l'
    end.

Definition update_expense (expense_id data descricao : string) (valor : pyfloat)
    (categoria_id anotacao : string) : M bool :=
  expenses <- load_expenses_raw;;
  let updated := existsb (fun e => String.eqb (e_id e) expense_id) expenses in
  if negb updated then ret false
  else
    save_expenses
      (rewrite_first expense_id data descricao valor categoria_id anotacao
                     expenses);;
    ret true.

Definition write_expense (data descricao : string) (valor : pyfloat)
    (categoria_id anotacao : string) : M unit :=
  ensure_storage;;
  expense_id <- get_next_id EXPENSES_FILE "id";;
  append_rows EXPENSES_FILE
    [[expense_id; data; descricao; format_2f valor; categoria_id; anotacao]].

Definition process (categories_by_id : gmap string string) (e : expense)
    : processed :=
  let valor_raw := replace "," "." (or_else (e_valor e) "0") in
  let valor_float := default (FDec false 0 0) (float valor_raw) in
  let categoria_id := e_categoria_id e in
  let categoria_nome :=
    or_else (default "" (categories_by_id !! categoria_id))
            "Categoria removida" in
  mkProcessed (e_id e) (e_data e) (e_descricao e) (format_2f valor_float)
              valor_float categoria_id categoria_nome categoria_nome
              (e_anotacao e).

Definition read_expenses : M (list processed) :=
  expenses_raw <- load_expenses_raw;;
  categories <- read_categories;;
  let categories_by_id : gmap string string :=
    foldl (fun d c => <[c_id c := c_nome c]> d) ∅ categories in
  let processed := process categories_by_id <$> expenses_raw in
  (* the keys [int(item["id"])] are all computed before the sort *)
  if forallb (fun item => bool_decide (is_Some (int (p_id item)))) processed
  then ret (sorted Z.geb (fun item => default 0 (int (p_id item))) processed)
  else raise ValueError.

Definition index : M response :=
  expenses <- read_expenses;;
  category_records <- read_categories;;
  ret (RenderIndex expenses category_records).

Definition adicionar (f : form) : M response :=
  let data_str := strip (default "" (form_get f "data")) in
  let descricao := strip (default "" (form_get f "descricao")) in
  let valor_str := strip (default "" (form_get f "valor")) in
  let categoria_input := categoria_input f in
  let anotacao := strip (default "" (form_get f "anotacao")) in
  if negb (truthy data_str) || negb (truthy descricao)
     || negb (truthy valor_str) || negb (truthy categoria_input)
  then ret (Redirect "Preencha data, descrição, valor e categoria." "error" ep_index)
  else
    match strptime data_str with
    | None => ret (Redirect "Data inválida. Use o formato AAAA-MM-DD." "error" ep_index)
    | Some data_obj =>
        match float (replace "," "." valor_str) with
        | None => ret (Redirect "Valor inválido." "error" ep_index)
        | Some valor =>
            categoria_id <- resolve_category_id categoria_input;;
            if negb (truthy (default "" categoria_id))
            then ret (Redirect "Categoria informada não foi encontrada."
                               "error" ep_index)
            else
              write_expense (strftime data_obj) descricao valor
                            (default "" categoria_id) anotacao;;
              ret (Redirect "Lançamento registrado com sucesso!" "success"
                            ep_index)
        end
    end.

Inductive method : Type := GET | POST.

Definition categorias (m : method) (f : form) : M response :=
  match m with
  | POST =>
      let nome := default "" (form_get f "nome") in
      if negb (truthy (strip nome))
      then ret (Redirect "Informe um nome de categoria." "error" ep_categorias)
      else
        add_category nome;;
        ret (Redirect "Categoria criada!" "success" ep_categorias)
  | GET =>
      category_records <- read_categories;;
      ret (RenderCategorias category_records)
  end.

Definition renomear_categoria (category_id : string) (f : form) : M response :=
  let novo_nome := default "" (form_get f "nome") in
  ok <- update_category category_id novo_nome;;
  if ok
  then ret (Redirect "Categoria atualizada com sucesso!" "success" ep_categorias)
  else ret (Redirect "Não foi possível atualizar a categoria." "error" ep_categorias).

Definition excluir_categoria (category_id : string) : M response :=
  ok <- delete_category category_id;;
  if ok
  then ret (Redirect
              "Categoria removida. Lançamentos associados foram movidos para 'Outros'."
              "success" ep_categorias)
  else ret (Redirect "Não foi possível remover a categoria." "error" ep_categorias).

(** The totals of [admin] are floating-point sums over the expenses read;
    the route is modelled up to the expenses it reads. *)
Definition admin : M response :=
  expenses <- read_expenses;;
  ret (RenderAdmin expenses).

Definition editar_lancamento (expense_id : string) (f : form) : M response :=
  let data_str := strip (default "" (form_get f "data")) in
  let descricao := strip (default "" (form_get f "descricao")) in
  let valor_str := strip (default "" (form_get f "valor")) in
  let categoria_input := categoria_input f in
  let anotacao := strip (default "" (form_get f "anotacao")) in
  if negb (truthy data_str) || negb (truthy descricao)
     || negb (truthy valor_str) || negb (truthy categoria_input)
  then ret (Redirect "Preencha data, descrição, valor e categoria." "error" ep_index)
  else
    match strptime data_str with
    | None => ret (Redirect "Data inválida. Use o formato AAAA-MM-DD." "error" ep_index)
    | Some data_obj =>
        match float (replace "," "." valor_str) with
        | None => ret (Redirect "Valor inválido." "error" ep_index)
        | Some valor =>
            categoria_id <- resolve_category_id categoria_input;;
            if negb (truthy (default "" categoria_id))
            then ret (Redirect "Categoria informada não foi encontrada."
                               "error" ep_index)
            else
              ok <- update_expense expense_id (strftime data_obj) descricao
                                   valor (default "" categoria_id) anotacao;;
              if ok
              then ret (Redirect "Lançamento atualizado com sucesso!" "success"
                                 ep_index)
              else ret (Redirect "Não foi possível atualizar o lançamento."
                                 "error" ep_index)
        end
    end.

Definition excluir_lancamento (expense_id : string) : M response :=
  ok <- delete_expense expense_id;;
  if ok
  then ret (Redirect "Lançamento removido." "success" ep_index)
  else ret (Redirect "Não foi possível remover o lançamento." "error" ep_index).

(** The routes of the application. *)
Inductive request : Type :=
| ReqIndex
| ReqAdicionar (f : form)
| ReqCategorias (m : method) (f : form)
| ReqRenomearCategoria (category_id : string) (f : form)
| ReqExcluirCategoria (category_id : string)
| ReqAdmin
| ReqEditarLancamento (expense_id : string) (f : form)
| ReqExcluirLancamento (expense_id : string).

Definition handle (r : request) : M response :=
  match r with
  | ReqIndex => index
  | ReqAdicionar f => adicionar f
  | ReqCategorias m f => categorias m f
  | ReqRenomearCategoria i f => renomear_categoria i f
  | ReqExcluirCategoria i => excluir_categoria i
  | ReqAdmin => admin
  | ReqEditarLancamento i f => editar_lancamento i f
  | ReqExcluirLancamento i => excluir_lancamento i
  end.

(** The worlds the application reaches from an empty data directory. *)
Definition empty_dir : world := mkWorld None None [].

Inductive reachable : world -> Prop :=
| reachable_empty : reachable empty_dir
| reachable_step w r : reachable w -> reachable (handle r w).2.

End Amounts.

(** ** Well-formed stores

    The stores the application itself writes: both files exist, carry the
    current header, and hold one row per record. *)

Definition store_of (cats : list category) (exps : list expense)
    (log : list event) : world :=
  mkWorld (Some (categories_header :: (category_row <$> cats)))
          (Some (expenses_header :: (expense_row <$> exps)))
          log.

(** An id is the decimal writing of an integer. *)
Definition is_id (s : string) : Prop := ∃ n : Z, s = str n.

Definition wf_category (c : category) : Prop :=
  is_id (c_id c) ∧ strip (c_nome c) = c_nome c ∧ c_nome c ≠ "".

Definition wf_categories (cats : list category) : Prop :=
  Forall wf_category cats ∧ NoDup (c_id <$> cats).

Definition wf_expenses (exps : list expense) : Prop :=
  Forall (fun e => is_id (e_id e)) exps ∧ NoDup (e_id <$> exps).

Definition wf_store (w : world) : Prop :=
  ∃ cats exps,
    w = store_of cats exps (io_log w) ∧ wf_categories cats ∧ wf_expenses exps.

(** The names of the categories are pairwise different up to case. *)
Definition names_unique (cats : list category) : Prop :=
  NoDup ((fun c => lower (c_nome c)) <$> cats).

(** An expense as [load_expenses_raw] reads it back: every cell stripped. *)
Definition stripped_expense (e : expense) : expense :=
  mkExpense (strip (e_id e)) (strip (e_data e)) (strip (e_descricao e))
            (strip (e_valor e)) (strip (e_categoria_id e)) (strip (e_anotacao e)).

(** What one request can do to the categories of a well-formed store:
    nothing, append a category under a new id, rename one, or drop the
    ones with a given id. *)
Definition cats_step (cats cats' : list category) : Prop :=
  cats' = cats
  ∨ (∃ m nome,
       cats' = cats ++ [mkCategory (str (m + 1)) nome] ∧
       strip nome = nome ∧ nome ≠ "" ∧
       (lower nome ∉ (fun c => lower (c_nome c)) <$> cats) ∧
       ∀ c, c ∈ cats -> ∃ k, c_id c = str k ∧ k <= m)
  ∨ (∃ category_id nome,
       cats' = rename_first category_id nome cats ∧
       strip nome = nome ∧ nome ≠ "" ∧
       ∀ c, c ∈ cats -> c_id c ≠ category_id -> lower nome ≠ lower (c_nome c))
  ∨ (∃ category_id, cats' = filter (fun c => c_id c ≠ category_id) cats).

(** What one request can do to the expenses: nothing, append an expense
    under a new id, rewrite the rows keeping their ids, or drop rows. *)
Definition exps_step (exps exps' : list expense) : Prop :=
  exps' = exps
  ∨ (∃ m e,
       exps' = exps ++ [e] ∧ e_id e = str (m + 1) ∧
       ∀ e0, e0 ∈ exps -> ∃ k, e_id e0 = str k ∧ k <= m)
  ∨ e_id <$> exps' = e_id <$> exps
  ∨ (∃ expense_id,
       exps' = filter (fun e => e_id e ≠ expense_id) (stripped_expense <$> exps)).

(** The shape of what a request leaves behind. *)
Definition steps_to (cats : list category) (exps : list expense)
    (res : outcome response * world) : Prop :=
  ∃ resp cats' exps' log',
    res = (Ret resp, store_of cats' exps' log') ∧
    cats_step cats cats' ∧ exps_step exps exps'.

(** The store [ensure_storage] creates in an empty data directory. *)
Definition initial : world :=
  store_of [mkCategory "1" "Outros"] []
    [Wrote CATEGORIES_FILE [categories_header; ["1"; "Outros"]];
     Wrote EXPENSES_FILE [expenses_header]].

(** A computation that does nothing to the files before it calls
    [ensure_storage]: it behaves on a store as on the store that
    [ensure_storage] makes of it. *)
Definition storage_first {A} (m : M A) : Prop :=
  ∀ w w0,
    ensure_storage w = (Ret tt, w0) -> ensure_storage w0 = (Ret tt, w0) ->
    m w = m w0.

Definition pure_or_storage_first {A} (m : M A) : Prop :=
  (∃ a, ∀ w, m w = (Ret a, w)) ∨ storage_first m.

(** The records a file holds, as the loading loops read them, without the
    call of [ensure_storage] that precedes the loops. *)
Definition stored_categories (w : world) : list category :=
  match categories_of (DictReader (default [] (categories_csv w))) with
  | Ret cs => cs
  | Raise _ => []
  end.

Definition stored_expenses (w : world) : list expense :=
  match expenses_of (DictReader (default [] (expenses_csv w))) with
  | Ret es => es
  | Raise _ => []
  end.

(** The invariant of the application: a well-formed store whose category
    names differ pairwise up to case. *)
Definition inv (w : world) : Prop :=
  ∃ cats exps,
    w = store_of cats exps (io_log w) ∧
    wf_categories cats ∧ wf_expenses exps ∧ names_unique cats.


Definition inv_world (w : world) : Prop := w = empty_dir ∨ inv w.


(** The validation failures of the expense forms: a required field is
    missing, the date is malformed, the amount is not a number, or the
    category cannot be resolved. *)
Definition expense_form_invalid (f : form) (w : world) : Prop :=
  strip (default "" (form_get f "data")) = ""
  ∨ strip (default "" (form_get f "descricao")) = ""
  ∨ strip (default "" (form_get f "valor")) = ""
  ∨ categoria_input f = ""
  ∨ strptime (strip (default "" (form_get f "data"))) = None
  ∨ float (replace "," "." (strip (default "" (form_get f "valor")))) = None
  ∨ (resolve_category_id (categoria_input f) w).1 = Ret None.

(** The fields other than the category pass the validation. *)
Definition other_fields_valid (f : form) : Prop :=
  strip (default "" (form_get f "data")) ≠ ""
  ∧ strip (default "" (form_get f "descricao")) ≠ ""
  ∧ strip (default "" (form_get f "valor")) ≠ ""
  ∧ is_Some (strptime (strip (default "" (form_get f "data"))))
  ∧ is_Some (float (replace "," "." (strip (default "" (form_get f "valor"))))).

(** The log shows a write of the expenses file before a write of the
    categories file. *)
Definition expenses_written_before_categories (evs : list event) : Prop :=
  ∃ (i j : nat) ce cc,
    (i < j)%nat ∧
    evs !! i = Some (Wrote EXPENSES_FILE ce) ∧
    evs !! j = Some (Wrote CATEGORIES_FILE cc).

(** [delete_category] rewrites the expenses before it removes the
    category: the order the specification states. *)
Definition reassigns_before_removal (category_id : string) (w : world) : Prop :=
  expenses_written_before_categories
    (drop (length (io_log w)) (io_log (delete_category category_id w).2)).

(** ** Examples *)

(** A rendering of amounts to run the model on examples: exact on the
    decimals with two fraction digits, which the examples use. *)
Definition example_format_2f (v : pyfloat) : string :=
  match v with
  | FDec neg mant (-2) =>
      (if neg then "-" else "") +:+ str (Z.of_N (mant / 100)) +:+ "."
      +:+ pad 2 (mant mod 100)
  | FDec neg mant 0 =>
      (if neg then "-" else "") +:+ str (Z.of_N mant) +:+ ".00"
  | FDec _ _ _ => "0.00"
  | FInf neg => if neg then "-inf" else "inf"
  | FNan => "nan"
  end.

(** Three categories and three expenses; the last expense names a
    category that is not stored. *)
Definition sample_orphan : expense :=
  mkExpense "3" "2024-01-07" "taxi" "12.00" "9" "sem categoria".

Definition sample_store : world :=
  store_of
    [mkCategory "1" "Outros"; mkCategory "2" "Mercado"; mkCategory "3" "Casa"]
    [mkExpense "1" "2024-01-05" "pao" "3.50" "2" "";
     mkExpense "2" "2024-01-06" "luz" "30.50" "3" "";
     sample_orphan]
    [].


Definition form_unknown_category : list (string * string) :=
  [("data", "2024-01-05"); ("descricao", "cinema"); ("valor", "20");
   ("categoria", "Lazer")].


(** A data directory with a categories file in the legacy format, one
    name per row under a header that is not [id]; "Outros" is not the
    first name. *)
Definition legacy_world : world :=
  mkWorld (Some [["nome"]; ["Mercado"]; ["Outros"]]) None [].

(** The world after a sequence of requests. *)
Definition run (format_2f : pyfloat -> string) (rs : list request) (w : world)
    : world :=
  foldl (fun w r => (handle format_2f r w).2) w rs.

(** The world after two requests on an empty data directory: a category
    is created, then an expense in it. *)
Definition sample_reached : world :=
  run example_format_2f
    [ReqCategorias POST [("nome", " Mercado ")];
     ReqAdicionar [("data", "2024-01-05"); ("descricao", "pao");
                   ("valor", "3,50"); ("categoria", "mercado")]]
    empty_dir.

(** ** Further properties of the code: definitions *)

(** The first non-blank row of the file carries the current header: what
    [upgrade_categories_file] and [upgrade_expenses_file] test before they
    leave a file alone. *)
Definition file_current (c : option csv) : bool :=
  match c with
  | Some rows =>
      match filter (fun r => nonblank r = true) rows with
      | first :: _ => header_is_current (strip <$> first)
      | [] => false
      end
  | None => false
  end.

Definition current_schema (w : world) : bool :=
  file_current (categories_csv w) && file_current (expenses_csv w).

(** What [load_categories_raw] reads back of a list it saved: the fields
    stripped, the categories without an id or a name left out. *)
Definition normalized_categories (cs : list category) : list category :=
  omap (fun c =>
          if truthy (strip (c_id c)) && truthy (strip (c_nome c))
          then Some (mkCategory (strip (c_id c)) (strip (c_nome c)))
          else None) cs.

(** What [load_expenses_raw] reads back of a list it saved. *)
Definition normalized_expenses (es : list expense) : list expense :=
  omap (fun e =>
          if truthy (strip (e_id e)) then Some (stripped_expense e) else None)
       es.

(** A data directory with both files in the legacy format; the fourth
    expense row is too short to be kept. *)
Definition legacy_both : world :=
  mkWorld
    (Some [["nome"]; ["Mercado"]; ["Outros"]])
    (Some [["data"; "descricao"; "valor"; "categoria"; "anotacao"];
           ["2023-05-01"; " pao "; "3,50"; "Mercado"; ""];
           ["2023-05-02"; "onibus"; "4.40"; "Transporte"; "ida"];
           ["curta"];
           ["2023-05-03"; "cafe"; "2"; ""; ""]])
    [].

(** A categories file in the current schema whose id is not an integer,
    beside a legacy expenses file. *)
Definition legacy_bad_ids : world :=
  mkWorld
    (Some [["id"; "nome"]; ["um"; "Outros"]])
    (Some [["data"; "descricao"; "valor"; "categoria"; "anotacao"];
           ["2023-05-01"; "pao"; "3,50"; "Mercado"; ""]])
    [].

(** Every stored expense names a stored category, and the default
    category is stored. *)
Definition references_resolve (w : world) : Prop :=
  wf_store w ∧
  "1" ∈ c_id <$> stored_categories w ∧
  ∀ e, e ∈ stored_expenses w ->
       e_categoria_id e ∈ c_id <$> stored_categories w.

Definition linked_world (w : world) : Prop :=
  w = empty_dir ∨ references_resolve w.

(** The same on the records of the two files, and the outcome of a
    request that keeps it. *)
Definition refs_ok (cats : list category) (exps : list expense) : Prop :=
  "1" ∈ c_id <$> cats ∧
  ∀ e, e ∈ exps -> strip (e_categoria_id e) ∈ c_id <$> cats.

Definition keeps_refs (res : outcome response * world) : Prop :=
  ∃ resp cats' exps' log',
    res = (Ret resp, store_of cats' exps' log') ∧ refs_ok cats' exps'.

(** A store edited by hand: the second category row has no name cell, the
    second expense row stops after the description. *)
Definition short_rows_store : world :=
  mkWorld
    (Some [categories_header; ["1"; "Outros"]; ["2"]])
    (Some [expenses_header;
           ["1"; "2024-01-05"; "pao"; "3.50"; "1"; ""];
           ["2"; "2024-01-06"; "luz"]])
    [].

(** A store with an expense whose id is not an integer. *)
Definition bad_id_expense : expense :=
  mkExpense "x7" "2024-01-06" "luz" "30.50" "1" "".

Definition bad_id_store : world :=
  store_of [mkCategory "1" "Outros"]
           [mkExpense "1" "2024-01-05" "pao" "3.50" "1" ""; bad_id_expense] [].

(** What the main loop of [upgrade_expenses_file] keeps true of its state,
    for the categories [cats] read before it, whose ids do not exceed
    [m0]: [name_to_id] holds non-empty ids, those of [cats] or of
    [new_categories], and knows every name of [cats]; the new categories
    are in [name_to_id], their ids are integers between [m0] and
    [next_category_id], pairwise different, and their names are stripped,
    non-empty and not names of [cats]. *)
Definition upgrade_inv (cats : list category) (m0 : Z) (st : upgrade_state)
    : Prop :=
  (∀ n i, u_name_to_id st !! n = Some i ->
          i ≠ "" ∧ (mkCategory i n ∈ cats ∨ (i, n) ∈ u_new_categories st)) ∧
  (∀ c, c ∈ cats -> is_Some (u_name_to_id st !! c_nome c)) ∧
  (∀ i n, (i, n) ∈ u_new_categories st ->
          u_name_to_id st !! n = Some i ∧
          (∃ k, i = str k ∧ m0 < k < u_next_category_id st) ∧
          (n ∉ c_nome <$> cats) ∧ strip n = n ∧ n ≠ "") ∧
  NoDup ((u_new_categories st).*1) ∧
  m0 < u_next_category_id st.

(** A data directory with the categories in the current schema and the
    expenses in the legacy one. *)
Definition legacy_expenses : world :=
  mkWorld
    (Some [categories_header; ["1"; "Outros"]; ["2"; "Mercado"]])
    (Some [["data"; "descricao"; "valor"; "categoria"; "anotacao"];
           ["2023-05-01"; " pao "; "3,50"; "Mercado"; ""];
           ["2023-05-02"; "onibus"; "4.40"; "Transporte"; "ida"];
           ["curta"];
           ["2023-05-03"; "cafe"; "2"; ""; ""]])
    [].

(** A form that passes the validation on [sample_store]. *)
Definition form_valid : list (string * string) :=
  [("data", " 2024-01-08 "); ("descricao", "feira"); ("valor", "12,30");
   ("categoria", "mercado"); ("anotacao", " semanal ")].




(** Two forms for the same expense, the amount written with a comma and
    with a dot. *)
Definition form_comma : list (string * string) :=
  [("data", "2024-01-08"); ("descricao", "feira"); ("valor", " 3,50 ");
   ("categoria", "mercado")].

Definition form_dot : list (string * string) :=
  [("data", "2024-01-08"); ("descricao", "feira"); ("valor", "3.50");
   ("categoria_id", "2")].

(** A data directory in the legacy format whose expenses name the
    category "mercado", while the categories file lists "Mercado". *)
Definition legacy_case : world :=
  mkWorld
    (Some [["nome"]; ["Outros"]; ["Mercado"]])
    (Some [["data"; "descricao"; "valor"; "categoria"; "anotacao"];
           ["2023-05-01"; "pao"; "3,50"; "mercado"; ""]])
    [].

(** Every cell of the file has at most [n] characters. *)
Definition cells_within (n : nat) (c : option csv) : Prop :=
  match c with
  | Some rows =>
      Forall (Forall (fun cell => (String.length cell <= n)%nat)) rows
  | None => True
  end.

(** An expenses file with rows that [get_next_id] passes over: an id that
    is not an integer, a row of one cell, an empty row. *)
Definition garbage_ids : world :=
  mkWorld None
    (Some [["id"; "data"]; ["7"; "a"]; ["x"; "b"]; [" 12 "]; [];
           ["-3"; "c"; "d"]])
    [].

(** * Properties *)

(** A decidable proposition about concrete data is settled by evaluating
    its decision procedure. *)
Ltac by_evaluation := apply (bool_decide_unpack _); by vm_compute.

(** ** Strings and numbers *)

Section StringFacts.

Lemma lstrip_head c s :
  isspace c = false -> lstrip (String c s) = String c s.
Proof. intros H. simpl. by rewrite H. Qed.

Lemma lstrip_cases s :
  lstrip s = EmptyString ∨
  ∃ c r, lstrip s = String c r ∧ isspace c = false.
Proof.
  induction s as [|c s IH]; simpl; [by left|].
  destruct (isspace c) eqn:E; [done|]. right. eauto.
Qed.

Lemma rstrip_head c s :
  isspace c = false -> ∃ r, rstrip (String c s) = String c r.
Proof.
  intros H. simpl. destruct (rstrip s); rewrite ?H; eauto.
Qed.

Lemma rstrip_idemp s : rstrip (rstrip s) = rstrip s.
Proof.
  induction s as [|c s IH]; simpl; [done|].
  destruct (rstrip s) as [|c' r] eqn:E.
  - destruct (isspace c) eqn:Ec; simpl; [done|]. by rewrite Ec.
  - simpl in *. by rewrite IH.
Qed.

Lemma strip_idemp s : strip (strip s) = strip s.
Proof.
  unfold strip. destruct (lstrip_cases s) as [->|(c & r & -> & Hc)]; [done|].
  destruct (rstrip_head c r Hc) as [r' Hr]. rewrite Hr.
  rewrite lstrip_head by done. rewrite <- Hr. apply rstrip_idemp.
Qed.

Lemma rstrip_nospace s :
  all_chars (fun c => negb (isspace c)) s = true -> rstrip s = s.
Proof.
  induction s as [|c s IH]; simpl; [done|].
  intros [Hc Hs]%andb_true_iff. rewrite IH by done.
  apply negb_true_iff in Hc. rewrite Hc. by destruct s.
Qed.

Lemma strip_nospace s :
  all_chars (fun c => negb (isspace c)) s = true -> strip s = s.
Proof.
  intros H. unfold strip.
  assert (lstrip s = s) as ->; [|by apply rstrip_nospace].
  destruct s as [|c s]; simpl in *; [done|].
  apply andb_true_iff in H as [Hc _]. apply negb_true_iff in Hc. by rewrite Hc.
Qed.

Lemma truthy_true s : truthy s = true <-> s ≠ EmptyString.
Proof. by destruct s. Qed.

Lemma truthy_false s : truthy s = false <-> s = EmptyString.
Proof. by destruct s. Qed.


Lemma all_chars_impl (p q : ascii -> bool) s :
  (∀ c, p c = true -> q c = true) ->
  all_chars p s = true -> all_chars q s = true.
Proof.
  intros Hpq. induction s as [|c s IH]; simpl; [done|].
  intros [? ?]%andb_true_iff. apply andb_true_iff. auto.
Qed.

Lemma isdigit_nospace c : isdigit c = true -> negb (isspace c) = true.
Proof.
  unfold isdigit, isspace. intros H. apply negb_true_iff.
  destruct (N_of_ascii c) as [|n] eqn:E; [done|].
  apply andb_true_iff in H as [H1 H2].
  apply N.leb_le in H1, H2.
  apply orb_false_iff. split; apply andb_false_iff; right + left;
    apply N.leb_gt; lia.
Qed.

End StringFacts.

(** [str] and [int] *)

Section NumberFacts.

Lemma string_of_uint_digits d :
  all_chars isdigit (NilEmpty.string_of_uint d) = true.
Proof. induction d; simpl; auto. Qed.

Lemma digits_after_digits s :
  all_chars isdigit s = true -> digits_after s = Some s.
Proof.
  induction s as [|c s IH]; simpl; [done|].
  intros [Hc Hs]%andb_true_iff.
  destruct (Ascii.eqb_spec c "_") as [->|_]; [done|].
  rewrite Hc, IH by done. done.
Qed.

Lemma digitpart_digits s :
  s ≠ EmptyString -> all_chars isdigit s = true -> digitpart s = Some s.
Proof.
  destruct s as [|c s]; [done|]. intros _ [Hc Hs]%andb_true_iff.
  simpl. rewrite Hc, digits_after_digits by done. done.
Qed.

Lemma string_of_uint_nonempty d :
  d ≠ Decimal.Nil -> NilEmpty.string_of_uint d ≠ EmptyString.
Proof. by destruct d. Qed.

Lemma nat_of_digits_uint d :
  d ≠ Decimal.Nil ->
  nat_of_digits (NilEmpty.string_of_uint d) = Some (N.of_uint d).
Proof.
  intros Hd. unfold nat_of_digits.
  pose proof (NilZero.usu d Hd) as H. unfold NilZero.string_of_uint in H.
  destruct d; try done; by rewrite H.
Qed.

Lemma split_sign_digit c s :
  isdigit c = true -> split_sign (String c s) = (false, String c s).
Proof.
  intros H. unfold split_sign.
  destruct (Ascii.eqb_spec c "-") as [->|_]; [done|].
  by destruct (Ascii.eqb_spec c "+") as [->|_].
Qed.

(** The decimal digits of a positive number read back as that number. *)
Lemma int_digits_of_pos p :
  let s := NilEmpty.string_of_uint (Pos.to_uint p) in
  s ≠ EmptyString ∧ all_chars isdigit s = true ∧
  digitpart s = Some s ∧ nat_of_digits s = Some (Npos p).
Proof.
  intros s. subst s.
  pose proof (DecimalPos.Unsigned.to_uint_nonnil p) as Hnn.
  split_and!.
  - by apply string_of_uint_nonempty.
  - apply string_of_uint_digits.
  - apply digitpart_digits;
      [by apply string_of_uint_nonempty|apply string_of_uint_digits].
  - rewrite nat_of_digits_uint by done.
    f_equal. apply DecimalPos.Unsigned.of_to.
Qed.

Lemma str_pos p : str (Zpos p) = NilEmpty.string_of_uint (Pos.to_uint p).
Proof.
  unfold str. simpl. unfold NilZero.string_of_uint.
  pose proof (DecimalPos.Unsigned.to_uint_nonnil p).
  by destruct (Pos.to_uint p).
Qed.

Lemma str_neg p :
  str (Zneg p) = String "-" (NilEmpty.string_of_uint (Pos.to_uint p)).
Proof.
  unfold str. simpl. unfold NilZero.string_of_uint.
  pose proof (DecimalPos.Unsigned.to_uint_nonnil p).
  by destruct (Pos.to_uint p).
Qed.

Lemma str_nospace n :
  all_chars (fun c => negb (isspace c)) (str n) = true.
Proof.
  destruct n as [|p|p]; [done| |].
  - rewrite str_pos. eapply all_chars_impl; [apply isdigit_nospace|].
    apply string_of_uint_digits.
  - rewrite str_neg. simpl.
    eapply all_chars_impl; [apply isdigit_nospace|].
    apply string_of_uint_digits.
Qed.

Lemma strip_str n : strip (str n) = str n.
Proof. apply strip_nospace, str_nospace. Qed.

Lemma isspace_c_isspace c : isspace_c c = true -> isspace c = true.
Proof.
  unfold isspace_c, isspace. intros [H|H%N.eqb_eq]%orb_true_iff.
  - by rewrite H.
  - rewrite H. apply orb_true_r.
Qed.

Lemma skip_right_nospace s :
  all_chars (fun c => negb (isspace c)) s = true -> skip_right s = s.
Proof.
  induction s as [|c s IH]; simpl; [done|].
  intros [Hc Hs]%andb_true_iff. rewrite IH by done.
  apply negb_true_iff in Hc.
  assert (isspace_c c = false) as ->.
  { apply not_true_iff_false. intros H%isspace_c_isspace. congruence. }
  by destruct s.
Qed.

Lemma skip_spaces_nospace s :
  all_chars (fun c => negb (isspace c)) s = true -> skip_spaces s = s.
Proof.
  intros H. unfold skip_spaces.
  assert (skip_left s = s) as ->; [|by apply skip_right_nospace].
  destruct s as [|c s]; simpl in *; [done|].
  apply andb_true_iff in H as [Hc _]. apply negb_true_iff in Hc.
  assert (isspace_c c = false) as ->; [|done].
  apply not_true_iff_false. intros H%isspace_c_isspace. congruence.
Qed.

Lemma str_nonempty n : str n ≠ EmptyString.
Proof.
  destruct n as [|p|p]; [done| |].
  - rewrite str_pos. apply (int_digits_of_pos p).
  - by rewrite str_neg.
Qed.

(** [int(str(n)) == n] *)
Lemma int_str n : int (str n) = Some n.
Proof.
  unfold int. rewrite skip_spaces_nospace by apply str_nospace.
  destruct n as [|p|p]; [done| |].
  - rewrite str_pos.
    destruct (int_digits_of_pos p) as (Hne & Hd & Hp & Hn).
    destruct (NilEmpty.string_of_uint (Pos.to_uint p)) as [|c s] eqn:E; [done|].
    apply andb_true_iff in Hd as Hd'. destruct Hd' as [Hc _].
    rewrite split_sign_digit by done.
    rewrite Hp. simpl. rewrite Hn. done.
  - rewrite str_neg.
    destruct (int_digits_of_pos p) as (Hne & Hd & Hp & Hn).
    simpl. rewrite Hp. simpl. rewrite Hn. done.
Qed.

Lemma str_inj n m : str n = str m -> n = m.
Proof.
  intros H. apply (f_equal int) in H. rewrite !int_str in H. congruence.
Qed.

End NumberFacts.


(** ** Reading and writing a well-formed store *)

Section StoreFacts.

Lemma get_category_id c dflt :
  get (dict_row categories_header (category_row c)) "id" dflt = Some (c_id c).
Proof. by vm_compute. Qed.

Lemma get_category_nome c dflt :
  get (dict_row categories_header (category_row c)) "nome" dflt = Some (c_nome c).
Proof. by vm_compute. Qed.

Lemma get_expense_id e dflt :
  get (dict_row expenses_header (expense_row e)) "id" dflt = Some (e_id e).
Proof. by vm_compute. Qed.

Lemma get_expense_data e dflt :
  get (dict_row expenses_header (expense_row e)) "data" dflt = Some (e_data e).
Proof. by vm_compute. Qed.

Lemma get_expense_descricao e dflt :
  get (dict_row expenses_header (expense_row e)) "descricao" dflt
  = Some (e_descricao e).
Proof. by vm_compute. Qed.

Lemma get_expense_valor e dflt :
  get (dict_row expenses_header (expense_row e)) "valor" dflt = Some (e_valor e).
Proof. by vm_compute. Qed.

Lemma get_expense_categoria_id e dflt :
  get (dict_row expenses_header (expense_row e)) "categoria_id" dflt
  = Some (e_categoria_id e).
Proof. by vm_compute. Qed.

Lemma get_expense_anotacao e dflt :
  get (dict_row expenses_header (expense_row e)) "anotacao" dflt
  = Some (e_anotacao e).
Proof. by vm_compute. Qed.

Lemma filter_nonempty_rows {A} (f : A -> row) (l : list A) :
  (∀ x, f x ≠ []) -> filter (fun r : row => r ≠ []) (f <$> l) = f <$> l.
Proof.
  intros Hf. induction l as [|x l IH]; [done|].
  rewrite fmap_cons, filter_cons_True by apply Hf. by rewrite IH.
Qed.

Lemma DictReader_categories cats :
  DictReader (categories_header :: (category_row <$> cats))
  = (fun c => dict_row categories_header (category_row c)) <$> cats.
Proof.
  unfold DictReader. rewrite filter_nonempty_rows by done.
  by rewrite <- list_fmap_compose.
Qed.

Lemma DictReader_expenses exps :
  DictReader (expenses_header :: (expense_row <$> exps))
  = (fun e => dict_row expenses_header (expense_row e)) <$> exps.
Proof.
  unfold DictReader. rewrite filter_nonempty_rows by done.
  by rewrite <- list_fmap_compose.
Qed.

Lemma upgrade_categories_current h rows w :
  categories_csv w = Some (h :: rows) ->
  nonblank h = true -> header_is_current (strip <$> h) = true ->
  upgrade_categories_file w = (Ret tt, w).
Proof.
  intros Hc Hh Hcur. unfold upgrade_categories_file, bind, read_rows. simpl.
  rewrite Hc. rewrite filter_cons_True by done. by rewrite Hcur.
Qed.

Lemma upgrade_expenses_current h rows w :
  expenses_csv w = Some (h :: rows) ->
  nonblank h = true -> header_is_current (strip <$> h) = true ->
  upgrade_expenses_file w = (Ret tt, w).
Proof.
  intros Hc Hh Hcur. unfold upgrade_expenses_file, bind, read_rows. simpl.
  rewrite Hc. rewrite filter_cons_True by done. by rewrite Hcur.
Qed.

(** On a store in the current schema [ensure_storage] does nothing. *)
Lemma ensure_storage_store_of cats exps log :
  ensure_storage (store_of cats exps log) = (Ret tt, store_of cats exps log).
Proof.
  unfold ensure_storage, bind, exists_.
  cbn [content store_of categories_csv expenses_csv].
  rewrite bool_decide_eq_true_2 by eauto. cbn [negb].
  erewrite upgrade_categories_current; [|done..].
  rewrite bool_decide_eq_true_2 by eauto. cbn [negb].
  erewrite upgrade_expenses_current; done.
Qed.

Lemma categories_of_wf cats :
  Forall wf_category cats ->
  categories_of ((fun c => dict_row categories_header (category_row c)) <$> cats)
  = Ret cats.
Proof.
  induction 1 as [|c cats (Hid & Hn & Hne) _ IH]; [done|].
  rewrite fmap_cons. simpl.
  rewrite get_category_id, get_category_nome. simpl.
  rewrite IH. simpl. destruct Hid as [n Hid].
  rewrite Hid, strip_str, Hn.
  rewrite (proj2 (truthy_true (str n))) by apply str_nonempty.
  rewrite (proj2 (truthy_true (c_nome c))) by done. simpl.
  destruct c; simpl in *; by subst.
Qed.

Lemma load_categories_raw_store_of cats exps log :
  Forall wf_category cats ->
  load_categories_raw (store_of cats exps log)
  = (Ret cats, store_of cats exps log).
Proof.
  intros Hwf. unfold load_categories_raw, bind.
  rewrite ensure_storage_store_of. unfold read_rows, lift.
  cbn [content store_of categories_csv].
  by rewrite DictReader_categories, categories_of_wf.
Qed.

Lemma save_categories_store_of cs cats exps log :
  save_categories cs (store_of cats exps log)
  = (Ret tt,
     store_of cs exps
       (log ++ [Wrote CATEGORIES_FILE
                  (categories_header :: (category_row <$> cs))])).
Proof.
  unfold save_categories, bind. by rewrite ensure_storage_store_of.
Qed.

Lemma expenses_of_wf exps :
  Forall (fun e => is_id (e_id e)) exps ->
  expenses_of ((fun e => dict_row expenses_header (expense_row e)) <$> exps)
  = Ret (stripped_expense <$> exps).
Proof.
  induction 1 as [|e exps [n Hid] _ IH]; [done|].
  rewrite !fmap_cons. cbn [expenses_of].
  rewrite get_expense_id. cbn [strip_of obind].
  rewrite Hid, strip_str.
  rewrite (proj2 (truthy_true (str n))) by apply str_nonempty. cbn [negb].
  rewrite get_expense_data, get_expense_descricao, get_expense_valor,
    get_expense_categoria_id, get_expense_anotacao. cbn [strip_of obind default].
  rewrite IH. cbn [obind]. unfold stripped_expense. by rewrite Hid, strip_str.
Qed.

Lemma load_expenses_raw_store_of cats exps log :
  Forall (fun e => is_id (e_id e)) exps ->
  load_expenses_raw (store_of cats exps log)
  = (Ret (stripped_expense <$> exps), store_of cats exps log).
Proof.
  intros Hwf. unfold load_expenses_raw, bind.
  rewrite ensure_storage_store_of. unfold read_rows, lift.
  cbn [content store_of expenses_csv].
  by rewrite DictReader_expenses, expenses_of_wf.
Qed.

Lemma save_expenses_store_of es cats exps log :
  save_expenses es (store_of cats exps log)
  = (Ret tt,
     store_of cats es
       (log ++ [Wrote EXPENSES_FILE
                  (expenses_header :: (expense_row <$> es))])).
Proof.
  unfold save_expenses, bind. by rewrite ensure_storage_store_of.
Qed.
End StoreFacts.

(** ** Sorting, maxima and the next id *)

Section ListFacts.

Lemma insert_by_perm {A K} (le : K -> K -> bool) (key : A -> K) x l :
  insert_by le key x l ≡ₚ x :: l.
Proof.
  induction l as [|y l IH]; simpl; [done|].
  destruct (le (key x) (key y)); [done|].
  rewrite IH. apply Permutation_swap.
Qed.

Lemma sorted_perm {A K} (le : K -> K -> bool) (key : A -> K) l :
  sorted le key l ≡ₚ l.
Proof.
  induction l as [|x l IH]; simpl; [done|].
  unfold sorted in *. simpl. rewrite insert_by_perm. by rewrite IH.
Qed.

Lemma elem_of_sorted {A K} (le : K -> K -> bool) (key : A -> K) l x :
  x ∈ sorted le key l <-> x ∈ l.
Proof. by rewrite sorted_perm. Qed.

Lemma max_id_of_bound ids :
  Forall is_id ids ->
  ∃ om, max_id_of ids = Ret om ∧
        ∀ i, i ∈ ids -> ∃ k j, i = str k ∧ om = Some j ∧ k <= j.
Proof.
  induction 1 as [|i ids [n ->] _ (om & Hom & IH)].
  - exists None. split; [done|]. intros i Hi. by apply elem_of_nil in Hi.
  - simpl. rewrite int_str, Hom. simpl.
    eexists. split; [done|].
    intros i' [->|Hi]%elem_of_cons.
    + exists n. eexists. split_and!; [done..|]. destruct om; lia.
    + destruct (IH i' Hi) as (k & j & -> & -> & Hkj).
      exists k. eexists. split_and!; [done..|]. lia.
Qed.

(** The maximum that [add_category] computes bounds every id read. *)
Lemma max_default0_bound ids :
  Forall is_id ids ->
  ∃ m, max_default0 ids = Ret m ∧ ∀ i, i ∈ ids -> ∃ k, i = str k ∧ k <= m.
Proof.
  intros H. destruct (max_id_of_bound ids H) as (om & Hom & Hb).
  unfold max_default0. rewrite Hom. simpl. eexists. split; [done|].
  intros i Hi. destruct (Hb i Hi) as (k & j & -> & -> & Hkj). eauto.
Qed.

Lemma next_id_loop_bound exps acc :
  Forall (fun e => is_id (e_id e)) exps ->
  let r :=
    foldl (next_id_step "id") acc
          ((fun e => dict_row expenses_header (expense_row e)) <$> exps) in
  acc <= r ∧ ∀ e, e ∈ exps -> ∃ k, e_id e = str k ∧ k <= r.
Proof.
  intros H. revert acc.
  induction H as [|e exps [n Hn] _ IH]; intros acc.
  - split; [simpl; lia|]. intros e He. by apply elem_of_nil in He.
  - rewrite fmap_cons. cbn [foldl]. cbv zeta.
    unfold next_id_step at 2 4. rewrite get_expense_id, Hn, int_str.
    match goal with |- context [foldl ?f ?a ?l] =>
      destruct (IH a) as [Hacc Hin] end.
    revert Hacc Hin. destruct (Z.gtb_spec n acc); intros Hacc Hin.
    + split; [lia|].
      intros e' [->|He]%elem_of_cons; [|by apply Hin]. eauto.
    + split; [lia|].
      intros e' [->|He]%elem_of_cons; [|by apply Hin].
      exists n. split; [done|lia].
Qed.

End ListFacts.

(** ** The storage functions on a well-formed store *)

Section Operations.

Implicit Types (cats : list category) (exps : list expense) (log : list event).

Lemma read_categories_store_of cats exps log :
  Forall wf_category cats ->
  read_categories (store_of cats exps log)
  = (Ret (sorted String.leb (fun c => lower (c_nome c)) cats),
     store_of cats exps log).
Proof.
  intros H. unfold read_categories, bind.
  by rewrite load_categories_raw_store_of.
Qed.

Lemma append_category_store_of c cats exps log :
  append_rows CATEGORIES_FILE [category_row c] (store_of cats exps log)
  = (Ret tt,
     store_of (cats ++ [c]) exps
       (log ++ [Wrote CATEGORIES_FILE
                  (categories_header :: (category_row <$> cats ++ [c]))])).
Proof.
  unfold append_rows, store_of, store. cbn [content categories_csv default].
  cbn [expenses_csv io_log]. by rewrite fmap_app.
Qed.

Lemma append_expense_store_of e cats exps log :
  append_rows EXPENSES_FILE [expense_row e] (store_of cats exps log)
  = (Ret tt,
     store_of cats (exps ++ [e])
       (log ++ [Wrote EXPENSES_FILE
                  (expenses_header :: (expense_row <$> exps ++ [e]))])).
Proof.
  unfold append_rows, store_of, store. cbn [content expenses_csv default].
  cbn [categories_csv io_log]. by rewrite fmap_app.
Qed.

Lemma add_category_blank nome w :
  strip nome = "" -> add_category nome w = (Ret tt, w).
Proof. intros H. unfold add_category. by rewrite H. Qed.

Lemma elem_of_existing nome cats :
  nome ∈ (list_to_set ((fun c => lower (c_nome c)) <$>
            sorted String.leb (fun c => lower (c_nome c)) cats) : gset string)
  <-> nome ∈ (fun c => lower (c_nome c)) <$> cats.
Proof. by rewrite elem_of_list_to_set, sorted_perm. Qed.

Lemma add_category_collision nome cats exps log :
  Forall wf_category cats ->
  lower (strip nome) ∈ (fun c => lower (c_nome c)) <$> cats ->
  add_category nome (store_of cats exps log) = (Ret tt, store_of cats exps log).
Proof.
  intros Hwf Hin. unfold add_category.
  destruct (truthy (strip nome)); cbn [negb]; [|done].
  unfold bind. rewrite read_categories_store_of by done.
  rewrite bool_decide_eq_true_2; [done|]. by apply elem_of_existing.
Qed.

Lemma add_category_new nome cats exps log :
  Forall wf_category cats ->
  strip nome ≠ "" ->
  lower (strip nome) ∉ (fun c => lower (c_nome c)) <$> cats ->
  ∃ m, (∀ c, c ∈ cats -> ∃ k, c_id c = str k ∧ k <= m) ∧
       add_category nome (store_of cats exps log)
       = (Ret tt,
          store_of (cats ++ [mkCategory (str (m + 1)) (strip nome)]) exps
            (log ++ [Wrote CATEGORIES_FILE
                       (categories_header ::
                          (category_row <$>
                             cats ++ [mkCategory (str (m + 1)) (strip nome)]))])).
Proof.
  intros Hwf Hne Hnin.
  set (scats := sorted String.leb (fun c => lower (c_nome c)) cats).
  assert (Forall is_id (c_id <$> scats)) as Hids.
  { apply Forall_fmap. unfold scats. rewrite sorted_perm.
    eapply Forall_impl; [done|]. by intros c (? & _). }
  destruct (max_default0_bound _ Hids) as (m & Hm & Hb).
  exists m. split.
  - intros c Hc. apply Hb. apply list_elem_of_fmap. exists c. split; [done|].
    by apply elem_of_sorted.
  - unfold add_category.
    rewrite (proj2 (truthy_true _)) by done. cbn [negb].
    unfold bind. rewrite read_categories_store_of by done.
    rewrite bool_decide_eq_false_2 by (by rewrite elem_of_existing).
    fold scats. unfold lift. rewrite Hm.
    apply (append_category_store_of (mkCategory (str (m + 1)) (strip nome))).
Qed.

(** [resolve_category_id] only reads. *)
Lemma resolve_category_id_store_of identifier cats exps log :
  Forall wf_category cats ->
  ∃ r, resolve_category_id identifier (store_of cats exps log)
       = (Ret r, store_of cats exps log) ∧
       (r = None <->
        strip identifier = "" ∨
        ∀ c, c ∈ cats ->
             strip identifier ≠ c_id c ∧
             lower (strip identifier) ≠ lower (c_nome c)).
Proof.
  intros Hwf. unfold resolve_category_id.
  destruct (strip identifier) as [|a s] eqn:E; cbn [truthy negb].
  { exists None. split; [done|]. split; auto. }
  unfold bind. rewrite read_categories_store_of by done. unfold ret.
  eexists. split; [done|].
  rewrite fmap_None. split.
  - intros Hnone. right. intros c Hc.
    eapply find_none in Hnone; [|apply list_elem_of_In, elem_of_sorted, Hc].
    apply orb_false_iff in Hnone as [H1 H2].
    apply String.eqb_neq in H1, H2. done.
  - intros [?|Hall]; [done|].
    destruct (find _ _) as [c|] eqn:Hf; [|done].
    apply find_some in Hf as [Hin Hc].
    apply list_elem_of_In, elem_of_sorted in Hin.
    destruct (Hall c Hin) as [H1 H2].
    apply orb_true_iff in Hc as [Hc|Hc]; apply String.eqb_eq in Hc; done.
Qed.

Lemma update_category_blank category_id novo_nome w :
  strip novo_nome = "" ->
  update_category category_id novo_nome w = (Ret false, w).
Proof. intros H. unfold update_category. by rewrite H. Qed.

Lemma find_id_is_Some category_id cats :
  is_Some (find (fun c => String.eqb (c_id c) category_id) cats)
  <-> category_id ∈ c_id <$> cats.
Proof.
  induction cats as [|c cats IH]; cbn [find].
  - split; [by intros [? ?]|]. intros H. by apply elem_of_nil in H.
  - rewrite fmap_cons, elem_of_cons.
    destruct (String.eqb_spec (c_id c) category_id) as [->|Hne].
    + split; eauto.
    + rewrite IH. split; [auto|]. intros [?|?]; [congruence|done].
Qed.

Lemma update_category_collision category_id novo_nome cats exps log :
  Forall wf_category cats ->
  (∃ c, c ∈ cats ∧ c_id c ≠ category_id ∧
        lower (strip novo_nome) = lower (c_nome c)) ->
  update_category category_id novo_nome (store_of cats exps log)
  = (Ret false, store_of cats exps log).
Proof.
  intros Hwf (c & Hc & Hid & Hnome). unfold update_category.
  destruct (truthy (strip novo_nome)); cbn [negb]; [|done].
  unfold bind. rewrite load_categories_raw_store_of by done.
  destruct (find _ cats); [|done].
  assert (existsb (fun c => String.eqb (lower (strip novo_nome)) (lower (c_nome c))
                            && negb (String.eqb (c_id c) category_id)) cats
          = true) as ->; [|done].
  apply existsb_exists. exists c. split; [by apply list_elem_of_In|].
  rewrite Hnome, String.eqb_refl. cbn [andb].
  apply negb_true_iff. by apply String.eqb_neq.
Qed.

(** Every outcome of [update_category] on a well-formed store. *)
Lemma update_category_store_of category_id novo_nome cats exps log :
  Forall wf_category cats ->
  update_category category_id novo_nome (store_of cats exps log)
  = (Ret false, store_of cats exps log)
  ∨ (strip novo_nome ≠ "" ∧ category_id ∈ c_id <$> cats ∧
     (∀ c, c ∈ cats -> c_id c ≠ category_id ->
           lower (strip novo_nome) ≠ lower (c_nome c)) ∧
     update_category category_id novo_nome (store_of cats exps log)
     = (Ret true,
        store_of (rename_first category_id (strip novo_nome) cats) exps
          (log ++ [Wrote CATEGORIES_FILE
                     (categories_header ::
                        (category_row <$>
                           rename_first category_id (strip novo_nome) cats))]))).
Proof.
  intros Hwf. unfold update_category.
  destruct (truthy (strip novo_nome)) eqn:Ht; cbn [negb]; [|by left].
  unfold bind. rewrite load_categories_raw_store_of by done.
  destruct (find _ cats) as [t|] eqn:Hf; [|by left].
  destruct (existsb _ cats) eqn:Hex; [by left|]. right.
  split_and!.
  - by apply truthy_true.
  - apply find_id_is_Some. by rewrite Hf.
  - intros c Hc Hid Hnome.
    apply not_true_iff_false in Hex. apply Hex.
    apply existsb_exists. exists c. split; [by apply list_elem_of_In|].
    rewrite Hnome, String.eqb_refl. cbn [andb].
    apply negb_true_iff. by apply String.eqb_neq.
  - by rewrite save_categories_store_of.
Qed.

Lemma delete_category_default w : delete_category "1" w = (Ret false, w).
Proof. done. Qed.

Lemma length_filter_all {A} (P : A -> Prop) `{∀ x, Decision (P x)} (l : list A) :
  Forall P l -> filter P l = l.
Proof.
  induction 1 as [|x l Hx _ IH]; [done|].
  by rewrite filter_cons_True, IH.
Qed.

(** Every outcome of [delete_category] on a well-formed store. *)
Lemma delete_category_store_of category_id cats exps log :
  Forall wf_category cats -> Forall (fun e => is_id (e_id e)) exps ->
  category_id ≠ "1" ->
  let w := store_of cats exps log in
  let cats' := filter (fun c => c_id c ≠ category_id) cats in
  let log' := log ++ [Wrote CATEGORIES_FILE
                        (categories_header :: (category_row <$> cats'))] in
  let exps' := reassigned category_id "1" <$> (stripped_expense <$> exps) in
  ((category_id ∉ c_id <$> cats) ∧
   delete_category category_id w = (Ret false, w))
  ∨ (category_id ∈ (c_id <$> cats) ∧
     delete_category category_id w
     = (Ret true,
        if existsb (fun e => String.eqb (e_categoria_id e) category_id)
                   (stripped_expense <$> exps)
        then store_of cats' exps'
               (log' ++ [Wrote EXPENSES_FILE
                           (expenses_header :: (expense_row <$> exps'))])
        else store_of cats' exps log')).
Proof.
  intros Hwf Hwe Hne w cats' log' exps'. unfold delete_category.
  rewrite (proj2 (String.eqb_neq _ _)) by done.
  unfold bind. subst w. rewrite load_categories_raw_store_of by done.
  fold cats'.
  destruct (decide (category_id ∈ c_id <$> cats)) as [Hin|Hnin].
  - right. split; [done|].
    apply list_elem_of_fmap in Hin as (c & -> & Hc).
    pose proof (length_filter_lt (fun c' => c_id c' ≠ c_id c) cats c Hc) as Hlt.
    fold cats' in Hlt.
    rewrite (proj2 (Nat.eqb_neq _ _)) by (apply Nat.lt_neq, Hlt; by intros ?).
    rewrite save_categories_store_of. fold log'.
    unfold reassign_expenses_category, bind.
    rewrite load_expenses_raw_store_of by done.
    destruct (existsb _ _); [|done].
    by rewrite save_expenses_store_of.
  - left. split; [done|].
    assert (cats' = cats) as ->; [|by rewrite Nat.eqb_refl].
    apply length_filter_all. apply Forall_forall. intros c Hc Heq.
    apply Hnin. rewrite <- Heq. by apply list_elem_of_fmap_2.
Qed.

Lemma delete_expense_store_of expense_id cats exps log :
  Forall (fun e => is_id (e_id e)) exps ->
  let w := store_of cats exps log in
  let filtered :=
    filter (fun e => e_id e ≠ expense_id) (stripped_expense <$> exps) in
  delete_expense expense_id w = (Ret false, w)
  ∨ delete_expense expense_id w
    = (Ret true,
       store_of cats filtered
         (log ++ [Wrote EXPENSES_FILE
                    (expenses_header :: (expense_row <$> filtered))])).
Proof.
  intros Hwe w filtered. unfold delete_expense, bind. subst w.
  rewrite load_expenses_raw_store_of by done. fold filtered.
  destruct (_ =? _)%nat; [by left|right].
  by rewrite save_expenses_store_of.
Qed.

Lemma get_next_id_store_of cats exps log :
  Forall (fun e => is_id (e_id e)) exps ->
  ∃ m, (∀ e, e ∈ exps -> ∃ k, e_id e = str k ∧ k <= m) ∧
       get_next_id EXPENSES_FILE "id" (store_of cats exps log)
       = (Ret (str (m + 1)), store_of cats exps log).
Proof.
  intros Hwe.
  destruct (next_id_loop_bound exps 0 Hwe) as [_ Hb].
  eexists. split; [exact Hb|].
  unfold get_next_id, bind, exists_.
  cbn [content store_of expenses_csv].
  rewrite bool_decide_eq_true_2 by eauto. cbn [negb].
  unfold read_rows. cbn [content store_of expenses_csv].
  unfold ret, next_id_loop. by rewrite DictReader_expenses.
Qed.

Section WithFormat.

Context (format_2f : pyfloat -> string).

Lemma write_expense_store_of data descricao valor categoria_id anotacao
    cats exps log :
  Forall (fun e => is_id (e_id e)) exps ->
  ∃ m, (∀ e, e ∈ exps -> ∃ k, e_id e = str k ∧ k <= m) ∧
       let e := mkExpense (str (m + 1)) data descricao (format_2f valor)
                          categoria_id anotacao in
       write_expense format_2f data descricao valor categoria_id anotacao
                     (store_of cats exps log)
       = (Ret tt,
          store_of cats (exps ++ [e])
            (log ++ [Wrote EXPENSES_FILE
                       (expenses_header :: (expense_row <$> exps ++ [e]))])).
Proof.
  intros Hwe. destruct (get_next_id_store_of cats exps log Hwe) as (m & Hb & Hm).
  exists m. split; [done|]. intros e.
  unfold write_expense, bind. rewrite ensure_storage_store_of, Hm.
  apply (append_expense_store_of e).
Qed.

Lemma update_expense_store_of expense_id data descricao valor categoria_id
    anotacao cats exps log :
  Forall (fun e => is_id (e_id e)) exps ->
  let w := store_of cats exps log in
  let exps' :=
    rewrite_first format_2f expense_id data descricao valor categoria_id
                  anotacao (stripped_expense <$> exps) in
  update_expense format_2f expense_id data descricao valor categoria_id
                 anotacao w
  = (Ret false, w)
  ∨ update_expense format_2f expense_id data descricao valor categoria_id
                   anotacao w
    = (Ret true,
       store_of cats exps'
         (log ++ [Wrote EXPENSES_FILE
                    (expenses_header :: (expense_row <$> exps'))])).
Proof.
  intros Hwe w exps'. unfold update_expense, bind. subst w.
  rewrite load_expenses_raw_store_of by done.
  destruct (existsb _ _); cbn [negb]; [right|by left].
  by rewrite save_expenses_store_of.
Qed.

Lemma read_expenses_store_of cats exps log :
  Forall wf_category cats -> Forall (fun e => is_id (e_id e)) exps ->
  let categories_by_id : gmap string string :=
    foldl (fun d c => <[c_id c := c_nome c]> d) ∅
          (sorted String.leb (fun c => lower (c_nome c)) cats) in
  read_expenses format_2f (store_of cats exps log)
  = (Ret (sorted Z.geb (fun item => default 0 (int (p_id item)))
            (process format_2f categories_by_id <$> (stripped_expense <$> exps))),
     store_of cats exps log).
Proof.
  intros Hwf Hwe by_id. unfold read_expenses, bind.
  rewrite load_expenses_raw_store_of by done.
  rewrite read_categories_store_of by done. fold by_id.
  assert (forallb (fun item => bool_decide (is_Some (int (p_id item))))
            (process format_2f by_id <$> (stripped_expense <$> exps)) = true)
    as ->; [|done].
  apply forallb_forall. intros p Hp.
  apply list_elem_of_In, list_elem_of_fmap in Hp as (e & -> & He).
  apply list_elem_of_fmap in He as (e0 & -> & He0).
  eapply Forall_forall in Hwe as [n Hn]; [|done].
  cbn [process p_id stripped_expense e_id]. rewrite Hn, strip_str, int_str.
  apply bool_decide_eq_true_2. eauto.
Qed.

End WithFormat.

End Operations.

(** ** Every request keeps the store well formed *)

Section Preservation.

Implicit Types (cats : list category) (exps : list expense) (log : list event).

Lemma rename_first_ids category_id nome cats :
  c_id <$> rename_first category_id nome cats = c_id <$> cats.
Proof.
  induction cats as [|c cats IH]; [done|]. cbn [rename_first].
  destruct (String.eqb (c_id c) category_id); [done|].
  by rewrite !fmap_cons, IH.
Qed.

Lemma elem_of_rename_first category_id nome cats c :
  c ∈ rename_first category_id nome cats ->
  c ∈ cats ∨ (c_nome c = nome ∧ c_id c = category_id ∧ category_id ∈ c_id <$> cats).
Proof.
  induction cats as [|c0 cats IH]; [by left|]. cbn [rename_first].
  destruct (String.eqb_spec (c_id c0) category_id) as [Heq|Hne].
  - intros [->|Hin]%elem_of_cons.
    + right. rewrite fmap_cons, Heq. split_and!; [done..|]. apply elem_of_cons; auto.
    + left. apply elem_of_cons; auto.
  - intros [->|Hin]%elem_of_cons.
    + left. apply elem_of_cons; auto.
    + destruct (IH Hin) as [?|(? & ? & ?)].
      * left. apply elem_of_cons; auto.
      * right. split_and!; [done..|]. rewrite fmap_cons. apply elem_of_cons; auto.
Qed.

Lemma wf_category_id_of cats c :
  Forall wf_category cats -> c ∈ cats -> is_id (c_id c).
Proof. intros H Hc. eapply Forall_forall in H as (? & _); done. Qed.

Lemma cats_step_wf cats cats' :
  wf_categories cats -> cats_step cats cats' -> wf_categories cats'.
Proof.
  intros [Hwf Hnd] [->|[(m & nome & -> & Hs & Hne & _ & Hb)|
    [(cid & nome & -> & Hs & Hne & _)|(cid & ->)]]]; [done|..].
  - split.
    + apply Forall_app. split; [done|]. apply Forall_singleton.
      split_and!; cbn; eauto. by exists (m + 1).
    + rewrite fmap_app. apply NoDup_app. split_and!; [done| |apply NoDup_singleton].
      intros i Hi Hi'. apply list_elem_of_singleton in Hi'. cbn in Hi'. subst i.
      apply list_elem_of_fmap in Hi as (c & Hc & Hin).
      destruct (Hb c Hin) as (k & Hk & Hle). rewrite Hk in Hc.
      apply str_inj in Hc. lia.
  - split; [|by rewrite rename_first_ids].
    apply Forall_forall. intros c Hc.
    apply elem_of_rename_first in Hc as [Hc|(Hn & Hi & Hin)].
    + eapply Forall_forall in Hwf; done.
    + split_and!; [|by rewrite Hn..].
      apply list_elem_of_fmap in Hin as (c0 & Hc0 & Hin0).
      rewrite Hi, Hc0. by eapply wf_category_id_of.
  - split.
    + apply Forall_forall. intros c [_ Hc]%list_elem_of_filter.
      eapply Forall_forall in Hwf; done.
    + eapply sublist_NoDup; [exact Hnd|].
      apply fmap_sublist, sublist_filter.
Qed.

Lemma rename_first_names category_id nome cats :
  NoDup (c_id <$> cats) -> names_unique cats ->
  (∀ c, c ∈ cats -> c_id c ≠ category_id -> lower nome ≠ lower (c_nome c)) ->
  names_unique (rename_first category_id nome cats).
Proof.
  unfold names_unique.
  induction cats as [|c cats IH]; [done|].
  rewrite !fmap_cons. intros [Hi Hids]%NoDup_cons [Hn Hnames]%NoDup_cons Hcol.
  cbn [rename_first].
  destruct (String.eqb_spec (c_id c) category_id) as [Heq|Hne].
  - rewrite fmap_cons. apply NoDup_cons. split; [|done]. cbn.
    intros (c' & Hc' & Hin)%list_elem_of_fmap.
    apply (Hcol c'); [apply elem_of_cons; auto| |done].
    intros Hid. apply Hi. rewrite Heq, <- Hid. by apply list_elem_of_fmap_2.
  - rewrite fmap_cons. apply NoDup_cons. split.
    + intros (c' & Hc' & Hin)%list_elem_of_fmap.
      apply elem_of_rename_first in Hin as [Hin|(Hnome & _)].
      * apply Hn. rewrite Hc'. by apply (list_elem_of_fmap_2 (fun c => lower (c_nome c))).
      * rewrite Hnome in Hc'. apply (Hcol c); [apply elem_of_cons; auto|done|done].
    + apply IH; [done..|]. intros c' Hc'. apply Hcol. apply elem_of_cons; auto.
Qed.

Lemma cats_step_names cats cats' :
  wf_categories cats -> names_unique cats -> cats_step cats cats' ->
  names_unique cats'.
Proof.
  intros [Hwf Hnd] Hnames [->|[(m & nome & -> & Hs & Hne & Hnin & Hb)|
    [(cid & nome & -> & Hs & Hne & Hcol)|(cid & ->)]]]; [done|..].
  - unfold names_unique in *. rewrite fmap_app. apply NoDup_app.
    split_and!; [done| |apply NoDup_singleton].
    intros n Hn Hn'. apply list_elem_of_singleton in Hn'. cbn in Hn'. by subst n.
  - by apply rename_first_names.
  - unfold names_unique in *. eapply sublist_NoDup; [exact Hnames|].
    apply fmap_sublist, sublist_filter.
Qed.

Lemma stripped_expense_ids exps :
  Forall (fun e => is_id (e_id e)) exps ->
  e_id <$> (stripped_expense <$> exps) = e_id <$> exps.
Proof.
  induction 1 as [|e exps [n Hn] _ IH]; [done|].
  rewrite !fmap_cons, IH. cbn. by rewrite Hn, strip_str.
Qed.

Lemma wf_expenses_ids exps exps' :
  e_id <$> exps' = e_id <$> exps -> wf_expenses exps -> wf_expenses exps'.
Proof.
  unfold wf_expenses. intros Hids [Hwf Hnd]. rewrite Hids. split; [|done].
  apply (Forall_fmap e_id is_id). rewrite Hids. by apply Forall_fmap.
Qed.

Lemma exps_step_wf exps exps' :
  wf_expenses exps -> exps_step exps exps' -> wf_expenses exps'.
Proof.
  intros Hwf [->|[(m & e & -> & He & Hb)|[Hids|(eid & ->)]]]; [done|..].
  - destruct Hwf as [Hwf Hnd]. split.
    + apply Forall_app. split; [done|]. apply Forall_singleton. by exists (m + 1).
    + rewrite fmap_app. apply NoDup_app. split_and!; [done| |apply NoDup_singleton].
      intros i Hi Hi'. apply list_elem_of_singleton in Hi'. cbn in Hi'. subst i.
      apply list_elem_of_fmap in Hi as (e0 & He0 & Hin).
      destruct (Hb e0 Hin) as (k & Hk & Hle). rewrite Hk, He in He0.
      apply str_inj in He0. lia.
  - by eapply wf_expenses_ids.
  - assert (wf_expenses (stripped_expense <$> exps)) as [Hwf' Hnd'].
    { eapply wf_expenses_ids; [|done]. apply stripped_expense_ids, Hwf. }
    split.
    + apply Forall_forall. intros e [_ He]%list_elem_of_filter.
      eapply Forall_forall in Hwf'; done.
    + eapply sublist_NoDup; [exact Hnd'|].
      apply fmap_sublist, sublist_filter.
Qed.

End Preservation.

(** ** The requests on a well-formed store *)

Section Requests.

Context (format_2f : pyfloat -> string).
Implicit Types (cats : list category) (exps : list expense) (log : list event).

Lemma steps_to_same cats exps log resp :
  steps_to cats exps (Ret resp, store_of cats exps log).
Proof. exists resp, cats, exps, log. split_and!; [done|by left..]. Qed.

Lemma rewrite_first_ids expense_id data descricao valor categoria_id anotacao
    (l : list expense) :
  e_id <$> rewrite_first format_2f expense_id data descricao valor categoria_id
             anotacao l
  = e_id <$> l.
Proof.
  induction l as [|e l IH]; [done|]. cbn [rewrite_first].
  destruct (String.eqb (e_id e) expense_id); [done|].
  rewrite !fmap_cons. f_equal. apply IH.
Qed.

Lemma reassigned_ids old_id new_id (l : list expense) :
  e_id <$> (reassigned old_id new_id <$> l) = e_id <$> l.
Proof.
  rewrite <- list_fmap_compose. apply list_fmap_ext. intros _ e _. cbn.
  unfold reassigned. by destruct (String.eqb _ _).
Qed.

Lemma adicionar_steps f cats exps log :
  wf_categories cats -> wf_expenses exps ->
  steps_to cats exps (adicionar format_2f f (store_of cats exps log)).
Proof.
  intros [Hwc _] [Hwe _]. unfold adicionar.
  destruct (_ || _); [apply steps_to_same|].
  destruct (strptime _) as [d|]; [|apply steps_to_same].
  destruct (float _) as [v|]; [|apply steps_to_same].
  unfold bind.
  destruct (resolve_category_id_store_of (categoria_input f) cats exps log Hwc)
    as (r & -> & _).
  destruct (negb _); [apply steps_to_same|].
  destruct (write_expense_store_of format_2f (strftime d)
              (strip (default "" (form_get f "descricao"))) v (default "" r)
              (strip (default "" (form_get f "anotacao"))) cats exps log Hwe)
    as (m & Hb & ->).
  eexists _, cats, _, _. split_and!; [done|by left|].
  right. left. by exists m, (mkExpense (str (m + 1)) (strftime d)
    (strip (default "" (form_get f "descricao"))) (format_2f v) (default "" r)
    (strip (default "" (form_get f "anotacao")))).
Qed.

Lemma editar_lancamento_steps expense_id f cats exps log :
  wf_categories cats -> wf_expenses exps ->
  steps_to cats exps
    (editar_lancamento format_2f expense_id f (store_of cats exps log)).
Proof.
  intros [Hwc _] [Hwe _]. unfold editar_lancamento.
  destruct (_ || _); [apply steps_to_same|].
  destruct (strptime _) as [d|]; [|apply steps_to_same].
  destruct (float _) as [v|]; [|apply steps_to_same].
  unfold bind.
  destruct (resolve_category_id_store_of (categoria_input f) cats exps log Hwc)
    as (r & -> & _).
  destruct (negb _); [apply steps_to_same|].
  destruct (update_expense_store_of format_2f expense_id (strftime d)
              (strip (default "" (form_get f "descricao"))) v (default "" r)
              (strip (default "" (form_get f "anotacao"))) cats exps log Hwe)
    as [->| ->]; [apply steps_to_same|].
  eexists _, cats, _, _. split_and!; [done|by left|].
  right. right. left.
  rewrite rewrite_first_ids. by apply stripped_expense_ids.
Qed.

Lemma categorias_steps m f cats exps log :
  wf_categories cats -> wf_expenses exps ->
  steps_to cats exps (categorias m f (store_of cats exps log)).
Proof.
  intros [Hwc _] _. destruct m; cbn [categorias].
  { unfold bind. rewrite read_categories_store_of by done. apply steps_to_same. }
  set (nome := default "" (form_get f "nome")).
  destruct (truthy (strip nome)) eqn:Ht; cbn [negb]; [|apply steps_to_same].
  apply truthy_true in Ht. unfold bind.
  destruct (decide (lower (strip nome) ∈ (fun c => lower (c_nome c)) <$> cats))
    as [Hin|Hnin].
  - rewrite add_category_collision by done. apply steps_to_same.
  - destruct (add_category_new nome cats exps log Hwc Ht Hnin) as (k & Hb & ->).
    eexists _, _, exps, _. split_and!; [done| |by left].
    right. left. exists k, (strip nome).
    split_and!; [done|apply strip_idemp|done..].
Qed.

Lemma renomear_categoria_steps category_id f cats exps log :
  wf_categories cats -> wf_expenses exps ->
  steps_to cats exps
    (renomear_categoria category_id f (store_of cats exps log)).
Proof.
  intros [Hwc _] _. unfold renomear_categoria, bind.
  destruct (update_category_store_of category_id
              (default "" (form_get f "nome")) cats exps log Hwc)
    as [->|(Hne & _ & Hcol & ->)]; [apply steps_to_same|].
  eexists _, _, exps, _. split_and!; [done| |by left].
  right. right. left. eexists _, _.
  split_and!; [done|apply strip_idemp|done..].
Qed.

Lemma excluir_categoria_steps category_id cats exps log :
  wf_categories cats -> wf_expenses exps ->
  steps_to cats exps (excluir_categoria category_id (store_of cats exps log)).
Proof.
  intros [Hwc _] [Hwe _]. unfold excluir_categoria, bind.
  destruct (decide (category_id = "1")) as [->|Hne].
  { rewrite delete_category_default. apply steps_to_same. }
  destruct (delete_category_store_of category_id cats exps log Hwc Hwe Hne)
    as [[_ ->]|[_ ->]]; [apply steps_to_same|].
  destruct (existsb _ _).
  - eexists _, _, _, _. split_and!; [done|..].
    + right. right. right. by exists category_id.
    + right. right. left. rewrite reassigned_ids. by apply stripped_expense_ids.
  - eexists _, _, exps, _. split_and!; [done| |by left].
    right. right. right. by exists category_id.
Qed.

Lemma excluir_lancamento_steps expense_id cats exps log :
  wf_categories cats -> wf_expenses exps ->
  steps_to cats exps (excluir_lancamento expense_id (store_of cats exps log)).
Proof.
  intros _ [Hwe _]. unfold excluir_lancamento, bind.
  destruct (delete_expense_store_of expense_id cats exps log Hwe)
    as [->| ->]; [apply steps_to_same|].
  eexists _, cats, _, _. split_and!; [done|by left|].
  right. right. right. by exists expense_id.
Qed.

Lemma handle_steps r cats exps log :
  wf_categories cats -> wf_expenses exps ->
  steps_to cats exps (handle format_2f r (store_of cats exps log)).
Proof.
  intros Hwc Hwe. destruct r; cbn [handle].
  - unfold index, bind. destruct Hwc as [Hwc _], Hwe as [Hwe _].
    rewrite read_expenses_store_of, read_categories_store_of by done.
    apply steps_to_same.
  - by apply adicionar_steps.
  - by apply categorias_steps.
  - by apply renomear_categoria_steps.
  - by apply excluir_categoria_steps.
  - unfold admin, bind. destruct Hwc as [Hwc _], Hwe as [Hwe _].
    rewrite read_expenses_store_of by done. apply steps_to_same.
  - by apply editar_lancamento_steps.
  - by apply excluir_lancamento_steps.
Qed.

(** Every request on a well-formed store returns a response and leaves a
    well-formed store. *)
Lemma handle_wf r w :
  wf_store w ->
  ∃ resp w', handle format_2f r w = (Ret resp, w') ∧ wf_store w'.
Proof.
  intros (cats & exps & -> & Hwc & Hwe).
  destruct (handle_steps r cats exps (io_log (store_of cats exps (io_log w))) Hwc Hwe)
    as (resp & cats' & exps' & log' & Heq & Hc & He).
  exists resp, (store_of cats' exps' log'). split; [done|].
  exists cats', exps'. split_and!; [done|..].
  - by eapply cats_step_wf.
  - by eapply exps_step_wf.
Qed.

End Requests.

(** ** The first access to an empty data directory *)

Section FirstAccess.

Context (format_2f : pyfloat -> string).

Lemma ensure_storage_empty_dir : ensure_storage empty_dir = (Ret tt, initial).
Proof. reflexivity. Qed.

Lemma pure_ret {A} (a : A) : pure_or_storage_first (ret a).
Proof. left. by exists a. Qed.

Lemma storage_first_bind {A B} (m : M A) (k : A -> M B) :
  storage_first m -> storage_first (bind m k).
Proof. intros Hm w w0 H1 H2. unfold bind. by rewrite (Hm w w0). Qed.

Lemma pure_or_storage_first_bind {A B} (m : M A) (k : A -> M B) :
  pure_or_storage_first m -> (∀ a, pure_or_storage_first (k a)) ->
  pure_or_storage_first (bind m k).
Proof.
  intros [[a Ha]|Hm] Hk.
  - destruct (Hk a) as [[b Hb]|Hka].
    + left. exists b. intros w. unfold bind. by rewrite Ha.
    + right. intros w w0 H1 H2. unfold bind. rewrite !Ha. by apply Hka.
  - right. by apply storage_first_bind.
Qed.

Lemma storage_first_ensure : storage_first ensure_storage.
Proof. intros w w0 H1 H2. by rewrite H1, H2. Qed.

Lemma storage_first_load_categories_raw : storage_first load_categories_raw.
Proof. apply storage_first_bind, storage_first_ensure. Qed.

Lemma storage_first_load_expenses_raw : storage_first load_expenses_raw.
Proof. apply storage_first_bind, storage_first_ensure. Qed.

Lemma storage_first_read_categories : storage_first read_categories.
Proof. apply storage_first_bind, storage_first_load_categories_raw. Qed.

Lemma storage_first_read_expenses : storage_first (read_expenses format_2f).
Proof. apply storage_first_bind, storage_first_load_expenses_raw. Qed.

Lemma storage_first_write_expense data descricao valor categoria_id anotacao :
  storage_first
    (write_expense format_2f data descricao valor categoria_id anotacao).
Proof. apply storage_first_bind, storage_first_ensure. Qed.

Lemma pure_or_storage_first_add_category nome :
  pure_or_storage_first (add_category nome).
Proof.
  unfold add_category. destruct (negb _); [apply pure_ret|].
  right. apply storage_first_bind, storage_first_read_categories.
Qed.

Lemma pure_or_storage_first_resolve identifier :
  pure_or_storage_first (resolve_category_id identifier).
Proof.
  unfold resolve_category_id. destruct (negb _); [apply pure_ret|].
  right. apply storage_first_bind, storage_first_read_categories.
Qed.

Lemma pure_or_storage_first_update_category category_id novo_nome :
  pure_or_storage_first (update_category category_id novo_nome).
Proof.
  unfold update_category. destruct (negb _); [apply pure_ret|].
  right. apply storage_first_bind, storage_first_load_categories_raw.
Qed.

Lemma pure_or_storage_first_delete_category category_id :
  pure_or_storage_first (delete_category category_id).
Proof.
  unfold delete_category. destruct (String.eqb _ _); [apply pure_ret|].
  right. apply storage_first_bind, storage_first_load_categories_raw.
Qed.

Lemma pure_or_storage_first_if {A} (b : bool) (m1 m2 : M A) :
  pure_or_storage_first m1 -> pure_or_storage_first m2 ->
  pure_or_storage_first (if b then m1 else m2).
Proof. by destruct b. Qed.

Lemma pure_or_storage_first_handle r :
  pure_or_storage_first (handle format_2f r).
Proof.
  destruct r as [|f|m f|i f|i| |i f|i]; cbn [handle].
  - right. apply storage_first_bind, storage_first_read_expenses.
  - unfold adicionar. destruct (_ || _); [apply pure_ret|].
    destruct (strptime _); [|apply pure_ret].
    destruct (float _); [|apply pure_ret].
    apply pure_or_storage_first_bind; [apply pure_or_storage_first_resolve|].
    intros r. apply pure_or_storage_first_if; [apply pure_ret|].
    right. apply storage_first_bind, storage_first_write_expense.
  - destruct m; cbn [categorias].
    + right. apply storage_first_bind, storage_first_read_categories.
    + apply pure_or_storage_first_if; [apply pure_ret|].
      apply pure_or_storage_first_bind;
        [apply pure_or_storage_first_add_category|intros; apply pure_ret].
  - apply pure_or_storage_first_bind;
      [apply pure_or_storage_first_update_category|].
    intros []; apply pure_ret.
  - apply pure_or_storage_first_bind;
      [apply pure_or_storage_first_delete_category|].
    intros []; apply pure_ret.
  - right. apply storage_first_bind, storage_first_read_expenses.
  - unfold editar_lancamento. destruct (_ || _); [apply pure_ret|].
    destruct (strptime _); [|apply pure_ret].
    destruct (float _); [|apply pure_ret].
    apply pure_or_storage_first_bind; [apply pure_or_storage_first_resolve|].
    intros r. apply pure_or_storage_first_if; [apply pure_ret|].
    right. apply storage_first_bind, storage_first_bind,
      storage_first_load_expenses_raw.
  - right. apply storage_first_bind, storage_first_bind,
      storage_first_load_expenses_raw.
Qed.

Lemma storage_first_empty_dir {A} (m : M A) :
  storage_first m -> m empty_dir = m initial.
Proof.
  intros Hm. apply Hm; [apply ensure_storage_empty_dir|].
  apply ensure_storage_store_of.
Qed.

Lemma inv_initial : inv initial.
Proof.
  exists [mkCategory "1" "Outros"], []. split_and!; [done|..].
  - split; [|apply NoDup_singleton].
    apply Forall_singleton. split_and!; [by exists 1|done..].
  - split; [apply Forall_nil_2|apply NoDup_nil_2].
  - apply NoDup_singleton.
Qed.

Lemma inv_wf_store w : inv w -> wf_store w.
Proof. intros (cats & exps & ? & ? & ? & _). by exists cats, exps. Qed.

(** Every request keeps the invariant and returns a response. *)
Lemma handle_inv r w :
  inv w -> ∃ resp w', handle format_2f r w = (Ret resp, w') ∧ inv w'.
Proof.
  intros (cats & exps & -> & Hwc & Hwe & Hn).
  destruct (handle_steps format_2f r cats exps
              (io_log (store_of cats exps (io_log w))) Hwc Hwe)
    as (resp & cats' & exps' & log' & Heq & Hc & He).
  exists resp, (store_of cats' exps' log'). split; [done|].
  exists cats', exps'. split_and!; [done|..].
  - by eapply cats_step_wf.
  - by eapply exps_step_wf.
  - by eapply cats_step_names.
Qed.


(** A request on the empty directory either leaves it empty or behaves as
    on the store [ensure_storage] creates. *)
Lemma handle_empty_dir r :
  (handle format_2f r empty_dir).2 = empty_dir
  ∨ handle format_2f r empty_dir = handle format_2f r initial.
Proof.
  destruct (pure_or_storage_first_handle r) as [[a Ha]|Hsf].
  - left. by rewrite Ha.
  - right. by apply storage_first_empty_dir.
Qed.


Lemma handle_inv_world r w :
  inv_world w -> inv_world (handle format_2f r w).2.
Proof.
  intros [->|Hinv].
  - destruct (handle_empty_dir r) as [->| ->]; [by left|]. right.
    by destruct (handle_inv r initial inv_initial) as (resp & w' & -> & Hw').
  - right. by destruct (handle_inv r w Hinv) as (resp & w' & -> & Hw').
Qed.


Lemma run_inv_world rs w :
  inv_world w -> inv_world (run format_2f rs w).
Proof.
  revert w. induction rs as [|r rs IH]; intros w Hw; [done|].
  cbn [run foldl]. by apply IH, handle_inv_world.
Qed.

(** The worlds the application reaches from an empty data directory
    satisfy the invariant. *)
Lemma reachable_inv w : reachable format_2f w -> inv_world w.
Proof.
  induction 1 as [|w r _ IH]; [by left|]. by apply handle_inv_world.
Qed.

End FirstAccess.

(** ** What a well-formed store holds *)

Section Observations.

Implicit Types (cats : list category) (exps : list expense) (log : list event).

Lemma stored_categories_store_of cats exps log :
  Forall wf_category cats -> stored_categories (store_of cats exps log) = cats.
Proof.
  intros H. unfold stored_categories. cbn [store_of categories_csv from_option id].
  by rewrite DictReader_categories, categories_of_wf.
Qed.

Lemma stored_expenses_store_of cats exps log :
  Forall (fun e => is_id (e_id e)) exps ->
  stored_expenses (store_of cats exps log) = stripped_expense <$> exps.
Proof.
  intros H. unfold stored_expenses. cbn [store_of expenses_csv from_option id].
  by rewrite DictReader_expenses, expenses_of_wf.
Qed.



Lemma sample_store_inv : inv sample_store.
Proof.
  eexists _, _. split_and!; [reflexivity|..].
  - split.
    + repeat apply Forall_cons_2; [..|apply Forall_nil_2];
        (split_and!; [|done..]); [by exists 1|by exists 2|by exists 3].
    + by_evaluation.
  - split.
    + repeat apply Forall_cons_2; [..|apply Forall_nil_2];
        [by exists 1|by exists 2|by exists 3].
    + by_evaluation.
  - by_evaluation.
Qed.

Lemma sample_store_wf : wf_store sample_store.
Proof. apply inv_wf_store, sample_store_inv. Qed.

(** Dropping the categories with the id of [c] drops [c] alone when the
    ids are pairwise different. *)
Lemma filter_other_ids c cats :
  NoDup (c_id <$> cats) -> c ∈ cats ->
  ∃ l1 l2, cats = l1 ++ c :: l2 ∧
           filter (fun c' => c_id c' ≠ c_id c) cats = l1 ++ l2.
Proof.
  intros Hnd Hc. apply list_elem_of_split in Hc as (l1 & l2 & ->).
  exists l1, l2. split; [done|].
  rewrite fmap_app, fmap_cons in Hnd.
  apply NoDup_app in Hnd as (_ & Hl1 & [Hl2 _]%NoDup_cons).
  rewrite filter_app, filter_cons_False by (by intros ?).
  rewrite !length_filter_all; [done|..]; apply Forall_forall; intros c' Hc' Heq.
  - apply Hl2. rewrite <- Heq. by apply list_elem_of_fmap_2.
  - apply (Hl1 (c_id c')); [by apply list_elem_of_fmap_2|].
    rewrite Heq. apply elem_of_cons. by left.
Qed.

Lemma stripped_reassigned old_id e :
  stripped_expense (reassigned old_id "1" (stripped_expense e))
  = reassigned old_id "1" (stripped_expense e).
Proof.
  unfold reassigned.
  destruct (String.eqb _ _); unfold stripped_expense, set_categoria_id;
    cbn [e_id e_data e_descricao e_valor e_categoria_id e_anotacao];
    by rewrite !strip_idemp.
Qed.

Lemma reassigned_none old_id new_id (l : list expense) :
  existsb (fun e => String.eqb (e_categoria_id e) old_id) l = false ->
  reassigned old_id new_id <$> l = l.
Proof.
  induction l as [|e l IH]; [done|]. cbn [existsb].
  intros [He Hl]%orb_false_iff. rewrite fmap_cons, IH by done.
  unfold reassigned. by rewrite He.
Qed.

End Observations.

(** ** Deleting a category *)

(** C8. The default category cannot be deleted: in every world
    [delete_category("1")] returns [False] and touches neither file. *)
Theorem default_category_not_deletable (w : world) :
  delete_category "1" w = (Ret false, w).
Proof. reflexivity. Qed.

(** C1, as the code has it.  On a well-formed store, for a stored category
    [c] other than the default one, [delete_category(c.id)] returns [True];
    it first rewrites the categories file without [c], the other categories
    unchanged and in their order, so the list shrinks by one; after that it
    sets to ["1"] the [categoria_id] of every expense that had the id of
    [c], rewriting the expenses file when there is such an expense. *)
Theorem delete_category_removes_then_reassigns (w : world) (c : category) :
  wf_store w -> c ∈ stored_categories w -> c_id c ≠ "1" ->
  ∃ w' l1 l2 later,
    delete_category (c_id c) w = (Ret true, w') ∧
    stored_categories w = l1 ++ c :: l2 ∧
    stored_categories w' = l1 ++ l2 ∧
    (length (stored_categories w') + 1 = length (stored_categories w))%nat ∧
    stored_expenses w' = reassigned (c_id c) "1" <$> stored_expenses w ∧
    io_log w'
    = io_log w
      ++ Wrote CATEGORIES_FILE (categories_header :: (category_row <$> l1 ++ l2))
      :: later ∧
    (later = [] ∨ ∃ rows, later = [Wrote EXPENSES_FILE rows]).
Proof.
  intros (cats & exps & -> & [Hwc Hnd] & [Hwe _]) Hc Hne.
  cbn [io_log store_of].
  rewrite stored_categories_store_of in * by done.
  rewrite stored_expenses_store_of by done.
  destruct (filter_other_ids c cats Hnd Hc) as (l1 & l2 & Hsplit & Hfilter).
  destruct (delete_category_store_of (c_id c) cats exps (io_log w) Hwc Hwe Hne)
    as [[Hnin _]|[_ Hdel]].
  { exfalso. apply Hnin. by apply list_elem_of_fmap_2. }
  rewrite Hfilter in Hdel.
  assert (Forall wf_category (l1 ++ l2)) as Hwc'.
  { rewrite <- Hfilter. apply Forall_forall.
    intros c' [_ Hc']%list_elem_of_filter. eapply Forall_forall in Hwc; done. }
  assert (length (l1 ++ l2) + 1 = length cats)%nat as Hlen.
  { rewrite Hsplit, !length_app. cbn. lia. }
  destruct (existsb _ _) eqn:Hex.
  - eexists _, l1, l2, [_]. split; [exact Hdel|].
    cbn [io_log store_of]. rewrite stored_categories_store_of by done.
    split_and!; [done..| |by rewrite <- app_assoc|right; eauto].
    rewrite stored_expenses_store_of.
    + rewrite <- list_fmap_compose. apply list_fmap_ext.
      intros _ e (e0 & -> & _)%list_elem_of_lookup_2%list_elem_of_fmap.
      apply stripped_reassigned.
    + apply (Forall_fmap e_id is_id). rewrite reassigned_ids.
      rewrite stripped_expense_ids by done. by apply Forall_fmap.
  - eexists _, l1, l2, []. split; [exact Hdel|].
    cbn [io_log store_of]. rewrite stored_categories_store_of by done.
    split_and!; [done..| |done|by left].
    rewrite stored_expenses_store_of by done. by rewrite reassigned_none.
Qed.

Lemma delete_category_removes_then_reassigns_witness :
  wf_store sample_store ∧
  mkCategory "2" "Mercado" ∈ stored_categories sample_store ∧
  c_id (mkCategory "2" "Mercado") ≠ "1" ∧
  ∃ w' l1 l2 later,
    delete_category "2" sample_store = (Ret true, w') ∧
    stored_categories sample_store = l1 ++ mkCategory "2" "Mercado" :: l2 ∧
    stored_categories w' = l1 ++ l2 ∧
    (length (stored_categories w') + 1
     = length (stored_categories sample_store))%nat ∧
    stored_expenses w' = reassigned "2" "1" <$> stored_expenses sample_store ∧
    io_log w'
    = io_log sample_store
      ++ Wrote CATEGORIES_FILE (categories_header :: (category_row <$> l1 ++ l2))
      :: later ∧
    (later = [] ∨ ∃ rows, later = [Wrote EXPENSES_FILE rows]).
Proof.
  assert (mkCategory "2" "Mercado" ∈ stored_categories sample_store) as Hin.
  { by_evaluation. }
  assert (c_id (mkCategory "2" "Mercado") ≠ "1") as Hne by done.
  split_and!; [apply sample_store_wf|exact Hin|exact Hne|].
  exact (delete_category_removes_then_reassigns
           sample_store (mkCategory "2" "Mercado") sample_store_wf Hin Hne).
Defined.

(** C1, as stated, fails: on the sample store [delete_category("2")]
    writes the categories file first and the expenses file second, so the
    expenses are not reassigned before the category is removed. *)
Lemma delete_category_removes_first :
  io_log (delete_category "2" sample_store).2
  = [Wrote CATEGORIES_FILE
       [["id"; "nome"]; ["1"; "Outros"]; ["3"; "Casa"]];
     Wrote EXPENSES_FILE
       [["id"; "data"; "descricao"; "valor"; "categoria_id"; "anotacao"];
        ["1"; "2024-01-05"; "pao"; "3.50"; "1"; ""];
        ["2"; "2024-01-06"; "luz"; "30.50"; "3"; ""];
        ["3"; "2024-01-07"; "taxi"; "12.00"; "9"; "sem categoria"]]] ∧
  ¬ reassigns_before_removal "2" sample_store.
Proof.
  assert (io_log (delete_category "2" sample_store).2
  = [Wrote CATEGORIES_FILE
       [["id"; "nome"]; ["1"; "Outros"]; ["3"; "Casa"]];
     Wrote EXPENSES_FILE
       [["id"; "data"; "descricao"; "valor"; "categoria_id"; "anotacao"];
        ["1"; "2024-01-05"; "pao"; "3.50"; "1"; ""];
        ["2"; "2024-01-06"; "luz"; "30.50"; "3"; ""];
        ["3"; "2024-01-07"; "taxi"; "12.00"; "9"; "sem categoria"]]]) as Hlog.
  { by vm_compute. }
  split; [exact Hlog|].
  unfold reassigns_before_removal. rewrite Hlog. cbn [sample_store store_of io_log length drop].
  intros (i & j & ce & cc & Hlt & Hi & Hj).
  destruct i as [|[|i]]; destruct j as [|[|j]]; cbn in Hi, Hj; try done; lia.
Qed.

(** ** Creating and renaming categories *)

Section CategoryNames.

Context (format_2f : pyfloat -> string).

Lemma add_category_refuses nome w :
  wf_store w ->
  (∃ c, c ∈ stored_categories w ∧ lower (strip nome) = lower (c_nome c)) ->
  add_category nome w = (Ret tt, w).
Proof.
  intros (cats & exps & Hw & [Hwc _] & _) (c & Hc & Hn). rewrite Hw in *.
  rewrite stored_categories_store_of in Hc by done.
  apply add_category_collision; [done|]. rewrite Hn.
  by apply (list_elem_of_fmap_2 (fun c => lower (c_nome c))).
Qed.

Lemma update_category_refuses category_id novo_nome w :
  wf_store w ->
  (∃ c, c ∈ stored_categories w ∧ c_id c ≠ category_id ∧
        lower (strip novo_nome) = lower (c_nome c)) ->
  update_category category_id novo_nome w = (Ret false, w).
Proof.
  intros (cats & exps & Hw & [Hwc _] & _) (c & Hc & Hi & Hn). rewrite Hw in *.
  rewrite stored_categories_store_of in Hc by done.
  apply update_category_collision; [done|]. eauto.
Qed.

End CategoryNames.

(** The names on the stores of the application.  In the empty data
    directory and in every store that satisfies
    the invariant (a well-formed store whose category names are pairwise
    different up to case), and after every sequence of requests from
    there, the stored category names are pairwise different up to case;
    [add_category] leaves the world as it is when the stripped name equals
    a stored name up to case, and [update_category] returns [False] and
    leaves the world as it is when the stripped new name equals, up to
    case, the name of a stored category with another id. *)
Theorem category_names_unique_ci (format_2f : pyfloat -> string) (w : world) :
  inv_world w ->
  (∀ rs, names_unique (stored_categories (run format_2f rs w))) ∧
  (∀ nome c,
     c ∈ stored_categories w -> lower (strip nome) = lower (c_nome c) ->
     add_category nome w = (Ret tt, w)) ∧
  (∀ category_id novo_nome c,
     c ∈ stored_categories w -> c_id c ≠ category_id ->
     lower (strip novo_nome) = lower (c_nome c) ->
     update_category category_id novo_nome w = (Ret false, w)).
Proof.
  intros Hw. split.
  { intros rs.
    destruct (run_inv_world format_2f rs w Hw)
      as [->|(cats & exps & -> & [Hwc _] & _ & Hn)]; [apply NoDup_nil_2|].
    by rewrite stored_categories_store_of. }
  destruct Hw as [->|Hinv].
  - assert (stored_categories empty_dir = []) as -> by done. split.
    + intros nome c Hc. by apply elem_of_nil in Hc.
    + intros cid novo c Hc. by apply elem_of_nil in Hc.
  - pose proof (inv_wf_store w Hinv) as Hwf. split.
    + intros nome c Hc Hn. apply add_category_refuses; eauto.
    + intros cid novo c Hc Hi Hn. apply update_category_refuses; eauto.
Qed.

(** C10. On a well-formed store, posting to [/categorias] a name that
    equals a stored name up to case changes nothing, neither file is
    written, and the response still flashes "Categoria criada!" as a
    success. *)
Theorem duplicate_category_post_flashes_success
    (w : world) (f : list (string * string)) (c : category) :
  wf_store w -> c ∈ stored_categories w ->
  lower (strip (default "" (form_get f "nome"))) = lower (c_nome c) ->
  categorias POST f w
  = (Ret (Redirect "Categoria criada!" "success" ep_categorias), w).
Proof.
  intros Hwf Hc Hn. cbn [categorias].
  assert (truthy (strip (default "" (form_get f "nome"))) = true) as ->.
  { destruct Hwf as (cats & exps & Hw & [Hwc _] & _). rewrite Hw in Hc.
    rewrite stored_categories_store_of in Hc by done.
    eapply Forall_forall in Hwc as (_ & _ & Hne); [|done].
    destruct (strip _); [|done]. by destruct (c_nome c). }
  cbn [negb]. unfold bind. rewrite add_category_refuses; eauto.
Qed.

Lemma reachable_run (format_2f : pyfloat -> string) rs w :
  reachable format_2f w -> reachable format_2f (run format_2f rs w).
Proof.
  revert w. induction rs as [|r rs IH]; intros w Hw; [done|].
  cbn [run foldl]. apply IH. by apply reachable_step.
Qed.

Lemma sample_reached_reachable : reachable example_format_2f sample_reached.
Proof. apply reachable_run, reachable_empty. Qed.

Lemma category_names_unique_ci_witness :
  inv_world sample_store ∧
  (∀ rs, names_unique (stored_categories (run example_format_2f rs sample_store))) ∧
  (∀ nome c,
     c ∈ stored_categories sample_store ->
     lower (strip nome) = lower (c_nome c) ->
     add_category nome sample_store = (Ret tt, sample_store)) ∧
  (∀ category_id novo_nome c,
     c ∈ stored_categories sample_store -> c_id c ≠ category_id ->
     lower (strip novo_nome) = lower (c_nome c) ->
     update_category category_id novo_nome sample_store
     = (Ret false, sample_store)).
Proof.
  assert (inv_world sample_store) as Hw by (right; apply sample_store_inv).
  split; [exact Hw|].
  exact (category_names_unique_ci example_format_2f sample_store Hw).
Defined.

Lemma duplicate_category_post_flashes_success_witness :
  wf_store sample_store ∧
  mkCategory "2" "Mercado" ∈ stored_categories sample_store ∧
  lower (strip (default "" (form_get [("nome", " MERCADO ")] "nome")))
  = lower (c_nome (mkCategory "2" "Mercado")) ∧
  categorias POST [("nome", " MERCADO ")] sample_store
  = (Ret (Redirect "Categoria criada!" "success" ep_categorias), sample_store).
Proof.
  assert (mkCategory "2" "Mercado" ∈ stored_categories sample_store) as Hin.
  { by_evaluation. }
  assert (lower (strip (default "" (form_get [("nome", " MERCADO ")] "nome")))
          = lower (c_nome (mkCategory "2" "Mercado"))) as Hn by reflexivity.
  split_and!; [apply sample_store_wf|exact Hin|exact Hn|].
  exact (duplicate_category_post_flashes_success sample_store
           [("nome", " MERCADO ")] (mkCategory "2" "Mercado")
           sample_store_wf Hin Hn).
Defined.

Example sample_reached_files :
  categories_csv sample_reached
  = Some [["id"; "nome"]; ["1"; "Outros"]; ["2"; "Mercado"]] ∧
  expenses_csv sample_reached
  = Some [["id"; "data"; "descricao"; "valor"; "categoria_id"; "anotacao"];
          ["1"; "2024-01-05"; "pao"; "3.50"; "2"; ""]].
Proof. by vm_compute. Qed.

(** ** The ids of the rows *)

Section Ids.

Context (format_2f : pyfloat -> string).
Implicit Types (cats : list category) (exps : list expense) (log : list event).





End Ids.



(** The new id at work: on the sample store [add_category] gives a new
    name the id ["4"], above the three stored. *)
Example add_category_sample :
  stored_categories (add_category " Lazer " sample_store).2
  = [mkCategory "1" "Outros"; mkCategory "2" "Mercado"; mkCategory "3" "Casa";
     mkCategory "4" "Lazer"].
Proof. by vm_compute. Qed.


(** ** Validation of the expense forms *)

Section Validation.

Context (format_2f : pyfloat -> string).

Lemma strip_categoria_input f : strip (categoria_input f) = categoria_input f.
Proof. apply strip_idemp. Qed.

(** Both expense handlers answer a request that fails the validation with
    the same error and leave the world as it is. *)
Lemma expense_form_rejected f w :
  wf_store w -> expense_form_invalid f w ->
  ∃ msg,
    adicionar format_2f f w = (Ret (Redirect msg "error" ep_index), w) ∧
    ∀ expense_id,
      editar_lancamento format_2f expense_id f w
      = (Ret (Redirect msg "error" ep_index), w).
Proof.
  intros (cats & exps & Hw & [Hwc _] & _) Hinv. rewrite Hw in *.
  set (w0 := store_of cats exps (io_log w)) in *.
  unfold adicionar, editar_lancamento, expense_form_invalid in *.
  destruct (strip (default "" (form_get f "data"))) as [|a1 s1] eqn:E1;
    [eexists; split; [done|by intros]|].
  destruct (strip (default "" (form_get f "descricao"))) as [|a2 s2] eqn:E2;
    [eexists; split; [done|by intros]|].
  destruct (strip (default "" (form_get f "valor"))) as [|a3 s3] eqn:E3;
    [eexists; split; [done|by intros]|].
  destruct (categoria_input f) as [|a4 s4] eqn:E4;
    [eexists; split; [done|by intros]|].
  cbn [truthy negb orb].
  destruct (strptime _) as [d|] eqn:Ed; [|eexists; split; [done|by intros]].
  destruct (float _) as [v|] eqn:Ev; [|eexists; split; [done|by intros]].
  unfold bind.
  destruct (resolve_category_id_store_of (String a4 s4) cats exps (io_log w) Hwc)
    as (r & Hr & _).
  fold w0 in Hr. rewrite Hr in *.
  destruct r as [[|a5 s5]|]; cbn [default from_option id truthy negb];
    [eexists; split; [done|by intros]| |eexists; split; [done|by intros]].
  exfalso. destruct Hinv as [?|[?|[?|[?|[?|[?|?]]]]]]; done.
Qed.

Lemma resolve_unknown identifier w :
  wf_store w ->
  (∀ c, c ∈ stored_categories w ->
        strip identifier ≠ c_id c ∧
        lower (strip identifier) ≠ lower (c_nome c)) ->
  resolve_category_id identifier w = (Ret None, w).
Proof.
  intros (cats & exps & Hw & [Hwc _] & _) Hno. rewrite Hw in *.
  rewrite stored_categories_store_of in Hno by done.
  destruct (resolve_category_id_store_of identifier cats exps (io_log w) Hwc)
    as (r & -> & Hr).
  assert (r = None) as ->; [|done]. apply Hr. by right.
Qed.

End Validation.


(** C6. On a well-formed store, when the category field of an
    expense-creation request equals no stored id and, up to case, no
    stored name, [resolve_category_id] returns [None], the handler answers
    with an error message and the world is left as it was, so no expense
    row is appended; when the other fields are valid the message is the
    one about the category. *)
Theorem unknown_category_rejected
    (format_2f : pyfloat -> string) (f : list (string * string)) (w : world) :
  wf_store w ->
  (∀ c, c ∈ stored_categories w ->
        categoria_input f ≠ c_id c ∧
        lower (categoria_input f) ≠ lower (c_nome c)) ->
  resolve_category_id (categoria_input f) w = (Ret None, w) ∧
  ∃ msg,
    adicionar format_2f f w = (Ret (Redirect msg "error" ep_index), w) ∧
    stored_expenses (adicionar format_2f f w).2 = stored_expenses w ∧
    (other_fields_valid f -> categoria_input f ≠ "" ->
     msg = "Categoria informada não foi encontrada.").
Proof.
  intros Hwf Hno.
  assert (resolve_category_id (categoria_input f) w = (Ret None, w)) as Hres.
  { apply resolve_unknown; [done|]. by rewrite strip_categoria_input. }
  split; [done|].
  destruct (expense_form_rejected format_2f f w Hwf) as (msg & Hmsg & _).
  { unfold expense_form_invalid. rewrite Hres. tauto. }
  exists msg. rewrite Hmsg. split_and!; [done..|].
  intros (H1 & H2 & H3 & [d Hd] & [v Hv]) H4.
  unfold adicionar in Hmsg.
  rewrite (proj2 (truthy_true _)), (proj2 (truthy_true _)),
    (proj2 (truthy_true _)), (proj2 (truthy_true _)) in Hmsg by done.
  cbn [negb orb] in Hmsg. rewrite Hd, Hv in Hmsg.
  unfold bind in Hmsg. rewrite Hres in Hmsg. cbn in Hmsg.
  unfold ret in Hmsg. congruence.
Qed.


Lemma sample_store_categories :
  stored_categories sample_store
  = [mkCategory "1" "Outros"; mkCategory "2" "Mercado"; mkCategory "3" "Casa"].
Proof. by vm_compute. Qed.

Lemma unknown_category_rejected_witness :
  wf_store sample_store ∧
  (∀ c, c ∈ stored_categories sample_store ->
        categoria_input form_unknown_category ≠ c_id c ∧
        lower (categoria_input form_unknown_category) ≠ lower (c_nome c)) ∧
  resolve_category_id (categoria_input form_unknown_category) sample_store
  = (Ret None, sample_store) ∧
  ∃ msg,
    adicionar example_format_2f form_unknown_category sample_store
    = (Ret (Redirect msg "error" ep_index), sample_store) ∧
    stored_expenses
      (adicionar example_format_2f form_unknown_category sample_store).2
    = stored_expenses sample_store ∧
    (other_fields_valid form_unknown_category ->
     categoria_input form_unknown_category ≠ "" ->
     msg = "Categoria informada não foi encontrada.").
Proof.
  assert (∀ c, c ∈ stored_categories sample_store ->
               categoria_input form_unknown_category ≠ c_id c ∧
               lower (categoria_input form_unknown_category) ≠ lower (c_nome c))
    as Hno.
  { intros c. rewrite sample_store_categories.
    intros Hc. repeat (apply elem_of_cons in Hc as [->|Hc]);
      [split; intros H; vm_compute in H; discriminate..|].
    by apply elem_of_nil in Hc. }
  split_and!; [apply sample_store_wf|exact Hno|..];
    apply (unknown_category_rejected example_format_2f form_unknown_category
             sample_store sample_store_wf Hno).
Defined.

(** ** Reading the expenses *)

Section Reading.

Context (format_2f : pyfloat -> string).

Lemma categories_by_id_lookup_None k (l : list category)
    (d : gmap string string) :
  k ∉ c_id <$> l ->
  foldl (fun d c => <[c_id c := c_nome c]> d) d l !! k = d !! k.
Proof.
  revert d. induction l as [|c l IH]; intros d Hk; [done|].
  rewrite fmap_cons, not_elem_of_cons in Hk. destruct Hk as [Hne Hk].
  cbn [foldl]. rewrite IH by done. by apply lookup_insert_ne.
Qed.

Lemma process_orphan (by_id : gmap string string) e :
  by_id !! e_categoria_id e = None ->
  let p := process format_2f by_id e in
  p_id p = e_id e ∧ p_categoria_id p = e_categoria_id e ∧
  p_categoria_nome p = "Categoria removida" ∧
  p_categoria p = "Categoria removida".
Proof.
  intros Hk. cbn [process p_id p_categoria_id p_categoria_nome p_categoria].
  by rewrite Hk.
Qed.

End Reading.

(** C9. On a well-formed store, [read_expenses] returns every stored
    expense whose [categoria_id] is the id of no stored category with the
    category name "Categoria removida" and with its [categoria_id] as it is
    stored; the read leaves the world as it was, so the stored
    [categoria_id] is not reassigned. *)
Theorem orphan_expense_shown_not_reassigned
    (format_2f : pyfloat -> string) (w : world) (e : expense) :
  wf_store w ->
  e ∈ stored_expenses w ->
  e_categoria_id e ∉ c_id <$> stored_categories w ->
  ∃ ps p,
    read_expenses format_2f w = (Ret ps, w) ∧
    p ∈ ps ∧
    p_id p = e_id e ∧
    p_categoria_id p = e_categoria_id e ∧
    p_categoria_nome p = "Categoria removida" ∧
    p_categoria p = "Categoria removida" ∧
    e ∈ stored_expenses (read_expenses format_2f w).2.
Proof.
  intros (cats & exps & Hw & [Hwc _] & [Hwe _]) He Hk. rewrite Hw in *.
  rewrite stored_categories_store_of in Hk by done.
  rewrite stored_expenses_store_of in He by done.
  rewrite read_expenses_store_of by done.
  eexists _, (process format_2f _ e). split; [done|].
  split; [by apply elem_of_sorted, list_elem_of_fmap_2|].
  cbn [snd]. rewrite stored_expenses_store_of by done.
  assert (foldl (fun d c => <[c_id c := c_nome c]> d) (∅ : gmap string string)
            (sorted String.leb (fun c => lower (c_nome c)) cats)
          !! e_categoria_id e = None) as Hnone.
  { rewrite categories_by_id_lookup_None; [done|]. by rewrite sorted_perm. }
  destruct (process_orphan format_2f _ e Hnone) as (? & ? & ? & ?).
  done.
Qed.

Lemma orphan_expense_shown_not_reassigned_witness :
  wf_store sample_store ∧
  sample_orphan ∈ stored_expenses sample_store ∧
  (e_categoria_id sample_orphan ∉ c_id <$> stored_categories sample_store) ∧
  ∃ ps p,
    read_expenses example_format_2f sample_store = (Ret ps, sample_store) ∧
    p ∈ ps ∧
    p_id p = e_id sample_orphan ∧
    p_categoria_id p = e_categoria_id sample_orphan ∧
    p_categoria_nome p = "Categoria removida" ∧
    p_categoria p = "Categoria removida" ∧
    sample_orphan
    ∈ stored_expenses (read_expenses example_format_2f sample_store).2.
Proof.
  assert (sample_orphan ∈ stored_expenses sample_store) as Hin.
  { by_evaluation. }
  assert (e_categoria_id sample_orphan
          ∉ c_id <$> stored_categories sample_store) as Hk.
  { by_evaluation. }
  split_and!; [apply sample_store_wf|exact Hin|exact Hk|].
  exact (orphan_expense_shown_not_reassigned example_format_2f sample_store
           sample_orphan sample_store_wf Hin Hk).
Defined.

Example read_expenses_sample :
  (read_expenses example_format_2f sample_store).1
  = Ret [mkProcessed "3" "2024-01-07" "taxi" "12.00" (FDec false 1200 (-2))
                     "9" "Categoria removida" "Categoria removida"
                     "sem categoria";
         mkProcessed "2" "2024-01-06" "luz" "30.50" (FDec false 3050 (-2))
                     "3" "Casa" "Casa" "";
         mkProcessed "1" "2024-01-05" "pao" "3.50" (FDec false 350 (-2))
                     "2" "Mercado" "Mercado" ""].
Proof. by vm_compute. Qed.

(** ** Amounts *)

Section AmountFacts.












End AmountFacts.


Example amounts_parsed :
  float (replace "," "." "3,50") = Some (FDec false 350 (-2)) ∧
  float (replace "," "." "3.50") = Some (FDec false 350 (-2)) ∧
  float (replace "," "." "1.234,5") = None ∧
  float (replace "," "." ",") = None ∧
  float (replace "," "." "1e3") = Some (FDec false 1 3) ∧
  float (replace "," "." " -7 ") = Some (FDec true 7 0).
Proof. by vm_compute. Qed.

(** ** Migration of a legacy categories file *)

(** What the migration does with any legacy categories file: the file it
    writes has the current header and one row per name, numbered from 1;
    the names are pairwise different, "Outros" is one of them, and the
    others are the names of the legacy file. *)

Section Migration.

Lemma normalize_names_spec (names : list string) (seen0 : gset string)
    (acc0 : list string) :
  (∀ x, x ∈ seen0 <-> x ∈ acc0) -> NoDup acc0 ->
  let '(seen, acc) := foldl normalize_step (seen0, acc0) names in
  (∀ x, x ∈ seen <-> x ∈ acc) ∧ NoDup acc ∧
  ∀ x, x ∈ acc <-> x ∈ acc0 ∨ x ∈ names.
Proof.
  revert seen0 acc0. induction names as [|n names IH]; intros seen0 acc0 Hs Hnd.
  - cbn [foldl]. split_and!; [done..|]. intros x. rewrite elem_of_nil. tauto.
  - cbn [foldl normalize_step]. destruct (decide (n ∈ seen0)) as [Hin|Hnin].
    + specialize (IH seen0 acc0 Hs Hnd). destruct (foldl _ _ _) as [seen acc].
      destruct IH as (H1 & H2 & H3). split_and!; [done..|].
      intros x. rewrite H3, elem_of_cons. split; [tauto|].
      intros [?|[->|?]]; [tauto| |tauto]. left. by apply Hs.
    + assert (∀ x, x ∈ {[n]} ∪ seen0 <-> x ∈ acc0 ++ [n]) as Hs'.
      { intros x. rewrite elem_of_union, elem_of_singleton, elem_of_app,
          list_elem_of_singleton, Hs. tauto. }
      assert (NoDup (acc0 ++ [n])) as Hnd'.
      { apply NoDup_app. split_and!; [done| |apply NoDup_singleton].
        intros x Hx ->%list_elem_of_singleton. apply Hnin. by apply Hs. }
      specialize (IH _ _ Hs' Hnd'). destruct (foldl _ _ _) as [seen acc].
      destruct IH as (H1 & H2 & H3). split_and!; [done..|].
      intros x. rewrite H3, elem_of_app, list_elem_of_singleton, elem_of_cons.
      tauto.
Qed.

Lemma enumerate_rows_lookup start names (i : nat) name :
  names !! i = Some name ->
  enumerate_rows start names !! i = Some [str (start + Z.of_nat i); name].
Proof.
  revert start i. induction names as [|n names IH]; intros start i; [done|].
  destruct i as [|i]; cbn [enumerate_rows].
  - intros [= ->]. cbn [lookup list_lookup]. by rewrite Z.add_0_r.
  - intros H. change (enumerate_rows (start + 1) names !! i
                      = Some [str (start + Z.of_nat (S i)); name]).
    rewrite (IH (start + 1) i H). do 3 f_equal. lia.
Qed.

Lemma enumerate_rows_length start names :
  length (enumerate_rows start names) = length names.
Proof.
  revert start. induction names as [|n names IH]; intros start; [done|].
  cbn. by rewrite IH.
Qed.

Lemma upgrade_categories_file_legacy rows first rest w :
  categories_csv w = Some rows ->
  filter (fun r => nonblank r = true) rows = first :: rest ->
  header_is_current (strip <$> first) = false ->
  ∃ names,
    upgrade_categories_file w
    = (Ret tt,
       store CATEGORIES_FILE (categories_header :: enumerate_rows 1 names) w) ∧
    NoDup names ∧ "Outros" ∈ names ∧
    ∀ x, x ∈ names <-> x = "Outros" ∨ x ∈ legacy_names rest.
Proof.
  intros Hc Hf Hh. unfold upgrade_categories_file, bind, read_rows.
  cbn [content]. rewrite Hc, Hf, Hh. unfold normalize_names.
  pose proof (normalize_names_spec (legacy_names rest) ∅ []) as Hspec.
  destruct (foldl _ _ _) as [seen acc].
  destruct Hspec as (H1 & H2 & H3); [set_solver|apply NoDup_nil_2|].
  destruct (decide ("Outros" ∈ seen)) as [Hin|Hnin].
  - exists acc. split_and!; [done..|by apply H1|].
    intros x. rewrite H3, elem_of_nil. split; [tauto|].
    intros [->|?]; [|tauto]. apply H1, H3 in Hin.
    rewrite elem_of_nil in Hin. tauto.
  - exists ("Outros" :: acc). split_and!; [done| |apply elem_of_cons; by left|].
    + apply NoDup_cons. split; [|done]. intros Hx. apply Hnin. by apply H1.
    + intros x. rewrite elem_of_cons, H3, elem_of_nil. tauto.
Qed.

End Migration.

(** C2, at a legacy file that lists "Outros" after another name.  The
    migration writes a file in the current schema and keeps each name once
    under its own id, but it numbers the names in their order: "Mercado"
    gets the reserved id ["1"] and "Outros" the id ["2"].  From then on
    [delete_category] refuses to delete "Mercado" and deletes "Outros". *)
Theorem migration_numbers_outros_in_place :
  let w' := (ensure_storage legacy_world).2 in
  (ensure_storage legacy_world).1 = Ret tt ∧
  categories_csv w'
  = Some [["id"; "nome"]; ["1"; "Mercado"]; ["2"; "Outros"]] ∧
  stored_categories w' = [mkCategory "1" "Mercado"; mkCategory "2" "Outros"] ∧
  (delete_category "1" w').1 = Ret false ∧
  (delete_category "2" w').1 = Ret true ∧
  stored_categories (delete_category "2" w').2 = [mkCategory "1" "Mercado"].
Proof. vm_compute. repeat split; reflexivity. Qed.

(** * Further properties of the code *)

(** ** [ensure_storage]: creation and migration *)

Section Schema.

Lemma file_current_app rows more :
  file_current (Some rows) = true -> file_current (Some (rows ++ more)) = true.
Proof.
  unfold file_current. rewrite filter_app.
  by destruct (filter _ rows).
Qed.

Lemma file_current_header h rows :
  nonblank h = true -> header_is_current (strip <$> h) = true ->
  file_current (Some (h :: rows)) = true.
Proof. intros Hh Hc. unfold file_current. by rewrite filter_cons_True. Qed.

Lemma upgrade_categories_file_noop w :
  file_current (categories_csv w) = true ->
  upgrade_categories_file w = (Ret tt, w).
Proof.
  unfold file_current, upgrade_categories_file, bind, read_rows. cbn [content].
  destruct (categories_csv w) as [rows|]; [|done].
  destruct (filter _ rows) as [|first rest]; [done|]. by intros ->.
Qed.

Lemma upgrade_expenses_file_noop w :
  file_current (expenses_csv w) = true ->
  upgrade_expenses_file w = (Ret tt, w).
Proof.
  unfold file_current, upgrade_expenses_file, bind, read_rows. cbn [content].
  destruct (expenses_csv w) as [rows|]; [|done].
  destruct (filter _ rows) as [|first rest]; [done|]. by intros ->.
Qed.

Lemma ensure_storage_noop w :
  current_schema w = true -> ensure_storage w = (Ret tt, w).
Proof.
  intros [Hc He]%andb_true_iff. unfold ensure_storage, bind, exists_.
  cbn [content].
  assert (is_Some (categories_csv w)) as Hsc.
  { destruct (categories_csv w); [by eexists|done]. }
  assert (is_Some (expenses_csv w)) as Hse.
  { destruct (expenses_csv w); [by eexists|done]. }
  rewrite bool_decide_eq_true_2 by done. cbn [negb].
  rewrite upgrade_categories_file_noop by done.
  rewrite bool_decide_eq_true_2 by done. cbn [negb].
  by apply upgrade_expenses_file_noop.
Qed.

(** The categories step of [ensure_storage] never raises, leaves the
    expenses file alone and leaves a categories file in the current
    schema. *)
Lemma ensure_categories_current w :
  ∃ w1,
    (if negb (bool_decide (is_Some (categories_csv w)))
     then write_rows CATEGORIES_FILE [categories_header; ["1"; "Outros"]]
     else upgrade_categories_file) w = (Ret tt, w1) ∧
    file_current (categories_csv w1) = true ∧
    expenses_csv w1 = expenses_csv w.
Proof.
  destruct (categories_csv w) as [rows|] eqn:Hc.
  - rewrite bool_decide_eq_true_2 by eauto. cbn [negb].
    unfold upgrade_categories_file, bind, read_rows. cbn [content]. rewrite Hc.
    destruct (filter _ rows) as [|first rest] eqn:Hf.
    { eexists. split; [done|]. by split. }
    destruct (header_is_current _) eqn:Hh.
    { exists w. split_and!; [done| |done].
      unfold file_current. by rewrite Hc, Hf. }
    destruct (normalize_names _) as [seen names].
    eexists. split; [done|]. split; [|done].
    cbn [write_rows store categories_csv snd]. by apply file_current_header.
  - rewrite bool_decide_eq_false_2 by (by intros [? ?]). cbn [negb].
    eexists. split; [done|]. by split.
Qed.

Lemma upgrade_expenses_file_current w w' :
  file_current (categories_csv w) = true ->
  is_Some (expenses_csv w) ->
  upgrade_expenses_file w = (Ret tt, w') -> current_schema w' = true.
Proof.
  intros Hcur [rows Hr]. unfold upgrade_expenses_file, bind, read_rows.
  cbn [content]. rewrite Hr.
  destruct (filter _ rows) as [|first rest] eqn:Hf.
  { intros [= <-]. unfold current_schema.
    cbn [write_rows store categories_csv expenses_csv snd]. by rewrite Hcur. }
  destruct (header_is_current _) eqn:Hh.
  { intros [= <-]. unfold current_schema. rewrite Hcur. cbn [andb].
    unfold file_current. by rewrite Hr, Hf. }
  unfold load_categories_for_upgrade, bind, exists_, read_rows.
  cbn [content].
  destruct (categories_csv w) as [crows|] eqn:Hc; [|done].
  rewrite bool_decide_eq_true_2 by eauto. cbn [negb content]. rewrite Hc.
  unfold ret at 1. unfold lift.
  match goal with |- context [max_default0 ?l] =>
    destruct (max_default0 l) as [m|e]; [|done] end.
  cbn [write_rows].
  match goal with |- context [u_new_categories ?st] =>
    destruct (u_new_categories st) as [|nc ncs] end.
  - intros [= <-]. unfold current_schema.
    cbn [store categories_csv expenses_csv]. rewrite Hc, Hcur. done.
  - unfold append_categories, append_rows. intros [= <-].
    unfold current_schema.
    cbn [store content categories_csv expenses_csv from_option id].
    rewrite Hc. cbn [from_option id]. rewrite file_current_app by done. done.
Qed.

(** After it returns, [ensure_storage] has put both files in the current
    schema. *)
Lemma ensure_storage_current w w' :
  ensure_storage w = (Ret tt, w') -> current_schema w' = true.
Proof.
  unfold ensure_storage, bind, exists_. cbn [content].
  destruct (ensure_categories_current w) as (w1 & -> & Hc1 & He1).
  destruct (expenses_csv w1) as [rows|] eqn:Hr.
  - rewrite bool_decide_eq_true_2 by eauto. cbn [negb].
    apply upgrade_expenses_file_current; [done|]. rewrite Hr. by eexists.
  - rewrite bool_decide_eq_false_2 by (by intros [? ?]). cbn [negb].
    intros [= <-]. unfold current_schema.
    cbn [write_rows store categories_csv expenses_csv snd]. by rewrite Hc1.
Qed.

End Schema.

(** X1. [ensure_storage] is idempotent: on the world a successful call
    leaves, in any state of the data directory, a second call changes
    nothing and writes nothing. *)
Theorem ensure_storage_idempotent (w w' : world) :
  ensure_storage w = (Ret tt, w') -> ensure_storage w' = (Ret tt, w').
Proof. intros H. by apply ensure_storage_noop, (ensure_storage_current w). Qed.

Lemma ensure_storage_idempotent_witness :
  ensure_storage legacy_both = (Ret tt, (ensure_storage legacy_both).2) ∧
  ensure_storage (ensure_storage legacy_both).2
  = (Ret tt, (ensure_storage legacy_both).2).
Proof.
  assert (ensure_storage legacy_both = (Ret tt, (ensure_storage legacy_both).2))
    as H by (by vm_compute).
  split; [exact H|].
  exact (ensure_storage_idempotent legacy_both (ensure_storage legacy_both).2 H).
Defined.

Example ensure_storage_legacy_both :
  categories_csv (ensure_storage legacy_both).2
  = Some [["id"; "nome"]; ["1"; "Mercado"]; ["2"; "Outros"];
          ["3"; "Transporte"]] ∧
  expenses_csv (ensure_storage legacy_both).2
  = Some [["id"; "data"; "descricao"; "valor"; "categoria_id"; "anotacao"];
          ["1"; "2023-05-01"; "pao"; "3,50"; "1"; ""];
          ["2"; "2023-05-02"; "onibus"; "4.40"; "3"; "ida"];
          ["3"; "2023-05-03"; "cafe"; "2"; "2"; ""]].
Proof. by vm_compute. Qed.

(** X2. A categories file whose first non-blank row does not start with
    [id] is rewritten by [upgrade_categories_file] with the header
    [id, nome] and one row per name, numbered from 1 in their order; the
    names are pairwise different, "Outros" is among them, and the others
    are exactly the stripped non-empty first cells of the rows after the
    first. *)
Theorem legacy_categories_migrated (w : world) (rows : list (list string))
    (first : list string) (rest : list (list string)) :
  categories_csv w = Some rows ->
  filter (fun r => nonblank r = true) rows = first :: rest ->
  header_is_current (strip <$> first) = false ->
  ∃ names,
    upgrade_categories_file w
    = (Ret tt,
       store CATEGORIES_FILE (categories_header :: enumerate_rows 1 names) w) ∧
    NoDup names ∧ "Outros" ∈ names ∧
    (∀ x, x ∈ names <-> x = "Outros" ∨ x ∈ legacy_names rest) ∧
    (∀ (i : nat) name,
       names !! i = Some name ->
       enumerate_rows 1 names !! i = Some [str (1 + Z.of_nat i); name]) ∧
    length (enumerate_rows 1 names) = length names.
Proof.
  intros Hc Hf Hh.
  destruct (upgrade_categories_file_legacy rows first rest w Hc Hf Hh)
    as (names & Hu & Hnd & Ho & Hn).
  exists names. split_and!; [done..| |apply enumerate_rows_length].
  intros i name. apply enumerate_rows_lookup.
Qed.

Lemma legacy_categories_migrated_witness :
  categories_csv legacy_both = Some [["nome"]; ["Mercado"]; ["Outros"]] ∧
  filter (fun r => nonblank r = true) [["nome"]; ["Mercado"]; ["Outros"]]
  = ["nome"] :: [["Mercado"]; ["Outros"]] ∧
  header_is_current (strip <$> ["nome"]) = false ∧
  ∃ names,
    upgrade_categories_file legacy_both
    = (Ret tt,
       store CATEGORIES_FILE (categories_header :: enumerate_rows 1 names)
             legacy_both) ∧
    NoDup names ∧ "Outros" ∈ names ∧
    (∀ x, x ∈ names <-> x = "Outros" ∨ x ∈ legacy_names [["Mercado"]; ["Outros"]]) ∧
    (∀ (i : nat) name,
       names !! i = Some name ->
       enumerate_rows 1 names !! i = Some [str (1 + Z.of_nat i); name]) ∧
    length (enumerate_rows 1 names) = length names.
Proof.
  split_and!; [reflexivity..|].
  exact (legacy_categories_migrated legacy_both
           [["nome"]; ["Mercado"]; ["Outros"]] ["nome"]
           [["Mercado"]; ["Outros"]] eq_refl eq_refl eq_refl).
Defined.

Section Failure.

Lemma max_id_of_bad (ids : list string) i :
  i ∈ ids -> int i = None -> max_id_of ids = Raise ValueError.
Proof.
  intros Hin Hi. induction ids as [|j ids IH]; [by apply elem_of_nil in Hin|].
  cbn [max_id_of]. destruct (int j) as [n|] eqn:Hj; [|done].
  apply elem_of_cons in Hin as [->|Hin]; [congruence|].
  by rewrite IH.
Qed.

Lemma load_categories_for_upgrade_rows (cats : list category) w :
  categories_csv w = Some (categories_header :: (category_row <$> cats)) ->
  load_categories_for_upgrade w
  = (Ret (omap (fun c =>
                  if truthy (c_id c) && truthy (c_nome c)
                  then Some (mkCategory (strip (c_id c)) (strip (c_nome c)))
                  else None) cats), w).
Proof.
  intros Hc. unfold load_categories_for_upgrade, bind, exists_, read_rows.
  cbn [content]. rewrite Hc. rewrite bool_decide_eq_true_2 by eauto.
  cbn [negb]. rewrite Hc. unfold ret. rewrite DictReader_categories.
  do 2 f_equal. clear Hc.
  induction cats as [|c cats IH]; [done|].
  rewrite fmap_cons. cbn [omap list_omap].
  rewrite get_category_id, get_category_nome. by rewrite IH.
Qed.

End Failure.

(** X3. The migration of a legacy expenses file fails on a category id
    that is not an integer.  When the categories file is in the current
    schema and holds a row with a non-empty name and a non-empty id that
    [int] rejects, and the first non-blank row of the expenses file does
    not start with [id], [ensure_storage] raises [ValueError], from
    [int(cat["id"])] in [upgrade_expenses_file], and writes nothing. *)
Theorem ensure_storage_bad_category_id
    (w : world) (cats : list category) (c : category)
    (rows : list (list string)) (first : list string)
    (rest : list (list string)) :
  categories_csv w = Some (categories_header :: (category_row <$> cats)) ->
  c ∈ cats -> c_id c ≠ "" -> c_nome c ≠ "" -> int (strip (c_id c)) = None ->
  expenses_csv w = Some rows ->
  filter (fun r => nonblank r = true) rows = first :: rest ->
  header_is_current (strip <$> first) = false ->
  ensure_storage w = (Raise ValueError, w).
Proof.
  intros Hc Hin Hi Hn Hint He Hf Hh.
  unfold ensure_storage, bind, exists_. cbn [content].
  rewrite Hc. rewrite bool_decide_eq_true_2 by eauto. cbn [negb].
  rewrite upgrade_categories_file_noop
    by (rewrite Hc; by apply file_current_header).
  rewrite He. rewrite bool_decide_eq_true_2 by eauto. cbn [negb].
  unfold upgrade_expenses_file, bind, read_rows. cbn [content].
  rewrite He, Hf, Hh.
  rewrite (load_categories_for_upgrade_rows cats) by done.
  unfold lift, max_default0.
  erewrite max_id_of_bad; [done| |exact Hint].
  apply (list_elem_of_fmap_2 c_id _ (mkCategory (strip (c_id c)) (strip (c_nome c)))).
  apply list_elem_of_omap. exists c. split; [done|].
  by rewrite !(proj2 (truthy_true _)) by done.
Qed.

Lemma ensure_storage_bad_category_id_witness :
  categories_csv legacy_bad_ids
  = Some (categories_header :: (category_row <$> [mkCategory "um" "Outros"])) ∧
  mkCategory "um" "Outros" ∈ [mkCategory "um" "Outros"] ∧
  int (strip (c_id (mkCategory "um" "Outros"))) = None ∧
  header_is_current
    (strip <$> ["data"; "descricao"; "valor"; "categoria"; "anotacao"])
  = false ∧
  ensure_storage legacy_bad_ids = (Raise ValueError, legacy_bad_ids).
Proof.
  assert (mkCategory "um" "Outros" ∈ [mkCategory "um" "Outros"]) as Hin.
  { apply elem_of_cons. by left. }
  split_and!; [reflexivity|exact Hin|reflexivity|reflexivity|].
  apply (ensure_storage_bad_category_id legacy_bad_ids
           [mkCategory "um" "Outros"] (mkCategory "um" "Outros")
           [["data"; "descricao"; "valor"; "categoria"; "anotacao"];
            ["2023-05-01"; "pao"; "3,50"; "Mercado"; ""]]
           ["data"; "descricao"; "valor"; "categoria"; "anotacao"]
           [["2023-05-01"; "pao"; "3,50"; "Mercado"; ""]]);
    [reflexivity|exact Hin|done|done|reflexivity|reflexivity|by vm_compute
    |reflexivity].
Defined.

(** ** Saving and loading *)

Section RoundTrips.

Lemma categories_of_rows cs :
  categories_of ((fun c => dict_row categories_header (category_row c)) <$> cs)
  = Ret (normalized_categories cs).
Proof.
  induction cs as [|c cs IH]; [done|].
  rewrite fmap_cons. cbn [categories_of].
  rewrite get_category_id, get_category_nome. cbn [strip_of obind].
  rewrite IH. cbn [obind]. unfold normalized_categories. cbn [omap list_omap].
  by destruct (truthy (strip (c_id c)) && truthy (strip (c_nome c))).
Qed.

Lemma expenses_of_rows es :
  expenses_of ((fun e => dict_row expenses_header (expense_row e)) <$> es)
  = Ret (normalized_expenses es).
Proof.
  induction es as [|e es IH]; [done|].
  rewrite fmap_cons. cbn [expenses_of].
  rewrite get_expense_id. cbn [strip_of obind].
  unfold normalized_expenses. cbn [omap list_omap].
  destruct (truthy (strip (e_id e))); cbn [negb]; [|exact IH].
  rewrite get_expense_data, get_expense_descricao, get_expense_valor,
    get_expense_categoria_id, get_expense_anotacao.
  cbn [strip_of obind from_option id]. rewrite IH. done.
Qed.

Lemma normalized_categories_id cs :
  Forall (fun c => strip (c_id c) = c_id c ∧ c_id c ≠ "" ∧
                   strip (c_nome c) = c_nome c ∧ c_nome c ≠ "") cs ->
  normalized_categories cs = cs.
Proof.
  induction 1 as [|c cs (Hi & Hin & Hn & Hnn) _ IH]; [done|].
  unfold normalized_categories in *. cbn [omap list_omap].
  rewrite Hi, Hn, (proj2 (truthy_true _) Hin), (proj2 (truthy_true _) Hnn).
  cbn [andb]. rewrite IH. by destruct c.
Qed.

Lemma normalized_expenses_id es :
  Forall (fun e => stripped_expense e = e ∧ e_id e ≠ "") es ->
  normalized_expenses es = es.
Proof.
  induction 1 as [|e es (Hs & Hne) _ IH]; [done|].
  unfold normalized_expenses in *. cbn [omap list_omap].
  assert (strip (e_id e) = e_id e) as -> by (by rewrite <- Hs at 2).
  rewrite (proj2 (truthy_true _) Hne), Hs, IH. done.
Qed.

End RoundTrips.

(** X4. Saving a list of categories and loading it again, in any state
    of the data directory in which [ensure_storage] succeeds, returns the
    categories with both fields stripped, without those whose stripped id
    or name is empty; it returns the list itself when the fields are
    stripped and not empty. *)
Theorem save_then_load_categories
    (cs : list category) (w w0 : world) :
  ensure_storage w = (Ret tt, w0) ->
  bind (save_categories cs) (fun _ => load_categories_raw) w
  = (Ret (normalized_categories cs),
     store CATEGORIES_FILE (categories_header :: (category_row <$> cs)) w0) ∧
  (Forall (fun c => strip (c_id c) = c_id c ∧ c_id c ≠ "" ∧
                    strip (c_nome c) = c_nome c ∧ c_nome c ≠ "") cs ->
   normalized_categories cs = cs).
Proof.
  intros Hw. split; [|apply normalized_categories_id].
  pose proof (ensure_storage_current w w0 Hw) as [_ He]%andb_true_iff.
  unfold bind at 1. unfold save_categories, bind at 1. rewrite Hw.
  cbn [write_rows]. unfold load_categories_raw, bind.
  rewrite ensure_storage_noop.
  - unfold read_rows, lift. cbn [content store categories_csv].
    by rewrite DictReader_categories, categories_of_rows.
  - unfold current_schema. cbn [store categories_csv expenses_csv].
    rewrite He. by rewrite file_current_header.
Qed.

Lemma save_then_load_categories_witness :
  ensure_storage empty_dir = (Ret tt, initial) ∧
  bind (save_categories [mkCategory " 7 " "Lazer "; mkCategory "8" " "])
       (fun _ => load_categories_raw) empty_dir
  = (Ret (normalized_categories [mkCategory " 7 " "Lazer "; mkCategory "8" " "]),
     store CATEGORIES_FILE
       (categories_header
        :: (category_row <$> [mkCategory " 7 " "Lazer "; mkCategory "8" " "]))
       initial) ∧
  (Forall (fun c => strip (c_id c) = c_id c ∧ c_id c ≠ "" ∧
                    strip (c_nome c) = c_nome c ∧ c_nome c ≠ "")
          [mkCategory " 7 " "Lazer "; mkCategory "8" " "] ->
   normalized_categories [mkCategory " 7 " "Lazer "; mkCategory "8" " "]
   = [mkCategory " 7 " "Lazer "; mkCategory "8" " "]).
Proof.
  split; [reflexivity|].
  exact (save_then_load_categories
           [mkCategory " 7 " "Lazer "; mkCategory "8" " "] empty_dir initial
           eq_refl).
Defined.

Example normalized_categories_example :
  normalized_categories [mkCategory " 7 " "Lazer "; mkCategory "8" " "]
  = [mkCategory "7" "Lazer"].
Proof. reflexivity. Qed.

(** X5. Saving a list of expenses and loading it again, in any state of
    the data directory in which [ensure_storage] succeeds, returns the
    expenses with every field stripped, without those whose stripped id is
    empty; it returns the list itself when the fields are stripped and the
    ids not empty. *)
Theorem save_then_load_expenses
    (es : list expense) (w w0 : world) :
  ensure_storage w = (Ret tt, w0) ->
  bind (save_expenses es) (fun _ => load_expenses_raw) w
  = (Ret (normalized_expenses es),
     store EXPENSES_FILE (expenses_header :: (expense_row <$> es)) w0) ∧
  (Forall (fun e => stripped_expense e = e ∧ e_id e ≠ "") es ->
   normalized_expenses es = es).
Proof.
  intros Hw. split; [|apply normalized_expenses_id].
  pose proof (ensure_storage_current w w0 Hw) as [Hc _]%andb_true_iff.
  unfold bind at 1. unfold save_expenses, bind at 1. rewrite Hw.
  cbn [write_rows]. unfold load_expenses_raw, bind.
  rewrite ensure_storage_noop.
  - unfold read_rows, lift. cbn [content store expenses_csv].
    by rewrite DictReader_expenses, expenses_of_rows.
  - unfold current_schema. cbn [store categories_csv expenses_csv].
    rewrite Hc. by rewrite file_current_header.
Qed.

Lemma save_then_load_expenses_witness :
  ensure_storage legacy_both = (Ret tt, (ensure_storage legacy_both).2) ∧
  bind (save_expenses [sample_orphan; mkExpense " " "d" "x" "1" "1" ""])
       (fun _ => load_expenses_raw) legacy_both
  = (Ret (normalized_expenses
            [sample_orphan; mkExpense " " "d" "x" "1" "1" ""]),
     store EXPENSES_FILE
       (expenses_header
        :: (expense_row <$> [sample_orphan; mkExpense " " "d" "x" "1" "1" ""]))
       (ensure_storage legacy_both).2) ∧
  (Forall (fun e => stripped_expense e = e ∧ e_id e ≠ "")
          [sample_orphan; mkExpense " " "d" "x" "1" "1" ""] ->
   normalized_expenses [sample_orphan; mkExpense " " "d" "x" "1" "1" ""]
   = [sample_orphan; mkExpense " " "d" "x" "1" "1" ""]).
Proof.
  assert (ensure_storage legacy_both = (Ret tt, (ensure_storage legacy_both).2))
    as H by (by vm_compute).
  split; [exact H|].
  exact (save_then_load_expenses
           [sample_orphan; mkExpense " " "d" "x" "1" "1" ""] legacy_both
           (ensure_storage legacy_both).2 H).
Defined.

(** ** [get_next_id] *)

Section NextId.

Lemma next_id_loop_ge field (l : list (gmap string (option string))) acc :
  acc <= foldl (next_id_step field) acc l ∧
  ∀ d v k, d ∈ l -> get d field (Some "0") = Some v -> int v = Some k ->
           k <= foldl (next_id_step field) acc l.
Proof.
  revert acc. induction l as [|d l IH]; intros acc.
  - split; [cbn; lia|]. intros d v k Hd. by apply elem_of_nil in Hd.
  - cbn [foldl]. destruct (IH (next_id_step field acc d)) as [Hacc Hin].
    assert (acc <= next_id_step field acc d) as Hstep.
    { unfold next_id_step. destruct (get d field _) as [v|]; [|lia].
      destruct (int v) as [k|]; [|lia]. destruct (Z.gtb_spec k acc); lia. }
    split; [lia|].
    intros d' v k [->|Hd]%elem_of_cons Hv Hk; [|by eapply Hin].
    assert (k <= next_id_step field acc d) as Hk'.
    { unfold next_id_step. rewrite Hv, Hk. destruct (Z.gtb_spec k acc); lia. }
    lia.
Qed.

End NextId.

Section NextIdFound.

Lemma next_id_loop_found field (l : list (gmap string (option string))) acc :
  foldl (next_id_step field) acc l = acc
  ∨ ∃ d v, d ∈ l ∧ get d field (Some "0") = Some v ∧
           int v = Some (foldl (next_id_step field) acc l).
Proof.
  revert acc. induction l as [|d l IH]; intros acc; [by left|].
  cbn [foldl]. destruct (IH (next_id_step field acc d)) as [Heq|(d' & v & Hd & Hv & Hk)].
  - rewrite Heq. unfold next_id_step.
    destruct (get d field (Some "0")) as [v|] eqn:Hv; [|by left].
    destruct (int v) as [k|] eqn:Hk; [|by left].
    destruct (k >? acc); [|by left].
    right. exists d, v. split_and!; [apply elem_of_cons; by left|done..].
  - right. exists d', v. split_and!; [apply elem_of_cons; by right|done..].
Qed.

End NextIdFound.

(** X6. On a file whose cells have at most 4299 characters, which the
    reader of [csv], [int] and [str] all take, [get_next_id] returns and
    writes nothing: it passes over the rows whose field is missing or is
    not an integer and returns the decimal writing of [n], where [n - 1]
    is the greatest integer found in the column, or 0 when none is found
    or none is positive; it returns ["1"] when the file does not exist. *)
Theorem get_next_id_skips_bad_rows (p : path) (field : string) (w : world) :
  cells_within 4299 (content p w) ->
  ∃ n,
    get_next_id p field w = (Ret (str n), w) ∧
    1 <= n ∧
    (content p w = None -> n = 1) ∧
    (∀ rows d v k,
       content p w = Some rows -> d ∈ DictReader rows ->
       get d field (Some "0") = Some v -> int v = Some k -> k < n) ∧
    (n = 1 ∨
     ∃ rows d v,
       content p w = Some rows ∧ d ∈ DictReader rows ∧
       get d field (Some "0") = Some v ∧ int v = Some (n - 1)).
Proof.
  intros _. unfold get_next_id, bind, exists_, read_rows.
  destruct (content p w) as [rows|] eqn:Hc.
  - rewrite bool_decide_eq_true_2 by eauto. cbn [negb].
    destruct (next_id_loop_ge field (DictReader rows) 0) as [H0 Hin].
    exists (next_id_loop field (DictReader rows) + 1).
    unfold next_id_loop. rewrite Hc. split_and!; [done|lia|done| |].
    + intros rows' d v k [= <-] Hd Hv Hk. specialize (Hin d v k Hd Hv Hk). lia.
    + destruct (next_id_loop_found field (DictReader rows) 0)
        as [->|(d & v & Hd & Hv & Hk)]; [by left|].
      right. exists rows, d, v. split_and!; [done..|].
      rewrite Hk. f_equal. lia.
  - rewrite bool_decide_eq_false_2 by (by intros [? ?]). cbn [negb].
    exists 1. rewrite ?Hc. split_and!; [done|lia|done|done|by left].
Qed.

Lemma get_next_id_skips_bad_rows_witness :
  cells_within 4299 (content EXPENSES_FILE garbage_ids) ∧
  ∃ n,
    get_next_id EXPENSES_FILE "id" garbage_ids = (Ret (str n), garbage_ids) ∧
    1 <= n ∧
    (content EXPENSES_FILE garbage_ids = None -> n = 1) ∧
    (∀ rows d v k,
       content EXPENSES_FILE garbage_ids = Some rows -> d ∈ DictReader rows ->
       get d "id" (Some "0") = Some v -> int v = Some k -> k < n) ∧
    (n = 1 ∨
     ∃ rows d v,
       content EXPENSES_FILE garbage_ids = Some rows ∧ d ∈ DictReader rows ∧
       get d "id" (Some "0") = Some v ∧ int v = Some (n - 1)).
Proof.
  assert (cells_within 4299 (content EXPENSES_FILE garbage_ids)) as H.
  { cbn. repeat (apply Forall_cons_2 || apply Forall_nil_2); cbn; lia. }
  split; [exact H|].
  exact (get_next_id_skips_bad_rows EXPENSES_FILE "id" garbage_ids H).
Defined.

Example get_next_id_garbage :
  get_next_id EXPENSES_FILE "id" garbage_ids = (Ret "13", garbage_ids).
Proof. by vm_compute. Qed.

(** ** The order of the listings *)

Section Orders.

Context {A K : Type} (le : K -> K -> bool) (key : A -> K).
Context (le_total : ∀ a b, le a b = true ∨ le b a = true).

Lemma insert_by_HdRel x y l :
  le (key y) (key x) = true ->
  HdRel (fun a b => le (key a) (key b) = true) y l ->
  HdRel (fun a b => le (key a) (key b) = true) y (insert_by le key x l).
Proof.
  intros Hyx Hl. destruct l as [|z l]; cbn [insert_by]; [by constructor|].
  destruct (le (key x) (key z)); [by constructor|].
  inversion Hl; subst. by constructor.
Qed.

Lemma insert_by_Sorted x l :
  Sorted (fun a b => le (key a) (key b) = true) l ->
  Sorted (fun a b => le (key a) (key b) = true) (insert_by le key x l).
Proof.
  induction 1 as [|y l Hs IH Hhd]; cbn [insert_by]; [by repeat constructor|].
  destruct (le (key x) (key y)) eqn:Hxy.
  - constructor; [by constructor|]. by constructor.
  - constructor; [done|]. apply insert_by_HdRel; [|done].
    destruct (le_total (key x) (key y)); congruence.
Qed.

Lemma sorted_Sorted l :
  Sorted (fun a b => le (key a) (key b) = true) (sorted le key l).
Proof.
  induction l as [|x l IH]; [constructor|].
  unfold sorted in *. cbn [foldr]. by apply insert_by_Sorted.
Qed.

End Orders.

(** X7. Whenever [read_categories] returns, what it returns is what
    [load_categories_raw] loads, rearranged so that the lower-cased name of
    each category is at most that of the next one. *)
Theorem read_categories_sorted (w w' : world) (cs : list category) :
  read_categories w = (Ret cs, w') ->
  ∃ cats,
    load_categories_raw w = (Ret cats, w') ∧ cs ≡ₚ cats ∧
    Sorted (fun a b => String.leb (lower (c_nome a)) (lower (c_nome b)) = true)
           cs.
Proof.
  unfold read_categories, bind.
  destruct (load_categories_raw w) as [[cats|e] w1]; [|done].
  intros [= <- <-]. exists cats. split_and!; [done|apply sorted_perm|].
  apply sorted_Sorted. apply String.leb_total.
Qed.

Lemma read_categories_sorted_witness :
  read_categories sample_store
  = (Ret [mkCategory "3" "Casa"; mkCategory "2" "Mercado"; mkCategory "1" "Outros"],
     sample_store) ∧
  ∃ cats,
    load_categories_raw sample_store = (Ret cats, sample_store) ∧
    [mkCategory "3" "Casa"; mkCategory "2" "Mercado"; mkCategory "1" "Outros"]
    ≡ₚ cats ∧
    Sorted (fun a b => String.leb (lower (c_nome a)) (lower (c_nome b)) = true)
           [mkCategory "3" "Casa"; mkCategory "2" "Mercado";
            mkCategory "1" "Outros"].
Proof.
  assert (read_categories sample_store
          = (Ret [mkCategory "3" "Casa"; mkCategory "2" "Mercado";
                  mkCategory "1" "Outros"], sample_store)) as H
    by (by vm_compute).
  split; [exact H|].
  exact (read_categories_sorted sample_store sample_store _ H).
Defined.

Section Listing.

Context (format_2f : pyfloat -> string).

Lemma categories_by_id_lookup (l : list category) (d : gmap string string) c :
  NoDup (c_id <$> l) -> c ∈ l ->
  foldl (fun d c => <[c_id c := c_nome c]> d) d l !! c_id c = Some (c_nome c).
Proof.
  revert d. induction l as [|c0 l IH]; intros d Hnd Hc.
  { by apply elem_of_nil in Hc. }
  rewrite fmap_cons in Hnd. apply NoDup_cons in Hnd as [Hnin Hnd].
  cbn [foldl]. apply elem_of_cons in Hc as [->|Hc]; [|by apply IH].
  rewrite categories_by_id_lookup_None by done. apply lookup_insert_eq.
Qed.

Lemma process_fields (by_id : gmap string string) e :
  let p := process format_2f by_id e in
  p_id p = e_id e ∧ p_data p = e_data e ∧ p_descricao p = e_descricao e ∧
  p_categoria_id p = e_categoria_id e ∧ p_anotacao p = e_anotacao e ∧
  p_categoria p = p_categoria_nome p.
Proof. done. Qed.

Lemma process_named (by_id : gmap string string) e nome :
  by_id !! e_categoria_id e = Some nome -> nome ≠ "" ->
  p_categoria_nome (process format_2f by_id e) = nome.
Proof.
  intros Hk Hne. cbn [process p_categoria_nome]. rewrite Hk.
  cbn [from_option id]. unfold or_else. by rewrite (proj2 (truthy_true _) Hne).
Qed.

End Listing.

(** X8. On a well-formed store [read_expenses] lists every stored expense
    exactly once and changes nothing: the ids listed are the stored ids,
    rearranged so that each id is, as an integer, at least the next one;
    every entry carries the date, description, category id and note of its
    expense, and the name of the stored category with that id when there
    is one. *)
Theorem read_expenses_listing (format_2f : pyfloat -> string) (w : world) :
  wf_store w ->
  ∃ ps,
    read_expenses format_2f w = (Ret ps, w) ∧
    p_id <$> ps ≡ₚ e_id <$> stored_expenses w ∧
    Sorted (fun p q => Z.geb (default 0 (int (p_id p)))
                             (default 0 (int (p_id q))) = true) ps ∧
    ∀ p, p ∈ ps ->
      ∃ e, e ∈ stored_expenses w ∧
        p_id p = e_id e ∧ p_data p = e_data e ∧
        p_descricao p = e_descricao e ∧
        p_categoria_id p = e_categoria_id e ∧ p_anotacao p = e_anotacao e ∧
        p_categoria p = p_categoria_nome p ∧
        ∀ c, c ∈ stored_categories w -> c_id c = e_categoria_id e ->
             p_categoria_nome p = c_nome c.
Proof.
  intros (cats & exps & Hw & [Hwc Hnd] & [Hwe _]). rewrite Hw.
  rewrite stored_categories_store_of, stored_expenses_store_of by done.
  rewrite read_expenses_store_of by done.
  eexists. split; [done|]. split_and!.
  - rewrite sorted_perm, <- list_fmap_compose. done.
  - apply (sorted_Sorted Z.geb). intros a b.
    destruct (Z.geb_spec a b), (Z.geb_spec b a); auto; lia.
  - intros p (e & -> & He)%elem_of_sorted%list_elem_of_fmap.
    exists e. split; [done|].
    destruct (process_fields format_2f
      (foldl (fun d c => <[c_id c := c_nome c]> d) ∅
         (sorted String.leb (fun c => lower (c_nome c)) cats)) e)
      as (-> & -> & -> & -> & -> & ->).
    split_and!; [done..|]. intros c Hc Hid.
    apply process_named.
    + rewrite <- Hid. apply categories_by_id_lookup.
      * by rewrite sorted_perm.
      * by apply elem_of_sorted.
    + eapply Forall_forall in Hwc as (_ & _ & Hne); done.
Qed.

Lemma read_expenses_listing_witness :
  wf_store sample_store ∧
  ∃ ps,
    read_expenses example_format_2f sample_store = (Ret ps, sample_store) ∧
    p_id <$> ps ≡ₚ e_id <$> stored_expenses sample_store ∧
    Sorted (fun p q => Z.geb (default 0 (int (p_id p)))
                             (default 0 (int (p_id q))) = true) ps ∧
    ∀ p, p ∈ ps ->
      ∃ e, e ∈ stored_expenses sample_store ∧
        p_id p = e_id e ∧ p_data p = e_data e ∧
        p_descricao p = e_descricao e ∧
        p_categoria_id p = e_categoria_id e ∧ p_anotacao p = e_anotacao e ∧
        p_categoria p = p_categoria_nome p ∧
        ∀ c, c ∈ stored_categories sample_store ->
             c_id c = e_categoria_id e ->
             p_categoria_nome p = c_nome c.
Proof.
  split; [apply sample_store_wf|].
  exact (read_expenses_listing example_format_2f sample_store sample_store_wf).
Defined.

(** ** Editing and deleting expenses *)

Section ExpenseEdits.

Context (format_2f : pyfloat -> string).
Implicit Types (cats : list category) (exps : list expense) (log : list event).

Lemma stripped_expense_idemp e :
  stripped_expense (stripped_expense e) = stripped_expense e.
Proof.
  unfold stripped_expense.
  cbn [e_id e_data e_descricao e_valor e_categoria_id e_anotacao].
  by rewrite !strip_idemp.
Qed.

(** A store that holds expenses as they were loaded gives them back. *)
Lemma stored_expenses_loaded cats (l : list expense) log :
  Forall (fun e => is_id (e_id e)) l ->
  Forall (fun e => stripped_expense e = e) l ->
  stored_expenses (store_of cats l log) = l.
Proof.
  intros Hid Hs. rewrite stored_expenses_store_of by done.
  induction Hs as [|e l He _ IH]; [done|].
  apply Forall_cons in Hid as [_ Hid]. rewrite fmap_cons, He, IH; done.
Qed.

Lemma stripped_loaded exps :
  Forall (fun e => is_id (e_id e)) exps ->
  Forall (fun e => is_id (e_id e)) (stripped_expense <$> exps) ∧
  Forall (fun e => stripped_expense e = e) (stripped_expense <$> exps).
Proof.
  intros H. split.
  - apply (Forall_fmap e_id is_id). rewrite stripped_expense_ids by done.
    by apply Forall_fmap.
  - apply Forall_fmap, Forall_forall. intros e _. apply stripped_expense_idemp.
Qed.

Lemma rewrite_first_map expense_id data descricao valor categoria_id anotacao
    (l : list expense) :
  NoDup (e_id <$> l) ->
  rewrite_first format_2f expense_id data descricao valor categoria_id
                anotacao l
  = (fun e => if String.eqb (e_id e) expense_id
              then mkExpense expense_id data descricao (format_2f valor)
                             categoria_id anotacao
              else e) <$> l.
Proof.
  induction l as [|e l IH]; [done|].
  rewrite fmap_cons. intros [Hnin Hnd]%NoDup_cons.
  cbn [rewrite_first]. rewrite fmap_cons.
  destruct (String.eqb_spec (e_id e) expense_id) as [Heq|Hne].
  - rewrite Heq. f_equal. symmetry. transitivity (id <$> l); [|apply list_fmap_id].
    apply list_fmap_ext. intros _ e' He'%list_elem_of_lookup_2.
    destruct (String.eqb_spec (e_id e') expense_id) as [Heq'|]; [|done].
    exfalso. apply Hnin. rewrite Heq, <- Heq'. by apply list_elem_of_fmap_2.
  - f_equal. by apply IH.
Qed.

Lemma existsb_id_elem expense_id (l : list expense) :
  existsb (fun e => String.eqb (e_id e) expense_id) l = true
  <-> expense_id ∈ e_id <$> l.
Proof.
  rewrite existsb_exists, list_elem_of_fmap. split.
  - intros (e & He%list_elem_of_In & Hid%String.eqb_eq). eauto.
  - intros (e & -> & He). exists e. split; [by apply list_elem_of_In|].
    apply String.eqb_refl.
Qed.

End ExpenseEdits.

(** X9. On a well-formed store [delete_expense] returns [True] exactly
    when an expense with that id is stored; afterwards the stored
    expenses are the ones with another id, in their order, and the
    categories are as before; when no expense has the id nothing is
    written. *)
Theorem delete_expense_removes (expense_id : string) (w : world) :
  wf_store w ->
  ∃ w',
    delete_expense expense_id w
    = (Ret (bool_decide (expense_id ∈ e_id <$> stored_expenses w)), w') ∧
    stored_expenses w'
    = filter (fun e => e_id e ≠ expense_id) (stored_expenses w) ∧
    categories_csv w' = categories_csv w ∧
    (expense_id ∉ e_id <$> stored_expenses w -> w' = w).
Proof.
  intros (cats & exps & Hw & _ & [Hwe _]). rewrite Hw.
  destruct (stripped_loaded exps Hwe) as [Hid Hs].
  rewrite stored_expenses_store_of by done.
  unfold delete_expense, bind. rewrite load_expenses_raw_store_of by done.
  set (l := stripped_expense <$> exps) in *.
  destruct (decide (expense_id ∈ e_id <$> l)) as [Hin|Hnin].
  - rewrite bool_decide_eq_true_2 by done.
    apply list_elem_of_fmap in Hin as (e & -> & He).
    pose proof (length_filter_lt (fun e' => e_id e' ≠ e_id e) l e He) as Hlt.
    rewrite (proj2 (Nat.eqb_neq _ _)) by (apply Nat.lt_neq, Hlt; by intros ?).
    rewrite save_expenses_store_of. eexists. split; [done|].
    split_and!; [|done|].
    + apply stored_expenses_loaded.
      * apply Forall_forall. intros e' [_ He']%list_elem_of_filter.
        eapply Forall_forall in Hid; done.
      * apply Forall_forall. intros e' [_ He']%list_elem_of_filter.
        eapply Forall_forall in Hs; done.
    + intros Hn. exfalso. apply Hn. by apply list_elem_of_fmap_2.
  - rewrite bool_decide_eq_false_2 by done.
    assert (filter (fun e => e_id e ≠ expense_id) l = l) as Hf.
    { apply length_filter_all, Forall_forall. intros e He Heq.
      apply Hnin. rewrite <- Heq. by apply list_elem_of_fmap_2. }
    rewrite Hf, Nat.eqb_refl. eexists. split; [done|].
    split_and!; [|done..].
    by rewrite stored_expenses_store_of.
Qed.

Lemma delete_expense_removes_witness :
  wf_store sample_store ∧
  ∃ w',
    delete_expense "2" sample_store
    = (Ret (bool_decide ("2" ∈ e_id <$> stored_expenses sample_store)), w') ∧
    stored_expenses w'
    = filter (fun e => e_id e ≠ "2") (stored_expenses sample_store) ∧
    categories_csv w' = categories_csv sample_store ∧
    ("2" ∉ e_id <$> stored_expenses sample_store -> w' = sample_store).
Proof.
  split; [apply sample_store_wf|].
  exact (delete_expense_removes "2" sample_store sample_store_wf).
Defined.

(** X10. On a well-formed store [update_expense] returns [True] exactly
    when an expense with that id is stored; it then replaces the fields of
    that expense and of no other, keeps the id, the order and the number
    of the expenses, and leaves the categories as they are; when no
    expense has the id nothing is written. *)
Theorem update_expense_rewrites
    (format_2f : pyfloat -> string)
    (expense_id data descricao : string) (valor : pyfloat)
    (categoria_id anotacao : string) (w : world) :
  wf_store w ->
  ∃ w',
    update_expense format_2f expense_id data descricao valor categoria_id
                   anotacao w
    = (Ret (bool_decide (expense_id ∈ e_id <$> stored_expenses w)), w') ∧
    (expense_id ∈ e_id <$> stored_expenses w ->
     stored_expenses w'
     = (fun e => if String.eqb (e_id e) expense_id
                 then stripped_expense
                        (mkExpense expense_id data descricao (format_2f valor)
                                   categoria_id anotacao)
                 else e) <$> stored_expenses w) ∧
    categories_csv w' = categories_csv w ∧
    (expense_id ∉ e_id <$> stored_expenses w -> w' = w).
Proof.
  intros (cats & exps & Hw & _ & [Hwe Hnd]). rewrite Hw.
  destruct (stripped_loaded exps Hwe) as [Hid Hs].
  rewrite stored_expenses_store_of by done.
  unfold update_expense, bind. rewrite load_expenses_raw_store_of by done.
  set (l := stripped_expense <$> exps) in *.
  assert (NoDup (e_id <$> l)) as Hndl.
  { unfold l. by rewrite stripped_expense_ids. }
  destruct (decide (expense_id ∈ e_id <$> l)) as [Hin|Hnin].
  - rewrite bool_decide_eq_true_2 by done.
    rewrite (proj2 (existsb_id_elem expense_id l) Hin). cbn [negb].
    rewrite save_expenses_store_of. eexists. split; [done|].
    split_and!; [|done|done]. intros _.
    rewrite rewrite_first_map by done.
    rewrite stored_expenses_store_of.
    + rewrite <- list_fmap_compose. apply list_fmap_ext.
      intros _ e He%list_elem_of_lookup_2. cbn.
      destruct (String.eqb (e_id e) expense_id); [done|].
      eapply Forall_forall in Hs; done.
    + apply Forall_fmap, Forall_forall. intros e He. cbn.
      destruct (String.eqb_spec (e_id e) expense_id) as [<-|];
        cbn; eapply Forall_forall in Hid; done.
  - rewrite bool_decide_eq_false_2 by done.
    assert (existsb (fun e => String.eqb (e_id e) expense_id) l = false) as ->.
    { apply not_true_iff_false. by rewrite existsb_id_elem. }
    cbn [negb]. eexists. split; [done|]. split_and!; done.
Qed.

Lemma update_expense_rewrites_witness :
  wf_store sample_store ∧
  ∃ w',
    update_expense example_format_2f "2" "2024-02-01" "agua"
                   (FDec false 4510 (-2)) "1" " conta " sample_store
    = (Ret (bool_decide ("2" ∈ e_id <$> stored_expenses sample_store)), w') ∧
    ("2" ∈ e_id <$> stored_expenses sample_store ->
     stored_expenses w'
     = (fun e => if String.eqb (e_id e) "2"
                 then stripped_expense
                        (mkExpense "2" "2024-02-01" "agua"
                           (example_format_2f (FDec false 4510 (-2)))
                           "1" " conta ")
                 else e) <$> stored_expenses sample_store) ∧
    categories_csv w' = categories_csv sample_store ∧
    ("2" ∉ e_id <$> stored_expenses sample_store -> w' = sample_store).
Proof.
  split; [apply sample_store_wf|].
  exact (update_expense_rewrites example_format_2f "2" "2024-02-01" "agua"
           (FDec false 4510 (-2)) "1" " conta " sample_store sample_store_wf).
Defined.

(** ** Renaming a category and resolving an identifier *)

Section CategoryEdits.

Implicit Types (cats : list category) (exps : list expense) (log : list event).

Lemma rename_first_map category_id nome cats :
  NoDup (c_id <$> cats) ->
  rename_first category_id nome cats
  = (fun c => if String.eqb (c_id c) category_id
              then mkCategory category_id nome else c) <$> cats.
Proof.
  induction cats as [|c cats IH]; [done|].
  rewrite fmap_cons. intros [Hnin Hnd]%NoDup_cons.
  cbn [rename_first]. rewrite fmap_cons.
  destruct (String.eqb_spec (c_id c) category_id) as [Heq|Hne].
  - rewrite Heq. f_equal. symmetry.
    transitivity (id <$> cats); [|apply list_fmap_id].
    apply list_fmap_ext. intros _ c' Hc'%list_elem_of_lookup_2.
    destruct (String.eqb_spec (c_id c') category_id) as [Heq'|]; [|done].
    exfalso. apply Hnin. rewrite Heq, <- Heq'. by apply list_elem_of_fmap_2.
  - f_equal. by apply IH.
Qed.

Lemma existsb_collision category_id nome cats :
  existsb (fun c => String.eqb (lower nome) (lower (c_nome c))
                    && negb (String.eqb (c_id c) category_id)) cats = false
  <-> ∀ c, c ∈ cats -> c_id c ≠ category_id -> lower nome ≠ lower (c_nome c).
Proof.
  rewrite <- not_true_iff_false, existsb_exists. split.
  - intros Hex c Hc Hid Hnome. apply Hex. exists c.
    split; [by apply list_elem_of_In|].
    rewrite Hnome, String.eqb_refl. cbn [andb].
    apply negb_true_iff. by apply String.eqb_neq.
  - intros Hall (c & Hc%list_elem_of_In & [Hn Hi]%andb_true_iff).
    apply String.eqb_eq in Hn. apply negb_true_iff, String.eqb_neq in Hi.
    by apply (Hall c).
Qed.

(** Two elements of a list with the same key are the same element when
    the keys of the list are pairwise different. *)
Lemma NoDup_fmap_eq {A K} (key : A -> K) (l : list A) x y :
  NoDup (key <$> l) -> x ∈ l -> y ∈ l -> key x = key y -> x = y.
Proof.
  induction l as [|a l IH]; [by intros _ H%elem_of_nil|].
  rewrite fmap_cons. intros [Hnin Hnd]%NoDup_cons.
  intros [->|Hx]%elem_of_cons [->|Hy]%elem_of_cons Hk; [done|..].
  - exfalso. apply Hnin. rewrite Hk. by apply list_elem_of_fmap_2.
  - exfalso. apply Hnin. rewrite <- Hk. by apply list_elem_of_fmap_2.
  - by apply IH.
Qed.

Lemma lower_nonempty s : s ≠ "" -> lower s ≠ "".
Proof. by destruct s. Qed.

End CategoryEdits.

(** X11. On a well-formed store [update_category] returns [True] exactly
    when the stripped new name is not empty, a category with the id is
    stored, and no category with another id has the new name up to case;
    a category may thus be renamed to its own name in another case.  It
    then gives the stripped name to that category and changes no other,
    keeps the ids and the order, and leaves the expenses file alone; when
    it returns [False] nothing is written. *)
Theorem update_category_renames (category_id novo_nome : string) (w : world) :
  wf_store w ->
  ∃ b w',
    update_category category_id novo_nome w = (Ret b, w') ∧
    (b = true <->
     strip novo_nome ≠ "" ∧
     category_id ∈ c_id <$> stored_categories w ∧
     ∀ c, c ∈ stored_categories w -> c_id c ≠ category_id ->
          lower (strip novo_nome) ≠ lower (c_nome c)) ∧
    (b = false -> w' = w) ∧
    (b = true ->
     stored_categories w'
     = (fun c => if String.eqb (c_id c) category_id
                 then mkCategory category_id (strip novo_nome) else c)
         <$> stored_categories w ∧
     expenses_csv w' = expenses_csv w).
Proof.
  intros (cats & exps & Hw & [Hwc Hnd] & _). rewrite Hw.
  rewrite stored_categories_store_of by done.
  unfold update_category.
  destruct (truthy (strip novo_nome)) eqn:Ht; cbn [negb].
  2:{ exists false, (store_of cats exps (io_log w)). split; [done|].
      split_and!; [|done..]. split; [done|]. intros [Hne _].
      apply truthy_true in Hne. congruence. }
  apply truthy_true in Ht.
  unfold bind. rewrite load_categories_raw_store_of by done.
  destruct (find _ cats) as [t|] eqn:Hf.
  2:{ exists false, (store_of cats exps (io_log w)). split; [done|].
      split_and!; [|done..]. split; [done|]. intros (_ & Hin & _).
      apply find_id_is_Some in Hin. rewrite Hf in Hin. by destruct Hin. }
  assert (category_id ∈ c_id <$> cats) as Hin.
  { apply find_id_is_Some. by rewrite Hf. }
  destruct (existsb _ cats) eqn:Hex.
  { exists false, (store_of cats exps (io_log w)). split; [done|].
    split_and!; [|done..]. split; [done|]. intros (_ & _ & Hcol).
    apply (proj2 (existsb_collision _ _ _)) in Hcol. congruence. }
  pose proof (proj1 (existsb_collision _ _ _) Hex) as Hcol.
  rewrite save_categories_store_of. eexists true, _. split; [done|].
  split_and!; [done|done|]. intros _. split; [|done].
  rewrite stored_categories_store_of.
  - by apply rename_first_map.
  - apply (cats_step_wf cats); [done|].
    right. right. left. exists category_id, (strip novo_nome).
    split_and!; [done|apply strip_idemp|done..].
Qed.

Lemma update_category_renames_witness :
  wf_store sample_store ∧
  ∃ b w',
    update_category "2" " MERCADO " sample_store = (Ret b, w') ∧
    (b = true <->
     strip " MERCADO " ≠ "" ∧
     "2" ∈ c_id <$> stored_categories sample_store ∧
     ∀ c, c ∈ stored_categories sample_store -> c_id c ≠ "2" ->
          lower (strip " MERCADO ") ≠ lower (c_nome c)) ∧
    (b = false -> w' = sample_store) ∧
    (b = true ->
     stored_categories w'
     = (fun c => if String.eqb (c_id c) "2"
                 then mkCategory "2" (strip " MERCADO ") else c)
         <$> stored_categories sample_store ∧
     expenses_csv w' = expenses_csv sample_store).
Proof.
  split; [apply sample_store_wf|].
  exact (update_category_renames "2" " MERCADO " sample_store sample_store_wf).
Defined.

(** X12. On a store that satisfies the invariant [resolve_category_id]
    only reads, and what it returns is the id of a stored category that
    the stripped identifier names, by its id or by its name up to case.
    An identifier that is the name of a category and no id resolves to
    that category; one that is the id of a category and no name resolves
    to that category. *)
Theorem resolve_category_id_finds (identifier : string) (w : world) :
  inv w ->
  ∃ r,
    resolve_category_id identifier w = (Ret r, w) ∧
    (∀ i, r = Some i ->
          ∃ c, c ∈ stored_categories w ∧ c_id c = i ∧
               (strip identifier = c_id c
                ∨ lower (strip identifier) = lower (c_nome c))) ∧
    (∀ c, c ∈ stored_categories w ->
          lower (strip identifier) = lower (c_nome c) ->
          strip identifier ∉ c_id <$> stored_categories w ->
          r = Some (c_id c)) ∧
    (∀ c, c ∈ stored_categories w ->
          strip identifier = c_id c ->
          lower (strip identifier)
            ∉ (fun c => lower (c_nome c)) <$> stored_categories w ->
          r = Some (c_id c)).
Proof.
  intros (cats & exps & Hw & [Hwc Hnd] & _ & Hnames). rewrite Hw.
  rewrite stored_categories_store_of by done.
  unfold resolve_category_id.
  destruct (truthy (strip identifier)) eqn:Ht; cbn [negb].
  2:{ exists None. split; [done|].
      assert (strip identifier = "") as Hs.
      { destruct (strip identifier); [done|discriminate]. }
      split_and!; [done|..].
      - intros c Hc Hl _. exfalso. rewrite Hs in Hl.
        eapply Forall_forall in Hwc as (_ & _ & Hne); [|done].
        by apply (lower_nonempty _ Hne).
      - intros c Hc Hi _. exfalso. rewrite Hs in Hi.
        eapply Forall_forall in Hwc as ([n Hn] & _); [|done].
        rewrite Hn in Hi. by apply (str_nonempty n). }
  unfold bind. rewrite read_categories_store_of by done. unfold ret.
  set (scats := sorted String.leb (fun c => lower (c_nome c)) cats).
  set (found := find _ scats).
  assert (∀ c0, found = Some c0 ->
            c0 ∈ cats ∧ (strip identifier = c_id c0
                         ∨ lower (strip identifier) = lower (c_nome c0)))
    as Hfound.
  { intros c0 [Hin Hm]%find_some. split.
    - by apply list_elem_of_In, elem_of_sorted in Hin.
    - apply orb_true_iff in Hm as [Hm|Hm]; apply String.eqb_eq in Hm; auto. }
  assert (∀ c, c ∈ cats ->
            strip identifier = c_id c
            ∨ lower (strip identifier) = lower (c_nome c) ->
            is_Some found) as Hsome.
  { intros c Hc Hm. destruct found eqn:Hf; [eauto|]. exfalso.
    eapply find_none in Hf; [|apply list_elem_of_In, elem_of_sorted, Hc].
    apply orb_false_iff in Hf as [H1%String.eqb_neq H2%String.eqb_neq].
    by destruct Hm. }
  exists (c_id <$> found). split; [done|]. split_and!.
  - intros i (c0 & Hc0 & ->)%fmap_Some. exists c0.
    destruct (Hfound c0 Hc0) as [? ?]. done.
  - intros c Hc Hl Hnid.
    destruct (Hsome c Hc (or_intror Hl)) as [c0 Hc0]. rewrite Hc0. cbn. f_equal.
    destruct (Hfound c0 Hc0) as [Hin [Hi|Hn]].
    + exfalso. apply Hnid. rewrite Hi. by apply list_elem_of_fmap_2.
    + f_equal.
      apply (NoDup_fmap_eq (fun c => lower (c_nome c)) cats); [done..|congruence].
  - intros c Hc Hi Hnn.
    destruct (Hsome c Hc (or_introl Hi)) as [c0 Hc0]. rewrite Hc0. cbn. f_equal.
    destruct (Hfound c0 Hc0) as [Hin [Hi'|Hn]]; [congruence|].
    exfalso. apply Hnn. rewrite Hn.
    by apply (list_elem_of_fmap_2 (fun c => lower (c_nome c))).
Qed.

Lemma resolve_category_id_finds_witness :
  inv sample_store ∧
  ∃ r,
    resolve_category_id " mercado " sample_store = (Ret r, sample_store) ∧
    (∀ i, r = Some i ->
          ∃ c, c ∈ stored_categories sample_store ∧ c_id c = i ∧
               (strip " mercado " = c_id c
                ∨ lower (strip " mercado ") = lower (c_nome c))) ∧
    (∀ c, c ∈ stored_categories sample_store ->
          lower (strip " mercado ") = lower (c_nome c) ->
          strip " mercado " ∉ c_id <$> stored_categories sample_store ->
          r = Some (c_id c)) ∧
    (∀ c, c ∈ stored_categories sample_store ->
          strip " mercado " = c_id c ->
          lower (strip " mercado ")
            ∉ (fun c => lower (c_nome c)) <$> stored_categories sample_store ->
          r = Some (c_id c)).
Proof.
  split; [apply sample_store_inv|].
  exact (resolve_category_id_finds " mercado " sample_store sample_store_inv).
Defined.

(** ** Expenses keep naming stored categories *)

Section References.

Context (format_2f : pyfloat -> string).
Implicit Types (cats : list category) (exps : list expense) (log : list event).

Lemma keeps_refs_same cats exps log resp :
  refs_ok cats exps -> keeps_refs (Ret resp, store_of cats exps log).
Proof. intros H. by exists resp, cats, exps, log. Qed.

Lemma refs_ok_ids cats cats' exps :
  (∀ i, i ∈ c_id <$> cats -> i ∈ c_id <$> cats') ->
  refs_ok cats exps -> refs_ok cats' exps.
Proof. intros Hsub [H1 He]. split; [by apply Hsub|]. intros e Hin. auto. Qed.

Lemma refs_ok_stripped cats exps :
  refs_ok cats exps -> refs_ok cats (stripped_expense <$> exps).
Proof.
  intros [H1 He]. split; [done|].
  intros e (e0 & -> & He0)%list_elem_of_fmap.
  cbn [stripped_expense e_categoria_id]. rewrite strip_idemp. auto.
Qed.

Lemma strip_category_id cats i :
  Forall wf_category cats -> i ∈ c_id <$> cats -> strip i = i.
Proof.
  intros Hwc (c & -> & Hc)%list_elem_of_fmap.
  destruct (wf_category_id_of cats c Hwc Hc) as [n ->]. apply strip_str.
Qed.

Lemma resolve_category_id_elem identifier cats exps log :
  Forall wf_category cats ->
  ∃ r, resolve_category_id identifier (store_of cats exps log)
       = (Ret r, store_of cats exps log) ∧
       ∀ i, r = Some i -> i ∈ c_id <$> cats.
Proof.
  intros Hwc. unfold resolve_category_id.
  destruct (truthy (strip identifier)); cbn [negb].
  2:{ by exists None. }
  unfold bind. rewrite read_categories_store_of by done. unfold ret.
  eexists. split; [done|].
  intros i (c & [Hin _]%find_some & ->)%fmap_Some.
  apply list_elem_of_fmap_2. by apply list_elem_of_In, elem_of_sorted in Hin.
Qed.

Lemma elem_of_rewrite_first expense_id data descricao valor categoria_id
    anotacao (l : list expense) e :
  e ∈ rewrite_first format_2f expense_id data descricao valor categoria_id
        anotacao l ->
  e ∈ l ∨ e_categoria_id e = categoria_id.
Proof.
  induction l as [|e0 l IH]; [by left|]. cbn [rewrite_first].
  destruct (String.eqb (e_id e0) expense_id).
  - intros [->|Hin]%elem_of_cons; [by right|]. left. apply elem_of_cons; auto.
  - intros [->|Hin]%elem_of_cons; [left; apply elem_of_cons; auto|].
    destruct (IH Hin) as [?|?]; [|by right]. left. apply elem_of_cons; auto.
Qed.

Lemma resolved_id (r : option string) :
  negb (truthy (default "" r)) = false -> ∃ i, r = Some i.
Proof. destruct r as [i|]; [eauto|done]. Qed.

Lemma adicionar_refs f cats exps log :
  wf_categories cats -> wf_expenses exps -> refs_ok cats exps ->
  keeps_refs (adicionar format_2f f (store_of cats exps log)).
Proof.
  intros [Hwc _] [Hwe _] Hr. unfold adicionar.
  destruct (_ || _); [by apply keeps_refs_same|].
  destruct (strptime _) as [d|]; [|by apply keeps_refs_same].
  destruct (float _) as [v|]; [|by apply keeps_refs_same].
  unfold bind.
  destruct (resolve_category_id_elem (categoria_input f) cats exps log Hwc)
    as (r & -> & Hin).
  destruct (negb _) eqn:Hn; [by apply keeps_refs_same|].
  apply resolved_id in Hn as [i ->]. cbn [from_option id].
  destruct (write_expense_store_of format_2f (strftime d)
              (strip (default "" (form_get f "descricao"))) v i
              (strip (default "" (form_get f "anotacao"))) cats exps log Hwe)
    as (m & _ & ->).
  eexists _, cats, _, _. split; [done|].
  destruct Hr as [H1 He]. split; [done|].
  intros e [?| ->%list_elem_of_singleton]%elem_of_app; [auto|].
  cbn [e_categoria_id]. rewrite (strip_category_id cats) by auto. auto.
Qed.

Lemma editar_lancamento_refs expense_id f cats exps log :
  wf_categories cats -> wf_expenses exps -> refs_ok cats exps ->
  keeps_refs (editar_lancamento format_2f expense_id f (store_of cats exps log)).
Proof.
  intros [Hwc _] [Hwe _] Hr. unfold editar_lancamento.
  destruct (_ || _); [by apply keeps_refs_same|].
  destruct (strptime _) as [d|]; [|by apply keeps_refs_same].
  destruct (float _) as [v|]; [|by apply keeps_refs_same].
  unfold bind.
  destruct (resolve_category_id_elem (categoria_input f) cats exps log Hwc)
    as (r & -> & Hin).
  destruct (negb _) eqn:Hn; [by apply keeps_refs_same|].
  apply resolved_id in Hn as [i ->]. cbn [from_option id].
  destruct (update_expense_store_of format_2f expense_id (strftime d)
              (strip (default "" (form_get f "descricao"))) v i
              (strip (default "" (form_get f "anotacao"))) cats exps log Hwe)
    as [->| ->]; [by apply keeps_refs_same|].
  eexists _, cats, _, _. split; [done|].
  destruct (refs_ok_stripped _ _ Hr) as [H1 He]. split; [done|].
  intros e [?| ->]%elem_of_rewrite_first; [auto|].
  rewrite (strip_category_id cats) by auto. auto.
Qed.

Lemma categorias_refs m f cats exps log :
  wf_categories cats -> wf_expenses exps -> refs_ok cats exps ->
  keeps_refs (categorias m f (store_of cats exps log)).
Proof.
  intros [Hwc _] _ Hr. destruct m; cbn [categorias].
  { unfold bind. rewrite read_categories_store_of by done.
    by apply keeps_refs_same. }
  set (nome := default "" (form_get f "nome")).
  destruct (truthy (strip nome)) eqn:Ht; cbn [negb]; [|by apply keeps_refs_same].
  apply truthy_true in Ht. unfold bind.
  destruct (decide (lower (strip nome) ∈ (fun c => lower (c_nome c)) <$> cats))
    as [Hin|Hnin].
  - rewrite add_category_collision by done. by apply keeps_refs_same.
  - destruct (add_category_new nome cats exps log Hwc Ht Hnin) as (k & _ & ->).
    eexists _, _, exps, _. split; [done|].
    eapply refs_ok_ids; [|done]. intros i Hi.
    rewrite fmap_app. apply elem_of_app. auto.
Qed.

Lemma renomear_categoria_refs category_id f cats exps log :
  wf_categories cats -> wf_expenses exps -> refs_ok cats exps ->
  keeps_refs (renomear_categoria category_id f (store_of cats exps log)).
Proof.
  intros [Hwc _] _ Hr. unfold renomear_categoria, bind.
  destruct (update_category_store_of category_id
              (default "" (form_get f "nome")) cats exps log Hwc)
    as [->|(_ & _ & _ & ->)]; [by apply keeps_refs_same|].
  eexists _, _, exps, _. split; [done|].
  eapply refs_ok_ids; [|done]. intros i Hi. by rewrite rename_first_ids.
Qed.

Lemma elem_of_other_ids category_id cats i :
  i ∈ c_id <$> cats -> i ≠ category_id ->
  i ∈ c_id <$> filter (fun c => c_id c ≠ category_id) cats.
Proof.
  intros (c & -> & Hc)%list_elem_of_fmap Hne.
  apply list_elem_of_fmap_2. by apply list_elem_of_filter.
Qed.

Lemma excluir_categoria_refs category_id cats exps log :
  wf_categories cats -> wf_expenses exps -> refs_ok cats exps ->
  keeps_refs (excluir_categoria category_id (store_of cats exps log)).
Proof.
  intros [Hwc _] [Hwe _] Hr. unfold excluir_categoria, bind.
  destruct (decide (category_id = "1")) as [->|Hne].
  { rewrite delete_category_default. by apply keeps_refs_same. }
  destruct (delete_category_store_of category_id cats exps log Hwc Hwe Hne)
    as [[_ ->]|[_ ->]]; [by apply keeps_refs_same|].
  pose proof Hr as [H1 He].
  assert ("1" ∈ c_id <$> filter (fun c => c_id c ≠ category_id) cats) as H1'.
  { apply elem_of_other_ids; [done|]. congruence. }
  destruct (existsb _ _) eqn:Hex.
  - eexists _, _, _, _. split; [done|]. split; [done|].
    intros e (e0 & -> & (e1 & -> & He1)%list_elem_of_fmap)%list_elem_of_fmap.
    unfold reassigned. cbn [stripped_expense e_categoria_id].
    destruct (String.eqb_spec (strip (e_categoria_id e1)) category_id)
      as [Heq|Hneq].
    + exact H1'.
    + unfold stripped_expense. cbn [e_categoria_id]. rewrite strip_idemp.
      apply elem_of_other_ids; [by apply He|done].
  - eexists _, _, exps, _. split; [done|]. split; [done|].
    intros e Hin. apply elem_of_other_ids; [by apply He|].
    intros Heq. apply not_true_iff_false in Hex. apply Hex.
    apply existsb_exists. exists (stripped_expense e).
    split; [by apply list_elem_of_In, list_elem_of_fmap_2|].
    by apply String.eqb_eq.
Qed.

Lemma excluir_lancamento_refs expense_id cats exps log :
  wf_categories cats -> wf_expenses exps -> refs_ok cats exps ->
  keeps_refs (excluir_lancamento expense_id (store_of cats exps log)).
Proof.
  intros _ [Hwe _] Hr. unfold excluir_lancamento, bind.
  destruct (delete_expense_store_of expense_id cats exps log Hwe)
    as [->| ->]; [by apply keeps_refs_same|].
  eexists _, cats, _, _. split; [done|].
  destruct (refs_ok_stripped _ _ Hr) as [H1 He]. split; [done|].
  intros e [_ Hin]%list_elem_of_filter. auto.
Qed.

Lemma handle_refs r cats exps log :
  wf_categories cats -> wf_expenses exps -> refs_ok cats exps ->
  keeps_refs (handle format_2f r (store_of cats exps log)).
Proof.
  intros Hwc Hwe Hr. destruct r; cbn [handle].
  - unfold index, bind. destruct Hwc as [Hwc _], Hwe as [Hwe _].
    rewrite read_expenses_store_of, read_categories_store_of by done.
    by apply keeps_refs_same.
  - by apply adicionar_refs.
  - by apply categorias_refs.
  - by apply renomear_categoria_refs.
  - by apply excluir_categoria_refs.
  - unfold admin, bind. destruct Hwc as [Hwc _], Hwe as [Hwe _].
    rewrite read_expenses_store_of by done. by apply keeps_refs_same.
  - by apply editar_lancamento_refs.
  - by apply excluir_lancamento_refs.
Qed.

Lemma references_resolve_store_of cats exps log :
  wf_categories cats -> wf_expenses exps ->
  references_resolve (store_of cats exps log) <-> refs_ok cats exps.
Proof.
  intros Hwc Hwe. unfold references_resolve, refs_ok.
  rewrite stored_categories_store_of by apply Hwc.
  rewrite stored_expenses_store_of by apply Hwe.
  split.
  - intros (_ & H1 & He). split; [done|]. intros e Hin.
    apply (He (stripped_expense e)). by apply list_elem_of_fmap_2.
  - intros [H1 He]. split_and!; [by exists cats, exps|done|].
    intros e (e0 & -> & He0)%list_elem_of_fmap. by apply He.
Qed.

Lemma references_resolve_initial : references_resolve initial.
Proof.
  destruct inv_initial as (cats & exps & Heq & Hwc & Hwe & _).
  split_and!.
  - by exists cats, exps.
  - by_evaluation.
  - intros e He. by apply elem_of_nil in He.
Qed.

#[local] Instance category_row_inj : Inj (=) (=) category_row.
Proof. intros [i n] [i' n'] H. cbv in H. congruence. Qed.

#[local] Instance expense_row_inj : Inj (=) (=) expense_row.
Proof. intros [] [] H. cbv in H. congruence. Qed.

Lemma handle_references_resolve r w :
  references_resolve w -> references_resolve (handle format_2f r w).2.
Proof.
  intros Hrr. pose proof Hrr as ((cats & exps & Hw & Hwc & Hwe) & _).
  rewrite Hw in Hrr |- *. apply references_resolve_store_of in Hrr; [|done..].
  destruct (handle_refs r cats exps (io_log w) Hwc Hwe Hrr)
    as (resp & cats' & exps' & log' & Heq & Hr').
  destruct (handle_wf format_2f r (store_of cats exps (io_log w)))
    as (resp2 & w' & Heq' & (cats2 & exps2 & Hw' & Hwc' & Hwe')).
  { by exists cats, exps. }
  rewrite Heq' in Heq |- *. cbn [snd]. injection Heq as _ Hw2.
  rewrite Hw2. rewrite Hw2 in Hw'. cbn [io_log store_of] in Hw'.
  unfold store_of in Hw'. injection Hw' as Hc He.
  apply (inj (fmap category_row)) in Hc.
  apply (inj (fmap expense_row)) in He. subst cats2 exps2.
  by apply references_resolve_store_of.
Qed.

Lemma handle_linked_world r w :
  linked_world w -> linked_world (handle format_2f r w).2.
Proof.
  intros [->|Hrr]; [|right; by apply handle_references_resolve].
  destruct (handle_empty_dir format_2f r) as [->| ->]; [by left|].
  right. apply handle_references_resolve, references_resolve_initial.
Qed.

End References.

(** X13. No sequence of requests leaves an expense without its category.
    In a store where every expense names a stored category and the default
    category is stored, and in an empty data directory, every sequence of
    requests leaves such a store again, or the empty directory: a new or
    edited expense gets the id of a stored category, and deleting a
    category moves its expenses to the default one, which is never
    deleted. *)
Theorem expenses_keep_their_categories
    (format_2f : pyfloat -> string) (w : world) (rs : list request) :
  linked_world w -> linked_world (run format_2f rs w).
Proof.
  revert w. induction rs as [|r rs IH]; intros w Hw; [done|].
  cbn [run foldl]. by apply IH, handle_linked_world.
Qed.

Lemma expenses_keep_their_categories_witness :
  linked_world empty_dir ∧ linked_world sample_reached.
Proof.
  split; [by left|].
  apply (expenses_keep_their_categories example_format_2f empty_dir). by left.
Defined.

(** ** Files edited by hand *)

Section Malformed.

Implicit Types (cats : list category) (exps : list expense) (log : list event).

Lemma categories_of_app_raise (l1 l2 : list pydict) x e :
  categories_of l1 = Ret x -> categories_of l2 = Raise e ->
  categories_of (l1 ++ l2) = Raise e.
Proof.
  intros H1 H2. revert x H1.
  induction l1 as [|d l1 IH]; intros x H1; [done|].
  rewrite <- app_comm_cons. cbn [categories_of] in *.
  destruct (strip_of (get d "id" _)); [|done]. cbn [obind] in *.
  destruct (strip_of (get d "nome" _)); [|done]. cbn [obind] in *.
  destruct (categories_of l1) as [y|]; [|done].
  by rewrite (IH y).
Qed.

Lemma expenses_of_app_raise (l1 l2 : list pydict) x e :
  expenses_of l1 = Ret x -> expenses_of l2 = Raise e ->
  expenses_of (l1 ++ l2) = Raise e.
Proof.
  intros H1 H2. revert x H1.
  induction l1 as [|d l1 IH]; intros x H1; [done|].
  rewrite <- app_comm_cons. cbn [expenses_of] in *.
  destruct (strip_of (get d "id" _)) as [i|]; [|done]. cbn [obind] in *.
  destruct (negb (truthy i)); [by apply (IH x)|].
  destruct (strip_of (get d "data" _)); [|done]. cbn [obind] in *.
  destruct (strip_of (get d "descricao" _)); [|done]. cbn [obind] in *.
  destruct (strip_of (get d "categoria_id" _)); [|done]. cbn [obind] in *.
  destruct (strip_of (get d "anotacao" _)); [|done]. cbn [obind] in *.
  destruct (expenses_of l1) as [y|]; [|done].
  by rewrite (IH y).
Qed.

Lemma DictReader_short (header : row) {A} (f : A -> row) (pre : list A)
    (r : row) (rest : csv) :
  (∀ x, f x ≠ []) -> r ≠ [] ->
  DictReader (header :: (f <$> pre) ++ r :: rest)
  = ((fun x => dict_row header (f x)) <$> pre)
    ++ dict_row header r :: DictReader (header :: rest).
Proof.
  intros Hf Hr. unfold DictReader.
  rewrite filter_app, filter_nonempty_rows, filter_cons_True by done.
  by rewrite fmap_app, fmap_cons, <- list_fmap_compose.
Qed.

Lemma short_category_dict cell (rows : list pydict) :
  categories_of (dict_row categories_header [cell] :: rows)
  = Raise AttributeError.
Proof.
  cbn [categories_of].
  assert (get (dict_row categories_header [cell]) "id" (Some "") = Some cell)
    as -> by (by vm_compute).
  assert (get (dict_row categories_header [cell]) "nome" (Some "") = None)
    as -> by (by vm_compute).
  done.
Qed.

Lemma short_expense_dict (r : row) (rows : list pydict) :
  (0 < length r < 6)%nat -> strip (hd "" r) ≠ "" ->
  expenses_of (dict_row expenses_header r :: rows) = Raise AttributeError.
Proof.
  intros Hlen Hid. apply truthy_true in Hid.
  destruct r as [|a [|b [|c [|d [|e [|f r]]]]]]; cbn [length] in Hlen;
    try lia; cbn [hd] in Hid; cbn [expenses_of].
  all: match goal with |- context [get ?d "id" ?x] =>
         assert (get d "id" x = Some a) as -> by (by vm_compute) end.
  all: cbn [strip_of obind]; rewrite Hid; cbn [negb].
  - match goal with |- context [get ?d "data" ?x] =>
      assert (get d "data" x = None) as -> by (by vm_compute) end.
    done.
  - match goal with |- context [get ?d "data" ?x] =>
      assert (get d "data" x = Some b) as -> by (by vm_compute) end.
    match goal with |- context [get ?d "descricao" ?x] =>
      assert (get d "descricao" x = None) as -> by (by vm_compute) end.
    done.
  - match goal with |- context [get ?d "data" ?x] =>
      assert (get d "data" x = Some b) as -> by (by vm_compute) end.
    match goal with |- context [get ?d "descricao" ?x] =>
      assert (get d "descricao" x = Some c) as -> by (by vm_compute) end.
    match goal with |- context [get ?d "categoria_id" ?x] =>
      assert (get d "categoria_id" x = None) as -> by (by vm_compute) end.
    done.
  - match goal with |- context [get ?d "data" ?x] =>
      assert (get d "data" x = Some b) as -> by (by vm_compute) end.
    match goal with |- context [get ?d "descricao" ?x] =>
      assert (get d "descricao" x = Some c) as -> by (by vm_compute) end.
    match goal with |- context [get ?d "categoria_id" ?x] =>
      assert (get d "categoria_id" x = None) as -> by (by vm_compute) end.
    done.
  - match goal with |- context [get ?d "data" ?x] =>
      assert (get d "data" x = Some b) as -> by (by vm_compute) end.
    match goal with |- context [get ?d "descricao" ?x] =>
      assert (get d "descricao" x = Some c) as -> by (by vm_compute) end.
    match goal with |- context [get ?d "categoria_id" ?x] =>
      assert (get d "categoria_id" x = Some e) as -> by (by vm_compute) end.
    match goal with |- context [get ?d "anotacao" ?x] =>
      assert (get d "anotacao" x = None) as -> by (by vm_compute) end.
    done.
Qed.

Lemma elem_of_normalized_expenses e exps :
  e ∈ exps -> strip (e_id e) ≠ "" ->
  stripped_expense e ∈ normalized_expenses exps.
Proof.
  intros He Hid. apply list_elem_of_omap. exists e. split; [done|].
  by rewrite (proj2 (truthy_true _) Hid).
Qed.

End Malformed.

(** X14. A row of the categories file that has an id cell and no name
    cell makes [load_categories_raw] raise [AttributeError], whatever the
    id is and whatever follows the row: [DictReader] gives [None] for the
    name, which has no [strip].  Nothing is written. *)
Theorem short_category_row_raises
    (w : world) (pre : list category) (cell : string) (rest : csv) :
  categories_csv w
  = Some (categories_header :: (category_row <$> pre) ++ [cell] :: rest) ->
  file_current (expenses_csv w) = true ->
  load_categories_raw w = (Raise AttributeError, w).
Proof.
  intros Hc He. unfold load_categories_raw, bind.
  rewrite ensure_storage_noop.
  2:{ unfold current_schema. rewrite Hc, He. by apply andb_true_iff. }
  unfold read_rows. cbn [content]. rewrite Hc. unfold lift.
  rewrite (DictReader_short categories_header category_row) by done.
  erewrite categories_of_app_raise;
    [done|apply categories_of_rows|apply short_category_dict].
Qed.

Lemma short_category_row_raises_witness :
  categories_csv short_rows_store
  = Some (categories_header
            :: (category_row <$> [mkCategory "1" "Outros"]) ++ ["2"] :: []) ∧
  file_current (expenses_csv short_rows_store) = true ∧
  load_categories_raw short_rows_store = (Raise AttributeError, short_rows_store).
Proof.
  split; [reflexivity|]. split; [reflexivity|].
  apply (short_category_row_raises short_rows_store
           [mkCategory "1" "Outros"] "2" []); reflexivity.
Defined.

(** X15. A row of the expenses file with a non-blank id and fewer than
    six cells makes [load_expenses_raw] raise [AttributeError], whatever
    follows the row; nothing is written. *)
Theorem short_expense_row_raises
    (w : world) (pre : list expense) (r : list string) (rest : csv) :
  expenses_csv w
  = Some (expenses_header :: (expense_row <$> pre) ++ r :: rest) ->
  file_current (categories_csv w) = true ->
  (0 < length r < 6)%nat -> strip (hd "" r) ≠ "" ->
  load_expenses_raw w = (Raise AttributeError, w).
Proof.
  intros He Hc Hlen Hid. unfold load_expenses_raw, bind.
  rewrite ensure_storage_noop.
  2:{ unfold current_schema. rewrite Hc, He. by apply andb_true_iff. }
  unfold read_rows. cbn [content]. rewrite He. unfold lift.
  rewrite (DictReader_short expenses_header expense_row);
    [|done|by destruct r; cbn in Hlen; [lia|]].
  erewrite expenses_of_app_raise;
    [done|apply expenses_of_rows|by apply short_expense_dict].
Qed.

Lemma short_expense_row_raises_witness :
  expenses_csv short_rows_store
  = Some (expenses_header
            :: (expense_row <$> [mkExpense "1" "2024-01-05" "pao" "3.50" "1" ""])
               ++ ["2"; "2024-01-06"; "luz"] :: []) ∧
  file_current (categories_csv short_rows_store) = true ∧
  (0 < length ["2"; "2024-01-06"; "luz"] < 6)%nat ∧
  strip (hd "" ["2"; "2024-01-06"; "luz"]) ≠ "" ∧
  load_expenses_raw short_rows_store = (Raise AttributeError, short_rows_store).
Proof.
  split; [reflexivity|]. split; [reflexivity|].
  split; [cbn; lia|]. split; [by vm_compute|].
  apply (short_expense_row_raises short_rows_store
           [mkExpense "1" "2024-01-05" "pao" "3.50" "1" ""]
           ["2"; "2024-01-06"; "luz"] []);
    [reflexivity|reflexivity|cbn; lia|by vm_compute].
Defined.

(** X16. A stored expense whose id is not blank and not an integer makes
    [read_expenses] raise [ValueError], from the sort key [int(item["id"])],
    although [get_next_id] passes such a row over; nothing is written. *)
Theorem read_expenses_bad_id_raises
    (format_2f : pyfloat -> string)
    (cats : list category) (exps : list expense) (log : list event)
    (e : expense) :
  Forall wf_category cats ->
  e ∈ exps -> strip (e_id e) ≠ "" -> int (strip (e_id e)) = None ->
  read_expenses format_2f (store_of cats exps log)
  = (Raise ValueError, store_of cats exps log).
Proof.
  intros Hwc He Hid Hint. unfold read_expenses, bind.
  unfold load_expenses_raw, bind. rewrite ensure_storage_store_of.
  unfold read_rows, lift. cbn [content store_of expenses_csv].
  rewrite DictReader_expenses, expenses_of_rows.
  fold (store_of cats exps log). rewrite read_categories_store_of by done.
  match goal with |- context [forallb ?f ?l] =>
    assert (forallb f l = false) as ->; [|done] end.
  apply not_true_iff_false. intros Hall.
  eapply forallb_forall in Hall.
  2:{ apply list_elem_of_In, list_elem_of_fmap_2.
      by apply elem_of_normalized_expenses. }
  cbn [process p_id stripped_expense e_id] in Hall. rewrite Hint in Hall.
  apply bool_decide_eq_true_1 in Hall. by destruct Hall.
Qed.

Lemma read_expenses_bad_id_raises_witness :
  Forall wf_category [mkCategory "1" "Outros"] ∧
  bad_id_expense
    ∈ [mkExpense "1" "2024-01-05" "pao" "3.50" "1" ""; bad_id_expense] ∧
  strip (e_id bad_id_expense) ≠ "" ∧
  int (strip (e_id bad_id_expense)) = None ∧
  read_expenses example_format_2f bad_id_store = (Raise ValueError, bad_id_store).
Proof.
  assert (Forall wf_category [mkCategory "1" "Outros"]) as Hwc.
  { apply Forall_singleton. split_and!; [by exists 1|done..]. }
  assert (bad_id_expense
            ∈ [mkExpense "1" "2024-01-05" "pao" "3.50" "1" ""; bad_id_expense])
    as Hin.
  { apply elem_of_cons. right. apply elem_of_cons. by left. }
  split_and!; [done|done|by vm_compute|by vm_compute|].
  apply (read_expenses_bad_id_raises example_format_2f
           [mkCategory "1" "Outros"] _ [] bad_id_expense);
    [done|done|by vm_compute|by vm_compute].
Defined.

(** ** The migration of a legacy expenses file *)

Section ExpensesMigration.

Implicit Types (cats : list category) (st : upgrade_state).

Lemma old_rows_of_categoria (rest : csv) :
  Forall (fun r => strip (o_categoria r) = o_categoria r ∧ o_categoria r ≠ "")
         (old_rows_of rest).
Proof.
  apply Forall_forall. intros r (cells & _ & Hr)%list_elem_of_omap.
  destruct cells as [|c0 [|c1 [|c2 [|c3 [|c4 cells]]]]]; try done.
  injection Hr as <-. cbn [o_categoria]. unfold or_else.
  destruct (truthy (strip c3)) eqn:Ht.
  - split; [apply strip_idemp|by apply truthy_true].
  - done.
Qed.

Lemma name_to_id_lookup cats (d : gmap string string) n i :
  foldl (fun d c => <[c_nome c := c_id c]> d) d cats !! n = Some i ->
  d !! n = Some i ∨ mkCategory i n ∈ cats.
Proof.
  revert d. induction cats as [|c cats IH]; intros d; [by left|].
  cbn [foldl]. intros [Hd|Hin]%IH.
  - destruct (decide (c_nome c = n)) as [<-|Hne].
    + rewrite lookup_insert_eq in Hd. injection Hd as <-.
      right. apply elem_of_cons. left. by destruct c.
    + rewrite lookup_insert_ne in Hd by done. by left.
  - right. apply elem_of_cons. by right.
Qed.

Lemma name_to_id_is_Some cats (d : gmap string string) n :
  is_Some (d !! n) ∨ n ∈ c_nome <$> cats ->
  is_Some (foldl (fun d c => <[c_nome c := c_id c]> d) d cats !! n).
Proof.
  revert d. induction cats as [|c cats IH]; intros d.
  - intros [?|Hin]; [done|]. by apply elem_of_nil in Hin.
  - cbn [foldl]. rewrite fmap_cons. intros [Hd|[->|Hin]%elem_of_cons].
    + apply IH. left. rewrite lookup_insert_is_Some. 
      destruct (decide (c_nome c = n)); auto.
    + apply IH. left. rewrite lookup_insert_eq. eauto.
    + apply IH. by right.
Qed.

Lemma upgrade_inv_initial cats m :
  Forall wf_category cats ->
  (∀ i, i ∈ c_id <$> cats -> ∃ k, i = str k ∧ k <= m) ->
  upgrade_inv cats m
    (mkUpgrade (foldl (fun d c => <[c_nome c := c_id c]> d) ∅ cats)
               (m + 1) [] []).
Proof.
  intros Hwc Hb. unfold upgrade_inv.
  cbn [u_name_to_id u_new_categories u_next_category_id].
  split_and!.
  - intros n i [Hd|Hin]%name_to_id_lookup; [by rewrite lookup_empty in Hd|].
    split; [|by left].
    destruct (wf_category_id_of cats _ Hwc Hin) as [k Hk]. cbn in Hk.
    rewrite Hk. apply str_nonempty.
  - intros c Hc. apply name_to_id_is_Some. right. by apply list_elem_of_fmap_2.
  - intros i n Hin. by apply elem_of_nil in Hin.
  - apply NoDup_nil_2.
  - lia.
Qed.

Lemma upgrade_step_inv cats m0 st idx r :
  upgrade_inv cats m0 st ->
  strip (o_categoria r) = o_categoria r -> o_categoria r ≠ "" ->
  upgrade_inv cats m0 (upgrade_step st (idx, r)) ∧
  (∀ n i, u_name_to_id st !! n = Some i ->
          u_name_to_id (upgrade_step st (idx, r)) !! n = Some i) ∧
  ∃ cid,
    u_name_to_id (upgrade_step st (idx, r)) !! o_categoria r = Some cid ∧
    u_new_rows (upgrade_step st (idx, r))
    = u_new_rows st
      ++ [[str idx; o_data r; o_descricao r; o_valor r; cid; o_anotacao r]].
Proof.
  intros (J1 & J2 & J3 & J4 & J5) Hs Hne.
  unfold upgrade_step.
  assert (or_else (o_categoria r) "Outros" = o_categoria r) as ->.
  { unfold or_else. by rewrite (proj2 (truthy_true _) Hne). }
  destruct (u_name_to_id st !! o_categoria r) as [i|] eqn:Hl.
  - destruct (J1 _ _ Hl) as [Hi _]. apply truthy_true in Hi.
    cbn [truthy_of from_option id]. rewrite Hi. cbn [negb].
    split_and!; [done|done|]. exists i. by split.
  - cbn [truthy_of negb from_option id].
    set (next := u_next_category_id st) in *.
    split_and!.
    + unfold upgrade_inv.
      cbn [u_name_to_id u_new_categories u_next_category_id].
      split_and!.
      * intros n i. destruct (decide (o_categoria r = n)) as [<-|Hn].
        -- rewrite lookup_insert_eq. intros [= <-].
           split; [apply str_nonempty|]. right.
           apply elem_of_app. right. by apply list_elem_of_singleton.
        -- rewrite lookup_insert_ne by done. intros [Hi [?|?]]%J1;
             (split; [done|]); [by left|].
           right. apply elem_of_app. by left.
      * intros c Hc. rewrite lookup_insert_is_Some.
        destruct (decide (o_categoria r = c_nome c)); [by left|].
        right. split; [done|]. by apply J2.
      * intros i n [Hin|[= -> ->]%list_elem_of_singleton]%elem_of_app.
        -- destruct (J3 i n Hin) as (Hm & (k & -> & Hk) & H3 & H4 & H5).
           split_and!; [|exists k; split; [done|lia]|done..].
           rewrite lookup_insert_ne; [done|]. intros <-. congruence.
        -- split_and!; [apply lookup_insert_eq| |  |done..].
           ++ exists next. split; [done|lia].
           ++ intros (c & Hc & Hin)%list_elem_of_fmap.
              destruct (J2 c Hin) as [i Hi]. congruence.
      * rewrite fmap_app. apply NoDup_app. split_and!; [done| |apply NoDup_singleton].
        intros i ([i' n] & -> & Hin)%list_elem_of_fmap Hi.
        apply list_elem_of_singleton in Hi. cbn in Hi.
        destruct (J3 _ _ Hin) as (_ & (k & Hk & Hlt) & _).
        rewrite Hk in Hi. apply str_inj in Hi. lia.
      * lia.
    + cbn [u_name_to_id]. intros n i Hni.
      rewrite lookup_insert_ne; [done|]. intros <-. congruence.
    + exists (str next). cbn [u_name_to_id u_new_rows].
      by rewrite lookup_insert_eq.
Qed.

Lemma upgrade_loop cats m0 (old : list old_row) :
  Forall (fun r => strip (o_categoria r) = o_categoria r ∧ o_categoria r ≠ "")
         old ->
  ∀ st start,
    upgrade_inv cats m0 st ->
    let st' := foldl upgrade_step st (enumerate start old) in
    upgrade_inv cats m0 st' ∧
    (∀ n i, u_name_to_id st !! n = Some i -> u_name_to_id st' !! n = Some i) ∧
    ∃ added : list expense,
      u_new_rows st' = u_new_rows st ++ (expense_row <$> added) ∧
      length added = length old ∧
      ∀ (k : nat) r,
        old !! k = Some r ->
        ∃ cid,
          u_name_to_id st' !! o_categoria r = Some cid ∧
          added !! k
          = Some (mkExpense (str (start + Z.of_nat k)) (o_data r)
                            (o_descricao r) (o_valor r) cid (o_anotacao r)).
Proof.
  induction 1 as [|r old [Hs Hne] _ IH]; intros st start J.
  - cbn [enumerate foldl]. split_and!; [done..|].
    exists []. split_and!; [by rewrite app_nil_r|done|]. intros k r Hk.
    by rewrite lookup_nil in Hk.
  - cbn [enumerate foldl]. cbv zeta.
    destruct (upgrade_step_inv cats m0 st start r J Hs Hne)
      as (J' & Hmono & cid & Hcid & Hrows).
    destruct (IH (upgrade_step st (start, r)) (start + 1) J')
      as (J'' & Hmono' & added & Hadded & Hlen & Hk).
    split_and!; [done|by auto|].
    exists (mkExpense (str start) (o_data r) (o_descricao r) (o_valor r) cid
                      (o_anotacao r) :: added).
    split_and!.
    + rewrite Hadded, Hrows, <- app_assoc. done.
    + cbn [length]. by rewrite Hlen.
    + intros [|k] r' Hr'.
      * injection Hr' as <-. exists cid. split; [by apply Hmono'|].
        cbn. by rewrite Z.add_0_r.
      * destruct (Hk k r' Hr') as (cid' & Hc' & Ha').
        exists cid'. split; [done|]. rewrite lookup_cons, Ha'.
        do 3 f_equal. lia.
Qed.

Lemma load_categories_for_upgrade_current cats w :
  categories_csv w = Some (categories_header :: (category_row <$> cats)) ->
  Forall wf_category cats ->
  load_categories_for_upgrade w = (Ret cats, w).
Proof.
  intros Hc Hwc. unfold load_categories_for_upgrade, bind, exists_, read_rows.
  cbn [content]. rewrite Hc. rewrite bool_decide_eq_true_2 by eauto.
  cbn [negb]. rewrite Hc. unfold ret. rewrite DictReader_categories.
  do 2 f_equal. clear Hc.
  induction Hwc as [|c cats ([k Hk] & Hs' & Hne') Hwc IH]; [done|].
  rewrite fmap_cons. cbn [omap list_omap].
  rewrite get_category_id, get_category_nome.
  rewrite (proj2 (truthy_true (c_id c))) by (rewrite Hk; apply str_nonempty).
  rewrite (proj2 (truthy_true (c_nome c))) by done. cbn [andb].
  rewrite Hk, strip_str, <- Hk, Hs'. f_equal; [by destruct c|].
  apply IH.
Qed.

End ExpensesMigration.

(** X17. The migration of a legacy expenses file.  When the categories
    file is in the current schema and well formed and the first non-blank
    row of the expenses file does not start with [id],
    [upgrade_expenses_file] returns and rewrites the expenses file under
    the current header with one expense per non-blank row of five cells or
    more after the first, in their order and numbered from 1, the cells
    stripped; each expense gets the id of the category that has exactly
    the name in its fourth cell, "Outros" when the cell is blank.  The
    categories that were missing are appended after the stored ones under
    new ids, and the categories stay well formed. *)
Theorem legacy_expenses_migrated
    (w : world) (cats : list category) (rows : list (list string))
    (first : list string) (rest : list (list string)) :
  categories_csv w = Some (categories_header :: (category_row <$> cats)) ->
  wf_categories cats ->
  expenses_csv w = Some rows ->
  filter (fun r => nonblank r = true) rows = first :: rest ->
  header_is_current (strip <$> first) = false ->
  ∃ w' new_cats exps',
    upgrade_expenses_file w = (Ret tt, w') ∧
    categories_csv w'
    = Some (categories_header :: (category_row <$> cats ++ new_cats)) ∧
    expenses_csv w' = Some (expenses_header :: (expense_row <$> exps')) ∧
    wf_categories (cats ++ new_cats) ∧
    (∀ c, c ∈ new_cats -> c_nome c ∉ c_nome <$> cats) ∧
    length exps' = length (old_rows_of rest) ∧
    ∀ (k : nat) r,
      old_rows_of rest !! k = Some r ->
      ∃ c, c ∈ cats ++ new_cats ∧ c_nome c = o_categoria r ∧
           exps' !! k
           = Some (mkExpense (str (1 + Z.of_nat k)) (o_data r) (o_descricao r)
                             (o_valor r) (c_id c) (o_anotacao r)).
Proof.
  intros Hc [Hwc Hnd] He Hf Hh.
  assert (Forall is_id (c_id <$> cats)) as Hids.
  { apply Forall_fmap. eapply Forall_impl; [done|]. by intros c (? & _). }
  destruct (max_default0_bound _ Hids) as (m & Hm & Hb).
  destruct (upgrade_loop cats m (old_rows_of rest) (old_rows_of_categoria rest)
              _ 1 (upgrade_inv_initial cats m Hwc Hb))
    as ((J1 & J2 & J3 & J4 & J5) & _ & exps' & Hrows & Hlen & Hk).
  cbn [u_new_rows app] in Hrows.
  unfold upgrade_expenses_file, bind, read_rows. cbn [content].
  rewrite He, Hf, Hh.
  rewrite (load_categories_for_upgrade_current cats) by done.
  unfold lift. rewrite Hm.
  match type of Hrows with u_new_rows ?s = _ => set (st' := s) in * end.
  rewrite Hrows.
  set (new_cats := (fun e => mkCategory e.1 e.2) <$> u_new_categories st').
  assert (∀ c, c ∈ new_cats ->
            (∃ k, c_id c = str k ∧ m < k) ∧
            (c_nome c ∉ c_nome <$> cats) ∧ strip (c_nome c) = c_nome c ∧
            c_nome c ≠ "") as Hnew.
  { intros c ([i n] & -> & Hin)%list_elem_of_fmap. cbn.
    destruct (J3 i n Hin) as (_ & (k & -> & Hlt) & H3 & H4 & H5).
    split_and!; [|done..]. exists k. split; [done|lia]. }
  exists (if u_new_categories st' is [] then
            store EXPENSES_FILE (expenses_header :: (expense_row <$> exps')) w
          else
            store CATEGORIES_FILE
              (categories_header :: (category_row <$> cats ++ new_cats))
              (store EXPENSES_FILE
                 (expenses_header :: (expense_row <$> exps')) w)),
         new_cats, exps'.
  split_and!.
  - unfold write_rows. subst new_cats.
    destruct (u_new_categories st') as [|p l] eqn:Hn; [done|].
    unfold append_categories, append_rows. cbn [content store categories_csv].
    rewrite Hc. cbn [from_option id].
    assert ((fun e : string * string => [e.1; e.2]) <$> p :: l
            = category_row <$> ((fun e => mkCategory e.1 e.2) <$> p :: l))
      as -> by (by rewrite <- list_fmap_compose).
    by rewrite fmap_app.
  - subst new_cats. destruct (u_new_categories st'); [|done].
    cbn [store categories_csv fmap list_fmap]. by rewrite Hc, app_nil_r.
  - by destruct (u_new_categories st').
  - split.
    + apply Forall_app. split; [done|]. apply Forall_forall. intros c Hin.
      destruct (Hnew c Hin) as ((k & Hk' & _) & _ & H4 & H5).
      split_and!; [by exists k|done..].
    + rewrite fmap_app. apply NoDup_app. split_and!; [done| |].
      * intros i Hi (c & -> & Hin)%list_elem_of_fmap.
        destruct (Hb _ Hi) as (k0 & Hk0 & Hle).
        destruct (Hnew c Hin) as ((k & Hk' & Hlt) & _).
        rewrite Hk' in Hk0. apply str_inj in Hk0. lia.
      * subst new_cats. by rewrite <- list_fmap_compose.
  - intros c Hin. by destruct (Hnew c Hin) as (_ & ? & _).
  - done.
  - intros k r Hr. destruct (Hk k r Hr) as (cid & Hcid & Hrow).
    exists (mkCategory cid (o_categoria r)). split_and!; [|done|done].
    apply elem_of_app. destruct (J1 _ _ Hcid) as [_ [?|Hin]]; [by left|].
    right. by apply (list_elem_of_fmap_2 (fun e => mkCategory e.1 e.2)) in Hin.
Qed.

Lemma legacy_expenses_migrated_witness :
  categories_csv legacy_expenses
  = Some (categories_header
            :: (category_row
                  <$> [mkCategory "1" "Outros"; mkCategory "2" "Mercado"])) ∧
  wf_categories [mkCategory "1" "Outros"; mkCategory "2" "Mercado"] ∧
  ∃ w' new_cats exps',
    upgrade_expenses_file legacy_expenses = (Ret tt, w') ∧
    categories_csv w'
    = Some (categories_header
              :: (category_row
                    <$> [mkCategory "1" "Outros"; mkCategory "2" "Mercado"]
                        ++ new_cats)) ∧
    expenses_csv w' = Some (expenses_header :: (expense_row <$> exps')) ∧
    wf_categories
      ([mkCategory "1" "Outros"; mkCategory "2" "Mercado"] ++ new_cats) ∧
    (∀ c, c ∈ new_cats ->
          c_nome c
            ∉ c_nome <$> [mkCategory "1" "Outros"; mkCategory "2" "Mercado"]) ∧
    length exps'
    = length (old_rows_of
                [["2023-05-01"; " pao "; "3,50"; "Mercado"; ""];
                 ["2023-05-02"; "onibus"; "4.40"; "Transporte"; "ida"];
                 ["curta"];
                 ["2023-05-03"; "cafe"; "2"; ""; ""]]) ∧
    ∀ (k : nat) r,
      old_rows_of
        [["2023-05-01"; " pao "; "3,50"; "Mercado"; ""];
         ["2023-05-02"; "onibus"; "4.40"; "Transporte"; "ida"];
         ["curta"];
         ["2023-05-03"; "cafe"; "2"; ""; ""]] !! k = Some r ->
      ∃ c, c ∈ [mkCategory "1" "Outros"; mkCategory "2" "Mercado"] ++ new_cats ∧
           c_nome c = o_categoria r ∧
           exps' !! k
           = Some (mkExpense (str (1 + Z.of_nat k)) (o_data r) (o_descricao r)
                             (o_valor r) (c_id c) (o_anotacao r)).
Proof.
  assert (wf_categories [mkCategory "1" "Outros"; mkCategory "2" "Mercado"])
    as Hwf.
  { split.
    - repeat apply Forall_cons_2; [..|apply Forall_nil_2];
        (split_and!; [|done..]); [by exists 1|by exists 2].
    - by_evaluation. }
  split; [reflexivity|]. split; [exact Hwf|].
  apply (legacy_expenses_migrated legacy_expenses
           [mkCategory "1" "Outros"; mkCategory "2" "Mercado"]
           [["data"; "descricao"; "valor"; "categoria"; "anotacao"];
            ["2023-05-01"; " pao "; "3,50"; "Mercado"; ""];
            ["2023-05-02"; "onibus"; "4.40"; "Transporte"; "ida"];
            ["curta"];
            ["2023-05-03"; "cafe"; "2"; ""; ""]]
           ["data"; "descricao"; "valor"; "categoria"; "anotacao"]);
    [reflexivity|exact Hwf|reflexivity|by vm_compute|by vm_compute].
Defined.

Example legacy_expenses_result :
  categories_csv (upgrade_expenses_file legacy_expenses).2
  = Some [["id"; "nome"]; ["1"; "Outros"]; ["2"; "Mercado"];
          ["3"; "Transporte"]] ∧
  expenses_csv (upgrade_expenses_file legacy_expenses).2
  = Some [["id"; "data"; "descricao"; "valor"; "categoria_id"; "anotacao"];
          ["1"; "2023-05-01"; "pao"; "3,50"; "2"; ""];
          ["2"; "2023-05-02"; "onibus"; "4.40"; "3"; "ida"];
          ["3"; "2023-05-03"; "cafe"; "2"; "1"; ""]].
Proof. by vm_compute. Qed.

(** ** The routes on the stores of the application *)

Section Routes.

Context (format_2f : pyfloat -> string).
Implicit Types (cats : list category) (exps : list expense) (log : list event).

Lemma update_expense_cases expense_id data descricao valor categoria_id
    anotacao cats exps log :
  Forall (fun e => is_id (e_id e)) exps ->
  let l := stripped_expense <$> exps in
  let l' := rewrite_first format_2f expense_id data descricao valor
                          categoria_id anotacao l in
  update_expense format_2f expense_id data descricao valor categoria_id
                 anotacao (store_of cats exps log)
  = if existsb (fun e => String.eqb (e_id e) expense_id) l
    then (Ret true,
          store_of cats l'
            (log ++ [Wrote EXPENSES_FILE (expenses_header :: (expense_row <$> l'))]))
    else (Ret false, store_of cats exps log).
Proof.
  intros Hwe l l'. unfold update_expense, bind.
  rewrite load_expenses_raw_store_of by done. fold l.
  destruct (existsb _ l); cbn [negb]; [|done].
  by rewrite save_expenses_store_of.
Qed.

Lemma form_passes f :
  strip (default "" (form_get f "data")) ≠ "" ->
  strip (default "" (form_get f "descricao")) ≠ "" ->
  strip (default "" (form_get f "valor")) ≠ "" ->
  categoria_input f ≠ "" ->
  negb (truthy (strip (default "" (form_get f "data"))))
  || negb (truthy (strip (default "" (form_get f "descricao"))))
  || negb (truthy (strip (default "" (form_get f "valor"))))
  || negb (truthy (categoria_input f)) = false.
Proof.
  intros H1 H2 H3 H4.
  by rewrite !(proj2 (truthy_true _)) by done.
Qed.

Lemma resolved_nonblank identifier w r i :
  resolve_category_id identifier w = (Ret r, w) -> r = Some i ->
  strip identifier ≠ "".
Proof.
  unfold resolve_category_id. intros Hr -> Hs. rewrite Hs in Hr.
  cbn [truthy negb] in Hr. by injection Hr.
Qed.

End Routes.


(** X19. A form that passes the validation is recorded by [adicionar]:
    on a well-formed store, when the four required fields are not blank,
    the date and the amount parse and the category resolves, the response
    is the success message and the expenses file gets exactly one more
    row, after the others: an integer id above every stored id, the date
    as [strftime] writes it, the stripped description and note, the amount
    with two decimals and the id of the resolved category.  The categories
    file is not touched. *)
Theorem adicionar_appends
    (format_2f : pyfloat -> string) (f : list (string * string)) (w : world)
    (d : PyDate.date) (v : pyfloat) (cid : string) :
  wf_store w ->
  strip (default "" (form_get f "data")) ≠ "" ->
  strip (default "" (form_get f "descricao")) ≠ "" ->
  strip (default "" (form_get f "valor")) ≠ "" ->
  strptime (strip (default "" (form_get f "data"))) = Some d ->
  float (replace "," "." (strip (default "" (form_get f "valor")))) = Some v ->
  resolve_category_id (categoria_input f) w = (Ret (Some cid), w) ->
  ∃ w' n,
    adicionar format_2f f w
    = (Ret (Redirect "Lançamento registrado com sucesso!" "success" ep_index),
       w') ∧
    stored_expenses w'
    = stored_expenses w
      ++ [stripped_expense
            (mkExpense (str n) (strftime d)
               (strip (default "" (form_get f "descricao")))
               (format_2f v) cid
               (strip (default "" (form_get f "anotacao"))))] ∧
    (∀ e, e ∈ stored_expenses w -> ∃ k, e_id e = str k ∧ k < n) ∧
    categories_csv w' = categories_csv w.
Proof.
  intros (cats & exps & Hw & [Hwc _] & [Hwe _]) H1 H2 H3 Hd Hv Hr.
  pose proof (resolved_nonblank _ _ _ _ Hr eq_refl) as H4.
  rewrite strip_categoria_input in H4.
  rewrite Hw in Hr |- *.
  destruct (resolve_category_id_store_of (categoria_input f) cats exps
              (io_log w) Hwc) as (r & Hr' & _).
  assert (r = Some cid) as -> by congruence.
  assert (cid ≠ "") as Hcid.
  { destruct (resolve_category_id_elem (categoria_input f) cats exps
                (io_log w) Hwc) as (r & Hr'' & Hin).
    assert (r = Some cid) as -> by congruence.
    pose proof (Hin cid eq_refl) as Hc.
    apply list_elem_of_fmap in Hc as (c & -> & Hc).
    destruct (wf_category_id_of cats c Hwc Hc) as [k ->]. apply str_nonempty. }
  unfold adicionar. rewrite form_passes, Hd, Hv by done.
  unfold bind. rewrite Hr'. cbn [from_option id].
  rewrite (proj2 (truthy_true _) Hcid). cbn [negb].
  destruct (write_expense_store_of format_2f (strftime d)
              (strip (default "" (form_get f "descricao"))) v cid
              (strip (default "" (form_get f "anotacao"))) cats exps
              (io_log w) Hwe) as (m & Hb & Hwr).
  cbv zeta in Hwr. rewrite Hwr.
  eexists _, (m + 1). split; [done|]. split_and!; [| |done].
  - rewrite !stored_expenses_store_of.
    + by rewrite fmap_app.
    + done.
    + apply Forall_app. split; [done|]. apply Forall_singleton. by exists (m + 1).
  - rewrite stored_expenses_store_of by done.
    intros e (e0 & -> & He0)%list_elem_of_fmap.
    destruct (Hb e0 He0) as (k & Hk & Hle). exists k.
    cbn [stripped_expense e_id]. rewrite Hk, strip_str. split; [done|lia].
Qed.

Lemma adicionar_appends_witness :
  wf_store sample_store ∧
  strptime (strip (default "" (form_get form_valid "data")))
  = Some (mkDate 2024 1 8) ∧
  float (replace "," "." (strip (default "" (form_get form_valid "valor"))))
  = Some (FDec false 1230 (-2)) ∧
  resolve_category_id (categoria_input form_valid) sample_store
  = (Ret (Some "2"), sample_store) ∧
  ∃ w' n,
    adicionar example_format_2f form_valid sample_store
    = (Ret (Redirect "Lançamento registrado com sucesso!" "success" ep_index),
       w') ∧
    stored_expenses w'
    = stored_expenses sample_store
      ++ [stripped_expense
            (mkExpense (str n) (strftime (mkDate 2024 1 8))
               (strip (default "" (form_get form_valid "descricao")))
               (example_format_2f (FDec false 1230 (-2))) "2"
               (strip (default "" (form_get form_valid "anotacao"))))] ∧
    (∀ e, e ∈ stored_expenses sample_store -> ∃ k, e_id e = str k ∧ k < n) ∧
    categories_csv w' = categories_csv sample_store.
Proof.
  split; [apply sample_store_wf|].
  split; [by vm_compute|]. split; [by vm_compute|]. split; [by vm_compute|].
  apply (adicionar_appends example_format_2f form_valid sample_store
           (mkDate 2024 1 8) (FDec false 1230 (-2)) "2");
    [apply sample_store_wf|by vm_compute..].
Defined.

(** X20. A form that passes the validation edits the expense it names:
    on a well-formed store, under the conditions of X19,
    [editar_lancamento] answers the success message exactly when an
    expense with the id is stored, and then that expense, and no other,
    carries the fields of the form, with the id of the resolved category;
    for an id that is not stored it answers the error message and writes
    nothing. *)
Theorem editar_lancamento_outcome
    (format_2f : pyfloat -> string) (expense_id : string)
    (f : list (string * string)) (w : world)
    (d : PyDate.date) (v : pyfloat) (cid : string) :
  wf_store w ->
  strip (default "" (form_get f "data")) ≠ "" ->
  strip (default "" (form_get f "descricao")) ≠ "" ->
  strip (default "" (form_get f "valor")) ≠ "" ->
  strptime (strip (default "" (form_get f "data"))) = Some d ->
  float (replace "," "." (strip (default "" (form_get f "valor")))) = Some v ->
  resolve_category_id (categoria_input f) w = (Ret (Some cid), w) ->
  ∃ w',
    editar_lancamento format_2f expense_id f w
    = (Ret (if bool_decide (expense_id ∈ e_id <$> stored_expenses w)
            then Redirect "Lançamento atualizado com sucesso!" "success"
                          ep_index
            else Redirect "Não foi possível atualizar o lançamento." "error"
                          ep_index),
       w') ∧
    (expense_id ∈ e_id <$> stored_expenses w ->
     stored_expenses w'
     = (fun e => if String.eqb (e_id e) expense_id
                 then stripped_expense
                        (mkExpense expense_id (strftime d)
                           (strip (default "" (form_get f "descricao")))
                           (format_2f v) cid
                           (strip (default "" (form_get f "anotacao"))))
                 else e) <$> stored_expenses w) ∧
    (expense_id ∉ e_id <$> stored_expenses w -> w' = w) ∧
    categories_csv w' = categories_csv w.
Proof.
  intros (cats & exps & Hw & [Hwc _] & [Hwe Hnd]) H1 H2 H3 Hd Hv Hr.
  pose proof (resolved_nonblank _ _ _ _ Hr eq_refl) as H4.
  rewrite strip_categoria_input in H4.
  rewrite Hw in Hr |- *.
  assert (cid ≠ "") as Hcid.
  { destruct (resolve_category_id_elem (categoria_input f) cats exps
                (io_log w) Hwc) as (r & Hr'' & Hin).
    assert (r = Some cid) as -> by congruence.
    pose proof (Hin cid eq_refl) as Hc.
    apply list_elem_of_fmap in Hc as (c & -> & Hc).
    destruct (wf_category_id_of cats c Hwc Hc) as [k ->]. apply str_nonempty. }
  unfold editar_lancamento. rewrite form_passes, Hd, Hv by done.
  unfold bind. rewrite Hr. cbn [from_option id].
  rewrite (proj2 (truthy_true _) Hcid). cbn [negb].
  rewrite update_expense_cases by done.
  rewrite stored_expenses_store_of by done.
  destruct (stripped_loaded exps Hwe) as [Hid Hs].
  set (l := stripped_expense <$> exps) in *.
  assert (NoDup (e_id <$> l)) as Hndl.
  { unfold l. by rewrite stripped_expense_ids. }
  destruct (decide (expense_id ∈ e_id <$> l)) as [Hin|Hnin].
  - rewrite bool_decide_eq_true_2 by done.
    rewrite (proj2 (existsb_id_elem expense_id l) Hin).
    eexists. split; [done|]. split_and!; [|done|done]. intros _.
    rewrite rewrite_first_map by done.
    rewrite stored_expenses_store_of.
    + rewrite <- list_fmap_compose. apply list_fmap_ext.
      intros _ e He%list_elem_of_lookup_2. cbn.
      destruct (String.eqb (e_id e) expense_id); [done|].
      eapply Forall_forall in Hs; done.
    + apply Forall_fmap, Forall_forall. intros e He. cbn.
      destruct (String.eqb_spec (e_id e) expense_id) as [<-|];
        cbn; eapply Forall_forall in Hid; done.
  - rewrite bool_decide_eq_false_2 by done.
    assert (existsb (fun e => String.eqb (e_id e) expense_id) l = false) as ->.
    { apply not_true_iff_false. by rewrite existsb_id_elem. }
    eexists. split; [done|]. split_and!; done.
Qed.

Lemma editar_lancamento_outcome_witness :
  wf_store sample_store ∧
  strptime (strip (default "" (form_get form_valid "data")))
  = Some (mkDate 2024 1 8) ∧
  float (replace "," "." (strip (default "" (form_get form_valid "valor"))))
  = Some (FDec false 1230 (-2)) ∧
  resolve_category_id (categoria_input form_valid) sample_store
  = (Ret (Some "2"), sample_store) ∧
  ∃ w',
    editar_lancamento example_format_2f "3" form_valid sample_store
    = (Ret (if bool_decide ("3" ∈ e_id <$> stored_expenses sample_store)
            then Redirect "Lançamento atualizado com sucesso!" "success"
                          ep_index
            else Redirect "Não foi possível atualizar o lançamento." "error"
                          ep_index),
       w') ∧
    ("3" ∈ e_id <$> stored_expenses sample_store ->
     stored_expenses w'
     = (fun e => if String.eqb (e_id e) "3"
                 then stripped_expense
                        (mkExpense "3" (strftime (mkDate 2024 1 8))
                           (strip (default "" (form_get form_valid "descricao")))
                           (example_format_2f (FDec false 1230 (-2))) "2"
                           (strip (default "" (form_get form_valid "anotacao"))))
                 else e) <$> stored_expenses sample_store) ∧
    ("3" ∉ e_id <$> stored_expenses sample_store -> w' = sample_store) ∧
    categories_csv w' = categories_csv sample_store.
Proof.
  split; [apply sample_store_wf|].
  split; [by vm_compute|]. split; [by vm_compute|]. split; [by vm_compute|].
  apply (editar_lancamento_outcome example_format_2f "3" form_valid sample_store
           (mkDate 2024 1 8) (FDec false 1230 (-2)) "2");
    [apply sample_store_wf|by vm_compute..].
Defined.

(** ** Amounts in the handler *)

Section AmountsAccepted.

Context (format_2f : pyfloat -> string).


End AmountsAccepted.



(** The two forms at work on the sample store: both record the amount
    ["3.50"]. *)
Example adicionar_comma_and_dot :
  e_valor <$> stored_expenses (adicionar example_format_2f form_comma sample_store).2
  = ["3.50"; "30.50"; "12.00"; "3.50"] ∧
  e_valor <$> stored_expenses (adicionar example_format_2f form_dot sample_store).2
  = ["3.50"; "30.50"; "12.00"; "3.50"].
Proof. by vm_compute. Qed.

(** C5, at a legacy data directory.  The names the categories file lists
    are pairwise different up to case.  On the first access
    [upgrade_expenses_file] looks the category of each expense up by its
    exact name, finds no "mercado" beside "Mercado" and appends it as a new
    category: the stored names are no longer unique up to case, whatever
    the request was, here [add_category] with a name it refuses.  From then
    on the name "mercado" resolves to the category "Mercado". *)
Theorem migration_adds_name_equal_up_to_case :
  let w' := (add_category "MERCADO" legacy_case).2 in
  NoDup (lower <$> legacy_names [["Outros"]; ["Mercado"]]) ∧
  (add_category "MERCADO" legacy_case).1 = Ret tt ∧
  w' = (ensure_storage legacy_case).2 ∧
  stored_categories w'
  = [mkCategory "1" "Outros"; mkCategory "2" "Mercado";
     mkCategory "3" "mercado"] ∧
  stored_expenses w'
  = [mkExpense "1" "2023-05-01" "pao" "3,50" "3" ""] ∧
  ¬ names_unique (stored_categories w') ∧
  (resolve_category_id "mercado" w').1 = Ret (Some "2").
Proof.
  cbv zeta.
  assert (stored_categories (add_category "MERCADO" legacy_case).2
          = [mkCategory "1" "Outros"; mkCategory "2" "Mercado";
             mkCategory "3" "mercado"]) as Hc by (by vm_compute).
  split_and!; [by_evaluation|by vm_compute|by vm_compute|exact Hc
              |by vm_compute| |by vm_compute].
  rewrite Hc. unfold names_unique. by_evaluation.
Qed.
